(** * Address book bot (bot_v4.py): a shallow embedding and its properties

    The development follows the layout of the program:

    - Python strings as sequences of Unicode code points, with the
      predicates [str.isdigit], [str.isdecimal] and [str.isspace] the code
      relies on (tables of CPython 3.11, Unicode 14.0.0);
    - the part of [datetime] the program uses: proleptic Gregorian
      ordinals, [replace], comparison, subtraction, [weekday], [strftime]
      and [strptime] for the one format ["%d.%m.%Y"];
    - the field classes [Name], [Phone], [Birthday];
    - [Record] and its methods, written in a state-and-exception monad
      over the record that is [self];
    - [AddressBook], a [UserDict] whose [data] is an insertion-ordered
      dictionary;
    - [pickle] as the stack machine it is, and the two persistence
      functions [save_data] and [load_data] over a store of files;
    - the command functions under [input_error], [parse_input], and the
      loop of [main] as a function of the lines it reads. *)

From Stdlib Require Import ZArith NArith Lia String Ascii.
From stdpp Require Import base option list sorting gmap.

Local Open Scope Z_scope.
#[local] Set Warnings "-register-all".

(* ===================================================================== *)
(** ** Python strings                                                     *)
(* ===================================================================== *)

(** A Python [str] is a sequence of Unicode code points. *)
Abbreviation char := N (only parsing).
Abbreviation str := (list N) (only parsing).

(** ASCII literals of the source, as code points. *)
Definition lit (s : string) : str :=
  (fun a => N_of_ascii a) <$> list_ascii_of_string s.

Definition in_ranges (tbl : list (N * N)) (c : char) : bool :=
  existsb (fun r => (fst r <=? c)%N && (c <=? snd r)%N) tbl.

(** Code points of general category Nd: [str.isdecimal], the class [\d]
    of [re] on a [str] pattern, and the digits [int] converts. *)
Definition decimal_ranges : list (N * N) :=
  [(48, 57); (1632, 1641); (1776, 1785); (1984, 1993); (2406, 2415);
   (2534, 2543); (2662, 2671); (2790, 2799); (2918, 2927); (3046, 3055);
   (3174, 3183); (3302, 3311); (3430, 3439); (3558, 3567); (3664, 3673);
   (3792, 3801); (3872, 3881); (4160, 4169); (4240, 4249); (6112, 6121);
   (6160, 6169); (6470, 6479); (6608, 6617); (6784, 6793); (6800, 6809);
   (6992, 7001); (7088, 7097); (7232, 7241); (7248, 7257); (42528, 42537);
   (43216, 43225); (43264, 43273); (43472, 43481); (43504, 43513);
   (43600, 43609); (44016, 44025); (65296, 65305); (66720, 66729);
   (68912, 68921); (69734, 69743); (69872, 69881); (69942, 69951);
   (70096, 70105); (70384, 70393); (70736, 70745); (70864, 70873);
   (71248, 71257); (71360, 71369); (71472, 71481); (71904, 71913);
   (72016, 72025); (72784, 72793); (73040, 73049); (73120, 73129);
   (92768, 92777); (92864, 92873); (93008, 93017); (120782, 120831);
   (123200, 123209); (123632, 123641); (125264, 125273);
   (130032, 130041)]%N.

(** Code points with Numeric_Type=Digit that are not decimal (superscripts,
    circled digits, ...): accepted by [str.isdigit] only. *)
Definition other_digit_ranges : list (N * N) :=
  [(178, 179); (185, 185); (4969, 4977); (6618, 6618); (8304, 8304);
   (8308, 8313); (8320, 8329); (9312, 9320); (9332, 9340); (9352, 9360);
   (9450, 9450); (9461, 9469); (9471, 9471); (10102, 10110);
   (10112, 10120); (10122, 10130); (68160, 68163); (69216, 69224);
   (69714, 69722); (127232, 127242)]%N.

(** Code points [str.isspace] holds of; [str.strip] removes them. *)
Definition space_ranges : list (N * N) :=
  [(9, 13); (28, 32); (133, 133); (160, 160); (5760, 5760); (8192, 8202);
   (8232, 8233); (8239, 8239); (8287, 8287); (12288, 12288)]%N.

Definition char_isdecimal (c : char) : bool := in_ranges decimal_ranges c.

Definition char_isdigit (c : char) : bool :=
  char_isdecimal c || in_ranges other_digit_ranges c.

Definition char_isspace (c : char) : bool := in_ranges space_ranges c.

(** The ten characters ['0'] .. ['9']. *)
Definition is_ascii_digit (c : char) : bool := (48 <=? c)%N && (c <=? 57)%N.

(** [str.isdigit()]: every character is a digit and there is at least one. *)
Definition isdigit (s : str) : bool :=
  match s with
  | [] => false
  | _ => forallb char_isdigit s
  end.

(** [str.strip()] without argument. *)
Fixpoint lstrip (s : str) : str :=
  match s with
  | c :: s' => if char_isspace c then lstrip s' else s
  | [] => []
  end.

Definition strip (s : str) : str := rev (lstrip (rev (lstrip s))).

(** Truth value of a [str]: non-empty. *)
Definition str_truthy (s : str) : bool :=
  match s with [] => false | _ => true end.

(** The decimal value of a character of category Nd: the blocks of the
    table are runs of 0..9 (the last but four holds five such runs). *)
Fixpoint decimal_value_in (tbl : list (N * N)) (c : char) : option Z :=
  match tbl with
  | [] => None
  | (lo, hi) :: tbl' =>
      if ((lo <=? c) && (c <=? hi))%N
      then Some (Z.of_N ((c - lo) mod 10))
      else decimal_value_in tbl' c
  end.

Definition decimal_value (c : char) : option Z :=
  decimal_value_in decimal_ranges c.

(** [int(s)] on the texts the [strptime] pattern can capture: decimal
    digits, after optional leading white space. *)
Fixpoint int_digits (acc : Z) (s : str) : option Z :=
  match s with
  | [] => Some acc
  | c :: s' =>
      match decimal_value c with
      | Some v => int_digits (10 * acc + v) s'
      | None => None
      end
  end.

Definition py_int (s : str) : option Z :=
  match lstrip s with
  | [] => None
  | ds => int_digits 0 ds
  end.

(** Decimal rendering of a non-negative number on at least [width]
    characters, zero filled: C's ["%0<width>d"]. *)
Definition digit_char (v : Z) : char := (48 + Z.to_N v)%N.

Fixpoint digits_rev (fuel : nat) (n : Z) : str :=
  match fuel with
  | O => []
  | S fuel' =>
      if n <? 10 then [digit_char n]
      else digit_char (n mod 10) :: digits_rev fuel' (n / 10)
  end.

Definition decimal (n : Z) : str :=
  rev (digits_rev (S (Z.to_nat (Z.log2 n))) n).

Definition zero_pad (width : nat) (n : Z) : str :=
  let ds := decimal n in
  replicate (width - length ds) 48%N ++ ds.

(* ===================================================================== *)
(** ** Exceptions                                                         *)
(* ===================================================================== *)

(** The exception classes that occur, with the message where the program
    (or the library) gives one. *)
Inductive exn :=
| ValueError (msg : str)
| KeyError (key : str)
| OverflowError (msg : str)
| IndexError (msg : str)
| EOFError
| FileNotFoundError (filename : str)
| UnpicklingError (msg : str).

(** [exn + A]: a computation that raises or returns. *)
Definition raise {A} (e : exn) : exn + A := inl e.

Definition bind_exn {A B} (m : exn + A) (k : A -> exn + B) : exn + B :=
  match m with
  | inl e => inl e
  | inr a => k a
  end.

Notation "x <-! m ; k" := (bind_exn m (fun x => k))
  (at level 100, m at next level, right associativity).

(* ===================================================================== *)
(** ** The calendar of [datetime]                                         *)
(* ===================================================================== *)

(** [datetime.date]: the three fields.  A date object of Python always
    satisfies [valid_date]; the constructor [make_date] checks it. *)
Record date := mkdate { year : Z; month : Z; day : Z }.

(** [datetime.datetime] without time zone. *)
Record datetime := mkdatetime {
  dt_date : date;
  hour : Z; minute : Z; second : Z; microsecond : Z; fold : Z
}.

Definition MINYEAR : Z := 1.
Definition MAXYEAR : Z := 9999.
Definition MAXORDINAL : Z := 3652059.

Definition is_leap (y : Z) : bool :=
  (y mod 4 =? 0) && (negb (y mod 100 =? 0) || (y mod 400 =? 0)).

(** [_DAYS_IN_MONTH], indexed from 1. *)
Definition DAYS_IN_MONTH (m : Z) : Z :=
  match m with
  | 1 => 31 | 2 => 28 | 3 => 31 | 4 => 30 | 5 => 31 | 6 => 30
  | 7 => 31 | 8 => 31 | 9 => 30 | 10 => 31 | 11 => 30 | 12 => 31
  | _ => -1
  end.

(** [_DAYS_BEFORE_MONTH], indexed from 1. *)
Definition DAYS_BEFORE_MONTH (m : Z) : Z :=
  match m with
  | 1 => 0 | 2 => 31 | 3 => 59 | 4 => 90 | 5 => 120 | 6 => 151
  | 7 => 181 | 8 => 212 | 9 => 243 | 10 => 273 | 11 => 304 | 12 => 334
  | _ => -1
  end.

Definition days_before_year (y : Z) : Z :=
  let y' := y - 1 in
  y' * 365 + y' / 4 - y' / 100 + y' / 400.

Definition days_in_month (y m : Z) : Z :=
  if (m =? 2) && is_leap y then 29 else DAYS_IN_MONTH m.

Definition days_before_month (y m : Z) : Z :=
  DAYS_BEFORE_MONTH m + (if (2 <? m) && is_leap y then 1 else 0).

Definition ymd2ord (y m d : Z) : Z :=
  days_before_year y + days_before_month y m + d.

Definition DI400Y : Z := 146097.
Definition DI100Y : Z := 36524.
Definition DI4Y : Z := 1461.

(** The end of [_ord2ymd]: month and day of the day at offset [n] from
    1 January, by an estimate of the month that is exact or one too large. *)
Definition ord2md (leapyear : bool) (n : Z) : Z * Z :=
  let m := Z.shiftr (n + 50) 5 in
  let preceding :=
    DAYS_BEFORE_MONTH m + (if (2 <? m) && leapyear then 1 else 0) in
  if n <? preceding then
    let m := m - 1 in
    let preceding :=
      preceding
      - (DAYS_IN_MONTH m + (if (m =? 2) && leapyear then 1 else 0)) in
    (m, n - preceding + 1)
  else (m, n - preceding + 1).

(** [_ord2ymd]: the date of an ordinal, 1 being 1 January of year 1. *)
Definition ord2ymd (n : Z) : date :=
  let n := n - 1 in
  let n400 := n / DI400Y in
  let n := n mod DI400Y in
  let y := n400 * 400 + 1 in
  let n100 := n / DI100Y in
  let n := n mod DI100Y in
  let n4 := n / DI4Y in
  let n := n mod DI4Y in
  let n1 := n / 365 in
  let n := n mod 365 in
  let y := y + n100 * 100 + n4 * 4 + n1 in
  if (n1 =? 4) || (n100 =? 4) then mkdate (y - 1) 12 31
  else
    let leapyear := (n1 =? 3) && (negb (n4 =? 24) || (n100 =? 3)) in
    let '(m, d) := ord2md leapyear n in
    mkdate y m d.

(** [_check_date_fields], as a predicate. *)
Definition valid_dateb (y m d : Z) : bool :=
  (MINYEAR <=? y) && (y <=? MAXYEAR) && (1 <=? m) && (m <=? 12)
  && (1 <=? d) && (d <=? days_in_month y m).

Definition valid_date (d : date) : Prop :=
  valid_dateb (year d) (month d) (day d) = true.

(** [date(year, month, day)]: raises [ValueError] on fields out of range. *)
Definition make_date (y m d : Z) : exn + date :=
  if negb ((MINYEAR <=? y) && (y <=? MAXYEAR))
  then raise (ValueError (lit "year must be in 1..9999"))
  else if negb ((1 <=? m) && (m <=? 12))
  then raise (ValueError (lit "month must be in 1..12"))
  else if negb ((1 <=? d) && (d <=? days_in_month y m))
  then raise (ValueError
                (lit "day must be in 1.." ++ decimal (days_in_month y m)))
  else inr (mkdate y m d).

(** [d.replace(year=y)] and [d.replace(year=y, day=dd)]. *)
Definition replace_year (d : date) (y : Z) : exn + date :=
  make_date y (month d) (day d).

Definition replace_year_day (d : date) (y dd : Z) : exn + date :=
  make_date y (month d) dd.

Definition toordinal (d : date) : Z := ymd2ord (year d) (month d) (day d).

Definition fromordinal (n : Z) : date := ord2ymd n.

(** [d1 < d2]: comparison of the tuples (year, month, day). *)
Definition date_ltb (d1 d2 : date) : bool :=
  (year d1 <? year d2)
  || ((year d1 =? year d2)
      && ((month d1 <? month d2)
          || ((month d1 =? month d2) && (day d1 <? day d2)))).

(** [(d1 - d2).days]. *)
Definition days_between (d1 d2 : date) : Z := toordinal d1 - toordinal d2.

(** [d + timedelta(days=k)]. *)
Definition date_add_days (d : date) (k : Z) : exn + date :=
  let o := toordinal d + k in
  if (0 <? o) && (o <=? MAXORDINAL) then inr (fromordinal o)
  else raise (OverflowError (lit "result out of range")).

(** [d.weekday()]: Monday is 0, Sunday is 6. *)
Definition weekday (d : date) : Z := (toordinal d + 6) mod 7.

(** [d.strftime("%d.%m.%Y")].  The C library formats [%Y]: glibc writes
    the year without padding, other platforms fill it with zeros to four
    digits; the two agree from year 1000 on.  [pad_year] is [true] on the
    platforms that fill. *)
Definition strftime_dmY (pad_year : bool) (d : date) : str :=
  zero_pad 2 (day d) ++ lit "." ++ zero_pad 2 (month d) ++ lit "."
  ++ (if pad_year then zero_pad 4 (year d) else decimal (year d)).

(** [dt.date()]. *)
Definition datetime_date (dt : datetime) : date := dt_date dt.

Definition valid_datetime (dt : datetime) : Prop :=
  valid_date (dt_date dt)
  /\ 0 <= hour dt < 24 /\ 0 <= minute dt < 60 /\ 0 <= second dt < 60
  /\ 0 <= microsecond dt < 1000000 /\ 0 <= fold dt <= 1.

(* ===================================================================== *)
(** ** [datetime.strptime(value, "%d.%m.%Y")]                             *)
(* ===================================================================== *)

(** [_strptime] turns the format into a regular expression, here
    [(3[0-1]|[1-2]\d|0[1-9]|[1-9]| [1-9])\.(1[0-2]|0[1-9]|[1-9])\.(\d\d\d\d)],
    matches it at the start of the text with [re.match], and converts the
    three groups with [int].  A small backtracking matcher: the results of
    [rmatch] are the ways to match a prefix, in the order [re] tries them. *)
Inductive regex :=
| Class (p : char -> bool)
| Cat (r1 r2 : regex)
| Or (r1 r2 : regex).

Fixpoint rmatch (r : regex) (s : str) : list (str * str) :=
  match r with
  | Class p =>
      match s with
      | c :: s' => if p c then [([c], s')] else []
      | [] => []
      end
  | Cat r1 r2 =>
      flat_map (fun '(a, s1) =>
        (fun '(b, s2) => (a ++ b, s2)) <$> rmatch r2 s1) (rmatch r1 s)
  | Or r1 r2 => rmatch r1 s ++ rmatch r2 s
  end.

Definition one (c : char) : regex := Class (fun x => (x =? c)%N).
Definition range (lo hi : char) : regex :=
  Class (fun x => (lo <=? x)%N && (x <=? hi)%N).
Definition re_digit : regex := Class char_isdecimal.

(** ['0'] is 48, ['1'] 49, ['2'] 50, ['3'] 51, ['9'] 57, the space 32 and
    the full stop 46. *)
Definition re_d : regex :=
  Or (Cat (one 51) (range 48 49))
  (Or (Cat (range 49 50) re_digit)
  (Or (Cat (one 48) (range 49 57))
  (Or (range 49 57)
      (Cat (one 32) (range 49 57))))).

Definition re_m : regex :=
  Or (Cat (one 49) (range 48 50))
  (Or (Cat (one 48) (range 49 57))
      (range 49 57)).

Definition re_Y : regex := Cat re_digit (Cat re_digit (Cat re_digit re_digit)).

(** The matches of the whole pattern at the start of the text, in the
    order of the search: the three groups and what is left of the text. *)
Definition matches_dmY (s : str) : list (str * str * str * str) :=
  flat_map (fun '(d, s1) =>
    flat_map (fun '(_, s2) =>
      flat_map (fun '(m, s3) =>
        flat_map (fun '(_, s4) =>
          (fun '(y, s5) => (d, m, y, s5)) <$> rmatch re_Y s4)
        (rmatch (one 46) s3))
      (rmatch re_m s2))
    (rmatch (one 46) s1))
  (rmatch re_d s).

(** The match [re.match] finds, if any: the first. *)
Definition match_dmY (s : str) : option (str * str * str * str) :=
  head (matches_dmY s).

(** The messages of the library are shortened: the only caller replaces
    them by its own. *)
Definition strptime_dmY (value : str) : exn + datetime :=
  match match_dmY value with
  | None => raise (ValueError (lit "time data does not match format"))
  | Some (d, m, y, rest) =>
      match rest with
      | _ :: _ => raise (ValueError (lit "unconverted data remains"))
      | [] =>
          match py_int y, py_int m, py_int d with
          | Some y, Some m, Some d =>
              dd <-! make_date y m d;
              inr (mkdatetime dd 0 0 0 0 0)
          | _, _, _ => raise (ValueError (lit "invalid literal for int()"))
          end
      end
  end.

(* ===================================================================== *)
(** ** Fields                                                             *)
(* ===================================================================== *)

(** The three subclasses of [Field]; each holds one attribute [value].
    Objects are modelled by their contents. *)
Record Name := mkName { name_value : str }.
Record Phone := mkPhone { phone_value : str }.
Record Birthday := mkBirthday { birthday_value : datetime }.

Global Instance Phone_eq_dec : EqDecision Phone.
Proof. solve_decision. Defined.

(** [Name.__init__] *)
Definition Name_init (value : str) : exn + Name :=
  if negb (str_truthy value) || negb (str_truthy (strip value))
  then raise (ValueError (lit "Name cannot be empty"))
  else inr (mkName value).

(** [Phone.__init__] *)
Definition Phone_init (value : str) : exn + Phone :=
  if negb (isdigit value)
  then raise (ValueError (lit "Phone number must contain only digits"))
  else if negb (length value =? 10)%nat
  then raise (ValueError (lit "Phone number must be exactly 10 digits"))
  else inr (mkPhone value).

(** [Birthday.__init__]: any [ValueError] of [strptime] is replaced. *)
Definition Birthday_init (value : str) : exn + Birthday :=
  match strptime_dmY value with
  | inr birthday_date => inr (mkBirthday birthday_date)
  | inl (ValueError _) =>
      raise (ValueError (lit "Invalid date format. Use DD.MM.YYYY"))
  | inl e => inl e
  end.

(* ===================================================================== *)
(** ** [Record]                                                           *)
(* ===================================================================== *)

(** The class [Record] of the program ([Record] is a command of Rocq, so
    the type is [ContactRecord]). *)
Record ContactRecord := mkRecord {
  name : Name;
  phones : list Phone;
  birthday : option Birthday
}.

(** A method runs on [self], may change it, and returns or raises.  The
    record that comes back is the object after the call, also when the
    call raised. *)
Definition method (A : Type) : Type :=
  ContactRecord -> (exn + A) * ContactRecord.

Definition ret {A} (a : A) : method A := fun self => (inr a, self).

Definition throw {A} (e : exn) : method A := fun self => (inl e, self).

Definition bind {A B} (m : method A) (k : A -> method B) : method B :=
  fun self =>
    match m self with
    | (inl e, self') => (inl e, self')
    | (inr a, self') => k a self'
    end.

(** A call that does not touch [self]. *)
Definition call {A} (r : exn + A) : method A := fun self => (r, self).

Notation "x <~ m ; k" := (bind m (fun x => k))
  (at level 100, m at next level, right associativity).

Definition get_phones : method (list Phone) :=
  fun self => (inr (phones self), self).

Definition set_phones (ps : list Phone) : method unit :=
  fun self => (inr tt, mkRecord (name self) ps (birthday self)).

Definition set_birthday (b : option Birthday) : method unit :=
  fun self => (inr tt, mkRecord (name self) (phones self) b).

(** [Record.__init__] *)
Definition Record_init (name : str) : exn + ContactRecord :=
  n <-! Name_init name;
  inr (mkRecord n [] None).

(** The loop of [find_phone]. *)
Fixpoint find_phone_in (ps : list Phone) (phone : str) : option Phone :=
  match ps with
  | [] => None
  | p :: ps' =>
      if decide (phone_value p = phone) then Some p
      else find_phone_in ps' phone
  end.

Definition find_phone (phone : str) : method (option Phone) :=
  ps <~ get_phones;
  ret (find_phone_in ps phone).

(** [list.index(x)] and [list.remove(x)] look for the first element equal
    to [x]; [Phone] defines no [__eq__], so that is the first occurrence of
    the object [x] itself.  Both are only called with the object
    [find_phone] returned, the first element whose value is the text looked
    for: its first occurrence is the first element with that value, which
    equality of contents finds. *)
Fixpoint list_index (x : Phone) (l : list Phone) : exn + nat :=
  match l with
  | [] => raise (ValueError (lit "x is not in list"))
  | y :: l' =>
      if decide (y = x) then inr O
      else i <-! list_index x l'; inr (S i)
  end.

Fixpoint list_remove (x : Phone) (l : list Phone) : exn + list Phone :=
  match l with
  | [] => raise (ValueError (lit "list.remove(x): x not in list"))
  | y :: l' =>
      if decide (y = x) then inr l'
      else l'' <-! list_remove x l'; inr (y :: l'')
  end.

(** [l[i] = x] for an index that is not negative. *)
Definition list_setitem (l : list Phone) (i : nat) (x : Phone)
  : exn + list Phone :=
  if (i <? length l)%nat then inr (<[i := x]> l)
  else raise (IndexError (lit "list assignment index out of range")).

(** [Record.add_phone] *)
Definition add_phone (phone : str) : method unit :=
  phone_obj <~ call (Phone_init phone);
  ps <~ get_phones;
  set_phones (ps ++ [phone_obj]).

(** [Record.remove_phone]; an object is true unless it is [None]. *)
Definition remove_phone (phone : str) : method unit :=
  phone_obj <~ find_phone phone;
  match phone_obj with
  | Some p =>
      ps <~ get_phones;
      ps' <~ call (list_remove p ps);
      set_phones ps'
  | None => throw (ValueError (lit "Phone " ++ phone ++ lit " not found"))
  end.

(** [Record.edit_phone] *)
Definition edit_phone (old_phone new_phone : str) : method unit :=
  phone_obj <~ find_phone old_phone;
  match phone_obj with
  | None =>
      throw (ValueError (lit "Phone " ++ old_phone ++ lit " not found"))
  | Some p =>
      new_phone_obj <~ call (Phone_init new_phone);
      ps <~ get_phones;
      index <~ call (list_index p ps);
      ps' <~ call (list_setitem ps index new_phone_obj);
      set_phones ps'
  end.

(** [Record.add_birthday] *)
Definition add_birthday (birthday : str) : method unit :=
  b <~ call (Birthday_init birthday);
  set_birthday (Some b).

(** The four methods that change a record, as data. *)
Inductive record_op :=
| OpAddPhone (phone : str)
| OpRemovePhone (phone : str)
| OpEditPhone (old_phone new_phone : str)
| OpAddBirthday (birthday : str).

Definition run_op (op : record_op) : method unit :=
  match op with
  | OpAddPhone p => add_phone p
  | OpRemovePhone p => remove_phone p
  | OpEditPhone o n => edit_phone o n
  | OpAddBirthday b => add_birthday b
  end.

(* ===================================================================== *)
(** ** [AddressBook]                                                      *)
(* ===================================================================== *)

(** A [dict] with [str] keys: the items in insertion order, no key twice. *)
Section Dict.
Context {V : Type}.

(** [d[k] = v]: a key that is present keeps its place. *)
Fixpoint dict_setitem (k : str) (v : V) (d : list (str * V))
  : list (str * V) :=
  match d with
  | [] => [(k, v)]
  | (k', v') :: d' =>
      if decide (k' = k) then (k', v) :: d'
      else (k', v') :: dict_setitem k v d'
  end.

(** [d.get(k)] *)
Fixpoint dict_get (k : str) (d : list (str * V)) : option V :=
  match d with
  | [] => None
  | (k', v') :: d' => if decide (k' = k) then Some v' else dict_get k d'
  end.

(** [k in d] *)
Definition dict_contains (k : str) (d : list (str * V)) : bool :=
  bool_decide (is_Some (dict_get k d)).

(** [del d[k]] for a key that is present. *)
Fixpoint dict_delitem (k : str) (d : list (str * V)) : list (str * V) :=
  match d with
  | [] => []
  | (k', v') :: d' =>
      if decide (k' = k) then d' else (k', v') :: dict_delitem k d'
  end.

(** [d.values()] *)
Definition dict_values (d : list (str * V)) : list V := d.*2.

Definition dict_keys (d : list (str * V)) : list (list N) := d.*1.
End Dict.

(** [AddressBook(UserDict)]: the one attribute is [data]. *)
Record AddressBook := mkAddressBook { data : list (str * ContactRecord) }.

(** [AddressBook()] *)
Definition AddressBook_init : AddressBook := mkAddressBook [].

(** [AddressBook.add_record] *)
Definition add_record (record : ContactRecord) (book : AddressBook)
  : AddressBook :=
  mkAddressBook (dict_setitem (name_value (name record)) record (data book)).

(** [AddressBook.find] *)
Definition find (name : str) (book : AddressBook) : option ContactRecord :=
  dict_get name (data book).

(** [AddressBook.delete] *)
Definition delete (name : str) (book : AddressBook) : exn + AddressBook :=
  if dict_contains name (data book)
  then inr (mkAddressBook (dict_delitem name (data book)))
  else raise (KeyError name).

(** A method called on the record found under [name], as the command
    functions do ([record = book.find(name); record.add_phone(phone)]): the
    book holds the object, so it sees the change, whether the call returned
    or raised. *)
Definition call_on (name : str) (op : record_op) (book : AddressBook)
  : option ((exn + unit) * AddressBook) :=
  match find name book with
  | None => None
  | Some record =>
      let '(r, record') := run_op op record in
      Some (r, mkAddressBook (dict_setitem name record' (data book)))
  end.

(** One item of the list [get_upcoming_birthdays] returns: a [dict] with
    the three keys ["name"], ["birthday"] and ["congratulation_date"]. *)
Record upcoming := mkUpcoming {
  u_name : str;
  u_birthday : str;
  u_congratulation_date : str
}.

Section UpcomingBirthdays.
(** [datetime.today().date()], and the platform's way to format [%Y]. *)
Variable today : date.
Variable pad_year : bool.

(** The [try] / [except ValueError] that places the birthday in year [y];
    the program has it twice, for [today.year] and [today.year + 1]. *)
Definition birthday_in_year (birthday_date : date) (y : Z) : exn + date :=
  match replace_year birthday_date y with
  | inl (ValueError _) => replace_year_day birthday_date y 28
  | r => r
  end.

(** The date the program calls [birthday_this_year] once it is settled. *)
Definition next_birthday (birthday_date : date) : exn + date :=
  birthday_this_year <-! birthday_in_year birthday_date (year today);
  if date_ltb birthday_this_year today
  then birthday_in_year birthday_date (year today + 1)
  else inr birthday_this_year.

(** The move of a weekend date to Monday. *)
Definition congratulation (birthday_this_year : date) : exn + date :=
  let congratulation_date := birthday_this_year in
  let weekday := weekday congratulation_date in
  if weekday =? 5 then date_add_days congratulation_date 2
  else if weekday =? 6 then date_add_days congratulation_date 1
  else inr congratulation_date.

(** The body of the [for] loop, on the list built so far. *)
Definition upcoming_step (days : Z) (record : ContactRecord)
    (upcoming_birthdays : list upcoming) : exn + list upcoming :=
  match birthday record with
  | None => inr upcoming_birthdays
  | Some b =>
      let birthday_date := datetime_date (birthday_value b) in
      birthday_this_year <-! next_birthday birthday_date;
      let days_until_birthday := days_between birthday_this_year today in
      if (0 <=? days_until_birthday) && (days_until_birthday <=? days)
      then
        congratulation_date <-! congratulation birthday_this_year;
        inr (upcoming_birthdays ++
             [mkUpcoming (name_value (name record))
                         (strftime_dmY pad_year birthday_this_year)
                         (strftime_dmY pad_year congratulation_date)])
      else inr upcoming_birthdays
  end.

Fixpoint upcoming_loop (days : Z) (records : list ContactRecord)
    (upcoming_birthdays : list upcoming) : exn + list upcoming :=
  match records with
  | [] => inr upcoming_birthdays
  | record :: records' =>
      acc <-! upcoming_step days record upcoming_birthdays;
      upcoming_loop days records' acc
  end.

(** [AddressBook.get_upcoming_birthdays] *)
Definition get_upcoming_birthdays (days : Z) (book : AddressBook)
  : exn + list upcoming :=
  upcoming_loop days (dict_values (data book)) [].
End UpcomingBirthdays.

(* ===================================================================== *)
(** ** [pickle]                                                           *)
(* ===================================================================== *)

(** The objects a pickle of an address book is made of.  An instance of a
    class of the program is its class and its [__dict__]; a class is
    pickled by reference, as module and name. *)
Inductive pyval :=
| PyNone
| PyStr (s : str)
| PyBytes (b : list Z)
| PyTuple (items : list pyval)
| PyList (items : list pyval)
| PyDict (items : list (str * pyval))
| PyClass (module name : str)
| PyInstance (module name : str) (attrs : list (str * pyval))
| PyDatetime (dt : datetime).

(** The opcodes of protocol 4 that occur.  The three sizes of a string
    opcode (and of a bytes opcode) are one constructor each; the bytes of
    the operands and the framing of the stream are not modelled. *)
Inductive opcode :=
| PROTO (n : Z)
| NONE
| BINUNICODE (s : str)
| BINBYTES (b : list Z)
| EMPTY_TUPLE | TUPLE1 | TUPLE2 | TUPLE3 | TUPLE
| EMPTY_LIST | EMPTY_DICT
| MARK
| APPEND | APPENDS
| SETITEM | SETITEMS
| STACK_GLOBAL
| NEWOBJ
| BUILD
| REDUCE
| STOP.

Definition BATCHSIZE : nat := 1000.

(** The [while] loop of [_batch_appends] and [_batch_setitems]: batches of
    [BATCHSIZE] items, until one is short (the last may be empty). *)
Fixpoint batches {A} (fuel : nat) (items : list A) : list (list A) :=
  match fuel with
  | O => []
  | S fuel' =>
      let tmp := take BATCHSIZE items in
      if (length tmp <? BATCHSIZE)%nat then [tmp]
      else tmp :: batches fuel' (drop BATCHSIZE items)
  end.

(** What is written for one batch of saved items: [many] is [APPENDS] or
    [SETITEMS], [single] is [APPEND] or [SETITEM]. *)
Definition write_batch (many single : opcode) (tmp : list (list opcode))
  : list opcode :=
  match tmp with
  | [] => []
  | [x] => x ++ [single]
  | _ => MARK :: concat tmp ++ [many]
  end.

Definition write_batches (many single : opcode) (saved : list (list opcode))
  : list opcode :=
  concat (write_batch many single <$> batches (S (length saved)) saved).

(** [datetime._getstate(protocol)] for protocol 4, without [tzinfo]. *)
Definition datetime_getstate (dt : datetime) : list Z :=
  let yhi := year (dt_date dt) / 256 in
  let ylo := year (dt_date dt) mod 256 in
  let us3 := microsecond dt mod 256 in
  let us2 := (microsecond dt / 256) mod 256 in
  let us1 := (microsecond dt / 256) / 256 in
  let m := month (dt_date dt) in
  let m := if negb (fold dt =? 0) then m + 128 else m in
  [yhi; ylo; m; day (dt_date dt); hour dt; minute dt; second dt;
   us1; us2; us3].

(** [datetime.__setstate] *)
Definition datetime_setstate (b : list Z) : option datetime :=
  match b with
  | [yhi; ylo; m; d; hh; mm; ss; us1; us2; us3] =>
      let '(fold, m) := if 127 <? m then (1, m - 128) else (0, m) in
      Some (mkdatetime (mkdate (yhi * 256 + ylo) m d) hh mm ss
              (Z.lor (Z.shiftl (Z.lor (Z.shiftl us1 8) us2) 8) us3) fold)
  | _ => None
  end.

Definition main_module : str := lit "__main__".
Definition datetime_class : pyval := PyClass (lit "datetime") (lit "datetime").

(** The classes of the program: [find_class] resolves these names; their
    instances are created by [object.__new__] and keep their state in
    [__dict__]. *)
Definition program_classes : list (list N) :=
  [lit "AddressBook"; lit "Record"; lit "Name"; lit "Phone"; lit "Birthday"].

Definition is_program_class (module name : str) : bool :=
  bool_decide (module = main_module) && bool_decide (name ∈ program_classes).

(** [Pickler.save], protocol 4, in the mode without memo ([Pickler.fast]):
    every object is written in full.  With the memo the pickler writes an
    object it meets again as a reference to the first, which the unpickler
    resolves to that same object. *)
Fixpoint save (obj : pyval) : list opcode :=
  match obj with
  | PyNone => [NONE]
  | PyStr s => [BINUNICODE s]
  | PyBytes b => [BINBYTES b]
  | PyTuple items =>
      match items with
      | [] => [EMPTY_TUPLE]
      | [a] => save a ++ [TUPLE1]
      | [a; b] => save a ++ save b ++ [TUPLE2]
      | [a; b; c] => save a ++ save b ++ save c ++ [TUPLE3]
      | _ => MARK :: concat (map save items) ++ [TUPLE]
      end
  | PyList items =>
      EMPTY_LIST :: write_batches APPENDS APPEND (map save items)
  | PyDict items =>
      EMPTY_DICT
      :: write_batches SETITEMS SETITEM
           (map (fun kv => BINUNICODE (fst kv) :: save (snd kv)) items)
  | PyClass module name =>
      [BINUNICODE module; BINUNICODE name; STACK_GLOBAL]
  | PyInstance module name attrs =>
      [BINUNICODE module; BINUNICODE name; STACK_GLOBAL; EMPTY_TUPLE; NEWOBJ]
      ++ match attrs with
         | [] => []
         | _ =>
             EMPTY_DICT
             :: write_batches SETITEMS SETITEM
                  (map (fun kv => BINUNICODE (fst kv) :: save (snd kv))
                       attrs)
             ++ [BUILD]
         end
  | PyDatetime dt =>
      [BINUNICODE (lit "datetime"); BINUNICODE (lit "datetime");
       STACK_GLOBAL; BINBYTES (datetime_getstate dt); TUPLE1; REDUCE]
  end.

(** [pickle.dump(obj, f)]: what is written to the file. *)
Definition pickle_dump (obj : pyval) : list opcode :=
  PROTO 4 :: save obj ++ [STOP].

(** The unpickler: its stack (top first) and the stacks put aside by
    [MARK]. *)
Record unpickler := mkUnpickler {
  stack : list pyval;
  metastack : list (list pyval)
}.

(** A stream the machine cannot run.  (Python raises exceptions of several
    classes there; they are one here.) *)
Definition bad_pickle {A} : exn + A :=
  raise (UnpicklingError (lit "pickle data was truncated or malformed")).

(** [pop_mark]: the items above the mark, oldest first. *)
Definition pop_mark (u : unpickler) : exn + (list pyval * unpickler) :=
  match metastack u with
  | [] => bad_pickle
  | st :: ms => inr (rev (stack u), mkUnpickler st ms)
  end.

Definition with_stack (u : unpickler) (st : list pyval) : unpickler :=
  mkUnpickler st (metastack u).

(** The items of [SETITEMS], taken two by two; the keys of the fragment
    are strings. *)
Fixpoint setitems (items : list pyval) (d : list (str * pyval))
  : exn + list (str * pyval) :=
  match items with
  | [] => inr d
  | PyStr k :: v :: items' => setitems items' (dict_setitem k v d)
  | _ => bad_pickle
  end.

(** [load_build] on an instance without [__setstate__]. *)
Definition build (attrs state : list (str * pyval)) : list (str * pyval) :=
  fold_left (fun d kv => dict_setitem (fst kv) (snd kv) d) state attrs.

(** The call of [func] on [args] for [REDUCE]: the one callable of the fragment is the
    class [datetime], which takes its pickled state when it is called on
    ten bytes the third of which is a month. *)
Definition reduce (func args : pyval) : exn + pyval :=
  match func, args with
  | PyClass module name, PyTuple [PyBytes b] =>
      if bool_decide (module = lit "datetime")
         && bool_decide (name = lit "datetime")
         && (length b =? 10)%nat
         && (1 <=? Z.land (nth 2 b 0) 127) && (Z.land (nth 2 b 0) 127 <=? 12)
      then
        match datetime_setstate b with
        | Some dt => inr (PyDatetime dt)
        | None => bad_pickle
        end
      else bad_pickle
  | _, _ => bad_pickle
  end.

(** One opcode: the unpickler after it, or the object [STOP] returns. *)
Definition load_op (op : opcode) (u : unpickler)
  : exn + (unpickler + pyval) :=
  let continue st := inr (inl (with_stack u st)) in
  match op with
  | PROTO n =>
      if (0 <=? n) && (n <=? 5) then inr (inl u)
      else raise (ValueError (lit "unsupported pickle protocol"))
  | NONE => continue (PyNone :: stack u)
  | BINUNICODE s => continue (PyStr s :: stack u)
  | BINBYTES b => continue (PyBytes b :: stack u)
  | EMPTY_TUPLE => continue (PyTuple [] :: stack u)
  | EMPTY_LIST => continue (PyList [] :: stack u)
  | EMPTY_DICT => continue (PyDict [] :: stack u)
  | TUPLE1 =>
      match stack u with
      | a :: st => continue (PyTuple [a] :: st)
      | _ => bad_pickle
      end
  | TUPLE2 =>
      match stack u with
      | b :: a :: st => continue (PyTuple [a; b] :: st)
      | _ => bad_pickle
      end
  | TUPLE3 =>
      match stack u with
      | c :: b :: a :: st => continue (PyTuple [a; b; c] :: st)
      | _ => bad_pickle
      end
  | TUPLE =>
      popped <-! pop_mark u;
      let '(items, u') := popped in
      inr (inl (with_stack u' (PyTuple items :: stack u')))
  | MARK => inr (inl (mkUnpickler [] (stack u :: metastack u)))
  | APPEND =>
      match stack u with
      | value :: PyList l :: st => continue (PyList (l ++ [value]) :: st)
      | _ => bad_pickle
      end
  | APPENDS =>
      popped <-! pop_mark u;
      let '(items, u') := popped in
      match stack u' with
      | PyList l :: st => inr (inl (with_stack u' (PyList (l ++ items) :: st)))
      | _ => bad_pickle
      end
  | SETITEM =>
      match stack u with
      | value :: PyStr key :: PyDict d :: st =>
          continue (PyDict (dict_setitem key value d) :: st)
      | _ => bad_pickle
      end
  | SETITEMS =>
      popped <-! pop_mark u;
      let '(items, u') := popped in
      match stack u' with
      | PyDict d :: st =>
          d' <-! setitems items d;
          inr (inl (with_stack u' (PyDict d' :: st)))
      | _ => bad_pickle
      end
  | STACK_GLOBAL =>
      match stack u with
      | PyStr name :: PyStr module :: st =>
          if is_program_class module name
             || (bool_decide (module = lit "datetime")
                 && bool_decide (name = lit "datetime"))
          then continue (PyClass module name :: st)
          else bad_pickle
      | _ => bad_pickle
      end
  | NEWOBJ =>
      match stack u with
      | PyTuple [] :: PyClass module name :: st =>
          if is_program_class module name
          then continue (PyInstance module name [] :: st)
          else bad_pickle
      | _ => bad_pickle
      end
  | BUILD =>
      match stack u with
      | PyDict state :: PyInstance module name attrs :: st =>
          continue (PyInstance module name (build attrs state) :: st)
      | PyNone :: PyInstance module name attrs :: st =>
          continue (PyInstance module name attrs :: st)
      | _ => bad_pickle
      end
  | REDUCE =>
      match stack u with
      | args :: func :: st =>
          obj <-! reduce func args;
          continue (obj :: st)
      | _ => bad_pickle
      end
  | STOP =>
      match stack u with
      | value :: _ => inr (inr value)
      | [] => bad_pickle
      end
  end.

(** The loop of [Unpickler.load]; the end of the file before [STOP] is
    [EOFError]. *)
Fixpoint load_ops (ops : list opcode) (u : unpickler) : exn + pyval :=
  match ops with
  | [] => raise EOFError
  | op :: ops' =>
      r <-! load_op op u;
      match r with
      | inl u' => load_ops ops' u'
      | inr value => inr value
      end
  end.

(** [pickle.load(f)] *)
Definition pickle_load (f : list opcode) : exn + pyval :=
  load_ops f (mkUnpickler [] []).

(* ===================================================================== *)
(** ** The address book as objects                                        *)
(* ===================================================================== *)

(** The object graph of a book: each instance with its [__dict__], in the
    order in which [__init__] sets the attributes. *)
Definition obj_of_Name (n : Name) : pyval :=
  PyInstance main_module (lit "Name") [(lit "value", PyStr (name_value n))].

Definition obj_of_Phone (p : Phone) : pyval :=
  PyInstance main_module (lit "Phone") [(lit "value", PyStr (phone_value p))].

Definition obj_of_Birthday (b : Birthday) : pyval :=
  PyInstance main_module (lit "Birthday")
    [(lit "value", PyDatetime (birthday_value b))].

Definition obj_of_Record (r : ContactRecord) : pyval :=
  PyInstance main_module (lit "Record")
    [(lit "name", obj_of_Name (name r));
     (lit "phones", PyList (obj_of_Phone <$> phones r));
     (lit "birthday",
      match birthday r with
      | None => PyNone
      | Some b => obj_of_Birthday b
      end)].

Definition obj_of_AddressBook (book : AddressBook) : pyval :=
  PyInstance main_module (lit "AddressBook")
    [(lit "data", PyDict (prod_map id obj_of_Record <$> data book))].

(** Reading a book back from an object: [None] when the object is not an
    address book of this shape. *)
Definition Name_of_obj (o : pyval) : option Name :=
  match o with
  | PyInstance m c [(k, PyStr s)] =>
      if bool_decide (m = main_module) && bool_decide (c = lit "Name")
         && bool_decide (k = lit "value")
      then Some (mkName s) else None
  | _ => None
  end.

Definition Phone_of_obj (o : pyval) : option Phone :=
  match o with
  | PyInstance m c [(k, PyStr s)] =>
      if bool_decide (m = main_module) && bool_decide (c = lit "Phone")
         && bool_decide (k = lit "value")
      then Some (mkPhone s) else None
  | _ => None
  end.

Definition Birthday_of_obj (o : pyval) : option (option Birthday) :=
  match o with
  | PyNone => Some None
  | PyInstance m c [(k, PyDatetime dt)] =>
      if bool_decide (m = main_module) && bool_decide (c = lit "Birthday")
         && bool_decide (k = lit "value")
      then Some (Some (mkBirthday dt)) else None
  | _ => None
  end.

Definition Record_of_obj (o : pyval) : option ContactRecord :=
  match o with
  | PyInstance m c [(k1, n); (k2, PyList ps); (k3, b)] =>
      if bool_decide (m = main_module) && bool_decide (c = lit "Record")
         && bool_decide (k1 = lit "name") && bool_decide (k2 = lit "phones")
         && bool_decide (k3 = lit "birthday")
      then
        n' ← Name_of_obj n;
        ps' ← mapM Phone_of_obj ps;
        b' ← Birthday_of_obj b;
        Some (mkRecord n' ps' b')
      else None
  | _ => None
  end.

Definition AddressBook_of_obj (o : pyval) : option AddressBook :=
  match o with
  | PyInstance m c [(k, PyDict items)] =>
      if bool_decide (m = main_module) && bool_decide (c = lit "AddressBook")
         && bool_decide (k = lit "data")
      then
        d ← mapM (fun kv => r ← Record_of_obj (snd kv); Some (fst kv, r))
               items;
        Some (mkAddressBook d)
      else None
  | _ => None
  end.

(* ===================================================================== *)
(** ** Persistence                                                        *)
(* ===================================================================== *)

(** The files: a store from path to content.  Opening a path for writing
    creates or truncates it; failures of the device are not modelled. *)
Abbreviation files := (gmap (list N) (list opcode)) (only parsing).

(** [open(filename, "rb")] *)
Definition open_rb (fs : files) (filename : str) : exn + list opcode :=
  match fs !! filename with
  | Some f => inr f
  | None => raise (FileNotFoundError filename)
  end.

(** [save_data(book, filename)]: the store after the call. *)
Definition save_data (book : AddressBook) (filename : str) (fs : files)
  : files :=
  <[filename := pickle_dump (obj_of_AddressBook book)]> fs.

(** [load_data(filename)]: the object returned. *)
Definition load_data (filename : str) (fs : files) : exn + pyval :=
  match (f <-! open_rb fs filename; pickle_load f) with
  | inl (FileNotFoundError _) => inr (obj_of_AddressBook AddressBook_init)
  | r => r
  end.

Definition default_filename : str := lit "addressbook.pkl".

(* ===================================================================== *)
(** ** [str.split], [str.lower], [str.join] and [sorted]                  *)
(* ===================================================================== *)

(** [str.split()] without argument: the maximal runs of characters that
    are not white space.  [word] is the run being read. *)
Fixpoint split_from (word : str) (s : str) : list str :=
  match s with
  | [] => match word with [] => [] | _ => [word] end
  | c :: s' =>
      if char_isspace c
      then match word with
           | [] => split_from [] s'
           | _ => word :: split_from [] s'
           end
      else split_from (word ++ [c]) s'
  end.

Definition str_split (s : str) : list str := split_from [] s.

(** [sep.join(l)] *)
Fixpoint str_join (sep : str) (l : list str) : str :=
  match l with
  | [] => []
  | [x] => x
  | x :: l' => x ++ sep ++ str_join sep l'
  end.

(** Comparison of two [str]: by code points, a proper prefix first. *)
Fixpoint str_leb (s t : str) : bool :=
  match s, t with
  | [], _ => true
  | _ :: _, [] => false
  | c :: s', d :: t' => (c <? d)%N || ((c =? d)%N && str_leb s' t')
  end.

(** [sorted(l)] on a list of [str]: the order is total, so the result is
    the one sorted arrangement of [l], whatever the algorithm. *)
Definition sorted (l : list str) : list str :=
  merge_sort (fun s t => Is_true (str_leb s t)) l.

(** The tables of [str.lower] (CPython 3.11, Unicode 14.0.0). *)

(** The simple lower-case mappings: a code point [lo + k * stride] of the
    block [(lo, hi, stride, target)] becomes [target + k * stride]. *)
Definition lower_ranges : list (N * N * N * N) :=
  [(65, 90, 1, 97); (192, 214, 1, 224); (216, 222, 1, 248);
   (256, 302, 2, 257); (306, 310, 2, 307); (313, 327, 2, 314);
   (330, 374, 2, 331); (376, 376, 1, 255); (377, 381, 2, 378);
   (385, 385, 1, 595); (386, 388, 2, 387); (390, 390, 1, 596);
   (391, 391, 1, 392); (393, 394, 1, 598); (395, 395, 1, 396);
   (398, 398, 1, 477); (399, 399, 1, 601); (400, 400, 1, 603);
   (401, 401, 1, 402); (403, 403, 1, 608); (404, 404, 1, 611);
   (406, 406, 1, 617); (407, 407, 1, 616); (408, 408, 1, 409);
   (412, 412, 1, 623); (413, 413, 1, 626); (415, 415, 1, 629);
   (416, 420, 2, 417); (422, 422, 1, 640); (423, 423, 1, 424);
   (425, 425, 1, 643); (428, 428, 1, 429); (430, 430, 1, 648);
   (431, 431, 1, 432); (433, 434, 1, 650); (435, 437, 2, 436);
   (439, 439, 1, 658); (440, 440, 1, 441); (444, 444, 1, 445);
   (452, 452, 1, 454); (453, 453, 1, 454); (455, 455, 1, 457);
   (456, 456, 1, 457); (458, 458, 1, 460); (459, 475, 2, 460);
   (478, 494, 2, 479); (497, 497, 1, 499); (498, 500, 2, 499);
   (502, 502, 1, 405); (503, 503, 1, 447); (504, 542, 2, 505);
   (544, 544, 1, 414); (546, 562, 2, 547); (570, 570, 1, 11365);
   (571, 571, 1, 572); (573, 573, 1, 410); (574, 574, 1, 11366);
   (577, 577, 1, 578); (579, 579, 1, 384); (580, 580, 1, 649);
   (581, 581, 1, 652); (582, 590, 2, 583); (880, 882, 2, 881);
   (886, 886, 1, 887); (895, 895, 1, 1011); (902, 902, 1, 940);
   (904, 906, 1, 941); (908, 908, 1, 972); (910, 911, 1, 973);
   (913, 929, 1, 945); (932, 939, 1, 964); (975, 975, 1, 983);
   (984, 1006, 2, 985); (1012, 1012, 1, 952); (1015, 1015, 1, 1016);
   (1017, 1017, 1, 1010); (1018, 1018, 1, 1019); (1021, 1023, 1, 891);
   (1024, 1039, 1, 1104); (1040, 1071, 1, 1072); (1120, 1152, 2, 1121);
   (1162, 1214, 2, 1163); (1216, 1216, 1, 1231); (1217, 1229, 2, 1218);
   (1232, 1326, 2, 1233); (1329, 1366, 1, 1377); (4256, 4293, 1, 11520);
   (4295, 4295, 1, 11559); (4301, 4301, 1, 11565); (5024, 5103, 1, 43888);
   (5104, 5109, 1, 5112); (7312, 7354, 1, 4304); (7357, 7359, 1, 4349);
   (7680, 7828, 2, 7681); (7838, 7838, 1, 223); (7840, 7934, 2, 7841);
   (7944, 7951, 1, 7936); (7960, 7965, 1, 7952); (7976, 7983, 1, 7968);
   (7992, 7999, 1, 7984); (8008, 8013, 1, 8000); (8025, 8031, 2, 8017);
   (8040, 8047, 1, 8032); (8072, 8079, 1, 8064); (8088, 8095, 1, 8080);
   (8104, 8111, 1, 8096); (8120, 8121, 1, 8112); (8122, 8123, 1, 8048);
   (8124, 8124, 1, 8115); (8136, 8139, 1, 8050); (8140, 8140, 1, 8131);
   (8152, 8153, 1, 8144); (8154, 8155, 1, 8054); (8168, 8169, 1, 8160);
   (8170, 8171, 1, 8058); (8172, 8172, 1, 8165); (8184, 8185, 1, 8056);
   (8186, 8187, 1, 8060); (8188, 8188, 1, 8179); (8486, 8486, 1, 969);
   (8490, 8490, 1, 107); (8491, 8491, 1, 229); (8498, 8498, 1, 8526);
   (8544, 8559, 1, 8560); (8579, 8579, 1, 8580); (9398, 9423, 1, 9424);
   (11264, 11311, 1, 11312); (11360, 11360, 1, 11361);
   (11362, 11362, 1, 619); (11363, 11363, 1, 7549); (11364, 11364, 1, 637);
   (11367, 11371, 2, 11368); (11373, 11373, 1, 593);
   (11374, 11374, 1, 625); (11375, 11375, 1, 592); (11376, 11376, 1, 594);
   (11378, 11378, 1, 11379); (11381, 11381, 1, 11382);
   (11390, 11391, 1, 575); (11392, 11490, 2, 11393);
   (11499, 11501, 2, 11500); (11506, 11506, 1, 11507);
   (42560, 42604, 2, 42561); (42624, 42650, 2, 42625);
   (42786, 42798, 2, 42787); (42802, 42862, 2, 42803);
   (42873, 42875, 2, 42874); (42877, 42877, 1, 7545);
   (42878, 42886, 2, 42879); (42891, 42891, 1, 42892);
   (42893, 42893, 1, 613); (42896, 42898, 2, 42897);
   (42902, 42920, 2, 42903); (42922, 42922, 1, 614);
   (42923, 42923, 1, 604); (42924, 42924, 1, 609); (42925, 42925, 1, 620);
   (42926, 42926, 1, 618); (42928, 42928, 1, 670); (42929, 42929, 1, 647);
   (42930, 42930, 1, 669); (42931, 42931, 1, 43859);
   (42932, 42946, 2, 42933); (42948, 42948, 1, 42900);
   (42949, 42949, 1, 642); (42950, 42950, 1, 7566);
   (42951, 42953, 2, 42952); (42960, 42960, 1, 42961);
   (42966, 42968, 2, 42967); (42997, 42997, 1, 42998);
   (65313, 65338, 1, 65345); (66560, 66599, 1, 66600);
   (66736, 66771, 1, 66776); (66928, 66938, 1, 66967);
   (66940, 66954, 1, 66979); (66956, 66962, 1, 66995);
   (66964, 66965, 1, 67003); (68736, 68786, 1, 68800);
   (71840, 71871, 1, 71872); (93760, 93791, 1, 93792);
   (125184, 125217, 1, 125218)]%N.

(** Code points with the property Cased. *)
Definition cased_ranges : list (N * N) :=
  [(65, 90); (97, 122); (170, 170); (181, 181); (186, 186); (192, 214);
   (216, 246); (248, 442); (444, 447); (452, 659); (661, 696); (704, 705);
   (736, 740); (837, 837); (880, 883); (886, 887); (890, 893); (895, 895);
   (902, 902); (904, 906); (908, 908); (910, 929); (931, 1013);
   (1015, 1153); (1162, 1327); (1329, 1366); (1376, 1416); (4256, 4293);
   (4295, 4295); (4301, 4301); (4304, 4346); (4349, 4351); (5024, 5109);
   (5112, 5117); (7296, 7304); (7312, 7354); (7357, 7359); (7424, 7615);
   (7680, 7957); (7960, 7965); (7968, 8005); (8008, 8013); (8016, 8023);
   (8025, 8025); (8027, 8027); (8029, 8029); (8031, 8061); (8064, 8116);
   (8118, 8124); (8126, 8126); (8130, 8132); (8134, 8140); (8144, 8147);
   (8150, 8155); (8160, 8172); (8178, 8180); (8182, 8188); (8305, 8305);
   (8319, 8319); (8336, 8348); (8450, 8450); (8455, 8455); (8458, 8467);
   (8469, 8469); (8473, 8477); (8484, 8484); (8486, 8486); (8488, 8488);
   (8490, 8493); (8495, 8500); (8505, 8505); (8508, 8511); (8517, 8521);
   (8526, 8526); (8544, 8575); (8579, 8580); (9398, 9449); (11264, 11492);
   (11499, 11502); (11506, 11507); (11520, 11557); (11559, 11559);
   (11565, 11565); (42560, 42605); (42624, 42653); (42786, 42887);
   (42891, 42894); (42896, 42954); (42960, 42961); (42963, 42963);
   (42965, 42969); (42997, 42998); (43000, 43002); (43824, 43866);
   (43868, 43880); (43888, 43967); (64256, 64262); (64275, 64279);
   (65313, 65338); (65345, 65370); (66560, 66639); (66736, 66771);
   (66776, 66811); (66928, 66938); (66940, 66954); (66956, 66962);
   (66964, 66965); (66967, 66977); (66979, 66993); (66995, 67001);
   (67003, 67004); (67456, 67456); (67459, 67461); (67463, 67504);
   (67506, 67514); (68736, 68786); (68800, 68850); (71840, 71903);
   (93760, 93823); (119808, 119892); (119894, 119964); (119966, 119967);
   (119970, 119970); (119973, 119974); (119977, 119980); (119982, 119993);
   (119995, 119995); (119997, 120003); (120005, 120069); (120071, 120074);
   (120077, 120084); (120086, 120092); (120094, 120121); (120123, 120126);
   (120128, 120132); (120134, 120134); (120138, 120144); (120146, 120485);
   (120488, 120512); (120514, 120538); (120540, 120570); (120572, 120596);
   (120598, 120628); (120630, 120654); (120656, 120686); (120688, 120712);
   (120714, 120744); (120746, 120770); (120772, 120779); (122624, 122633);
   (122635, 122654); (125184, 125251); (127280, 127305); (127312, 127337);
   (127344, 127369)]%N.

(** Code points with the property Case_Ignorable. *)
Definition case_ignorable_ranges : list (N * N) :=
  [(39, 39); (46, 46); (58, 58); (94, 94); (96, 96); (168, 168);
   (173, 173); (175, 175); (180, 180); (183, 184); (688, 879); (884, 885);
   (890, 890); (900, 901); (903, 903); (1155, 1161); (1369, 1369);
   (1375, 1375); (1425, 1469); (1471, 1471); (1473, 1474); (1476, 1477);
   (1479, 1479); (1524, 1524); (1536, 1541); (1552, 1562); (1564, 1564);
   (1600, 1600); (1611, 1631); (1648, 1648); (1750, 1757); (1759, 1768);
   (1770, 1773); (1807, 1807); (1809, 1809); (1840, 1866); (1958, 1968);
   (2027, 2037); (2042, 2042); (2045, 2045); (2070, 2093); (2137, 2139);
   (2184, 2184); (2192, 2193); (2200, 2207); (2249, 2306); (2362, 2362);
   (2364, 2364); (2369, 2376); (2381, 2381); (2385, 2391); (2402, 2403);
   (2417, 2417); (2433, 2433); (2492, 2492); (2497, 2500); (2509, 2509);
   (2530, 2531); (2558, 2558); (2561, 2562); (2620, 2620); (2625, 2626);
   (2631, 2632); (2635, 2637); (2641, 2641); (2672, 2673); (2677, 2677);
   (2689, 2690); (2748, 2748); (2753, 2757); (2759, 2760); (2765, 2765);
   (2786, 2787); (2810, 2815); (2817, 2817); (2876, 2876); (2879, 2879);
   (2881, 2884); (2893, 2893); (2901, 2902); (2914, 2915); (2946, 2946);
   (3008, 3008); (3021, 3021); (3072, 3072); (3076, 3076); (3132, 3132);
   (3134, 3136); (3142, 3144); (3146, 3149); (3157, 3158); (3170, 3171);
   (3201, 3201); (3260, 3260); (3263, 3263); (3270, 3270); (3276, 3277);
   (3298, 3299); (3328, 3329); (3387, 3388); (3393, 3396); (3405, 3405);
   (3426, 3427); (3457, 3457); (3530, 3530); (3538, 3540); (3542, 3542);
   (3633, 3633); (3636, 3642); (3654, 3662); (3761, 3761); (3764, 3772);
   (3782, 3782); (3784, 3789); (3864, 3865); (3893, 3893); (3895, 3895);
   (3897, 3897); (3953, 3966); (3968, 3972); (3974, 3975); (3981, 3991);
   (3993, 4028); (4038, 4038); (4141, 4144); (4146, 4151); (4153, 4154);
   (4157, 4158); (4184, 4185); (4190, 4192); (4209, 4212); (4226, 4226);
   (4229, 4230); (4237, 4237); (4253, 4253); (4348, 4348); (4957, 4959);
   (5906, 5908); (5938, 5939); (5970, 5971); (6002, 6003); (6068, 6069);
   (6071, 6077); (6086, 6086); (6089, 6099); (6103, 6103); (6109, 6109);
   (6155, 6159); (6211, 6211); (6277, 6278); (6313, 6313); (6432, 6434);
   (6439, 6440); (6450, 6450); (6457, 6459); (6679, 6680); (6683, 6683);
   (6742, 6742); (6744, 6750); (6752, 6752); (6754, 6754); (6757, 6764);
   (6771, 6780); (6783, 6783); (6823, 6823); (6832, 6862); (6912, 6915);
   (6964, 6964); (6966, 6970); (6972, 6972); (6978, 6978); (7019, 7027);
   (7040, 7041); (7074, 7077); (7080, 7081); (7083, 7085); (7142, 7142);
   (7144, 7145); (7149, 7149); (7151, 7153); (7212, 7219); (7222, 7223);
   (7288, 7293); (7376, 7378); (7380, 7392); (7394, 7400); (7405, 7405);
   (7412, 7412); (7416, 7417); (7468, 7530); (7544, 7544); (7579, 7679);
   (8125, 8125); (8127, 8129); (8141, 8143); (8157, 8159); (8173, 8175);
   (8189, 8190); (8203, 8207); (8216, 8217); (8228, 8228); (8231, 8231);
   (8234, 8238); (8288, 8292); (8294, 8303); (8305, 8305); (8319, 8319);
   (8336, 8348); (8400, 8432); (11388, 11389); (11503, 11505);
   (11631, 11631); (11647, 11647); (11744, 11775); (11823, 11823);
   (12293, 12293); (12330, 12333); (12337, 12341); (12347, 12347);
   (12441, 12446); (12540, 12542); (40981, 40981); (42232, 42237);
   (42508, 42508); (42607, 42610); (42612, 42621); (42623, 42623);
   (42652, 42655); (42736, 42737); (42752, 42785); (42864, 42864);
   (42888, 42890); (42994, 42996); (43000, 43001); (43010, 43010);
   (43014, 43014); (43019, 43019); (43045, 43046); (43052, 43052);
   (43204, 43205); (43232, 43249); (43263, 43263); (43302, 43309);
   (43335, 43345); (43392, 43394); (43443, 43443); (43446, 43449);
   (43452, 43453); (43471, 43471); (43493, 43494); (43561, 43566);
   (43569, 43570); (43573, 43574); (43587, 43587); (43596, 43596);
   (43632, 43632); (43644, 43644); (43696, 43696); (43698, 43700);
   (43703, 43704); (43710, 43711); (43713, 43713); (43741, 43741);
   (43756, 43757); (43763, 43764); (43766, 43766); (43867, 43871);
   (43881, 43883); (44005, 44005); (44008, 44008); (44013, 44013);
   (64286, 64286); (64434, 64450); (65024, 65039); (65043, 65043);
   (65056, 65071); (65106, 65106); (65109, 65109); (65279, 65279);
   (65287, 65287); (65294, 65294); (65306, 65306); (65342, 65342);
   (65344, 65344); (65392, 65392); (65438, 65439); (65507, 65507);
   (65529, 65531); (66045, 66045); (66272, 66272); (66422, 66426);
   (67456, 67461); (67463, 67504); (67506, 67514); (68097, 68099);
   (68101, 68102); (68108, 68111); (68152, 68154); (68159, 68159);
   (68325, 68326); (68900, 68903); (69291, 69292); (69446, 69456);
   (69506, 69509); (69633, 69633); (69688, 69702); (69744, 69744);
   (69747, 69748); (69759, 69761); (69811, 69814); (69817, 69818);
   (69821, 69821); (69826, 69826); (69837, 69837); (69888, 69890);
   (69927, 69931); (69933, 69940); (70003, 70003); (70016, 70017);
   (70070, 70078); (70089, 70092); (70095, 70095); (70191, 70193);
   (70196, 70196); (70198, 70199); (70206, 70206); (70367, 70367);
   (70371, 70378); (70400, 70401); (70459, 70460); (70464, 70464);
   (70502, 70508); (70512, 70516); (70712, 70719); (70722, 70724);
   (70726, 70726); (70750, 70750); (70835, 70840); (70842, 70842);
   (70847, 70848); (70850, 70851); (71090, 71093); (71100, 71101);
   (71103, 71104); (71132, 71133); (71219, 71226); (71229, 71229);
   (71231, 71232); (71339, 71339); (71341, 71341); (71344, 71349);
   (71351, 71351); (71453, 71455); (71458, 71461); (71463, 71467);
   (71727, 71735); (71737, 71738); (71995, 71996); (71998, 71998);
   (72003, 72003); (72148, 72151); (72154, 72155); (72160, 72160);
   (72193, 72202); (72243, 72248); (72251, 72254); (72263, 72263);
   (72273, 72278); (72281, 72283); (72330, 72342); (72344, 72345);
   (72752, 72758); (72760, 72765); (72767, 72767); (72850, 72871);
   (72874, 72880); (72882, 72883); (72885, 72886); (73009, 73014);
   (73018, 73018); (73020, 73021); (73023, 73029); (73031, 73031);
   (73104, 73105); (73109, 73109); (73111, 73111); (73459, 73460);
   (78896, 78904); (92912, 92916); (92976, 92982); (92992, 92995);
   (94031, 94031); (94095, 94111); (94176, 94177); (94179, 94180);
   (110576, 110579); (110581, 110587); (110589, 110590); (113821, 113822);
   (113824, 113827); (118528, 118573); (118576, 118598); (119143, 119145);
   (119155, 119170); (119173, 119179); (119210, 119213); (119362, 119364);
   (121344, 121398); (121403, 121452); (121461, 121461); (121476, 121476);
   (121499, 121503); (121505, 121519); (122880, 122886); (122888, 122904);
   (122907, 122913); (122915, 122916); (122918, 122922); (123184, 123197);
   (123566, 123566); (123628, 123631); (125136, 125142); (125252, 125259);
   (127995, 127999); (917505, 917505); (917536, 917631); (917760, 917999)]%N.

Fixpoint lower_in (tbl : list (N * N * N * N)) (c : char) : option char :=
  match tbl with
  | [] => None
  | (lo, hi, stride, target) :: tbl' =>
      if ((lo <=? c) && (c <=? hi) && ((c - lo) mod stride =? 0))%N
      then Some (target + (c - lo))%N
      else lower_in tbl' c
  end.

(** [_PyUnicode_ToLowerFull]: one character, but for U+0130, which
    becomes [i] and a combining dot above. *)
Definition char_lower (c : char) : str :=
  if (c =? 304)%N then [105; 775]%N
  else match lower_in lower_ranges c with
       | Some l => [l]
       | None => [c]
       end.

Definition char_iscased (c : char) : bool := in_ranges cased_ranges c.

Definition char_iscaseignorable (c : char) : bool :=
  in_ranges case_ignorable_ranges c.

Fixpoint first_not_ignorable (s : str) : option char :=
  match s with
  | [] => None
  | c :: s' => if char_iscaseignorable c then first_not_ignorable s' else Some c
  end.

(** [handle_capital_sigma]: a capital sigma is final when a cased letter
    comes before it and none after it, characters that case ignores set
    aside.  [before] is the text before the sigma, the nearest character
    first. *)
Definition final_sigma (before after : str) : bool :=
  match first_not_ignorable before with
  | None => false
  | Some c =>
      char_iscased c
      && match first_not_ignorable after with
         | None => true
         | Some c' => negb (char_iscased c')
         end
  end.

(** [str.lower()] *)
Fixpoint do_lower (before : str) (s : str) : str :=
  match s with
  | [] => []
  | c :: s' =>
      (if (c =? 931)%N
       then [if final_sigma before s' then 962%N else 963%N]
       else char_lower c)
      ++ do_lower (c :: before) s'
  end.

Definition str_lower (s : str) : str := do_lower [] s.

(** [record.name.value] *)
Definition Record_name (self : ContactRecord) : str :=
  name_value (name self).

(** [Record.__str__] *)
Definition Record_str (pad_year : bool) (self : ContactRecord) : str :=
  let phones_str :=
    match phones self with
    | [] => lit "no phones"
    | ps => str_join (lit "; ") (phone_value <$> ps)
    end in
  let birthday_str :=
    match birthday self with
    | Some b =>
        lit ", birthday: "
        ++ strftime_dmY pad_year (datetime_date (birthday_value b))
    | None => []
    end in
  lit "Contact name: " ++ Record_name self ++ lit ", phones: "
  ++ phones_str ++ birthday_str.

(* ===================================================================== *)
(** ** The commands                                                       *)
(* ===================================================================== *)

Module Commands.

(** What a command function raises: the exceptions above, and the
    [AttributeError] of an attribute looked up on [None]. *)
Inductive cmd_exn :=
| Raised (e : exn)
| AttributeError (msg : str).

(** A command function runs on the book, may change it, and returns or
    raises; the book that comes back is the book after the call. *)
Definition command (A : Type) : Type :=
  AddressBook -> (cmd_exn + A) * AddressBook.

Definition lift {A} (r : exn + A) : cmd_exn + A :=
  match r with
  | inl e => inl (Raised e)
  | inr a => inr a
  end.

(** [input_error]: the decorated function returns a text whatever [func]
    does.  The last clause formats [str(e)]: for the exceptions of [open]
    and [pickle] that text is the library's and is not modelled (the
    result is [None] there). *)
Definition input_error (func : command str) (book : AddressBook)
  : option str * AddressBook :=
  let '(r, book') := func book in
  (match r with
   | inr text => Some text
   | inl (Raised (KeyError _)) => Some (lit "Contact not found.")
   | inl (Raised (ValueError msg)) => Some msg
   | inl (Raised (IndexError _)) =>
       Some (lit "Missing arguments. Please check the command format.")
   | inl (AttributeError _) =>
       Some (lit "Contact not found or has no required attribute.")
   | inl (Raised (OverflowError msg)) => Some (lit "Error: " ++ msg)
   | inl (Raised _) => None
   end, book').

(** The [ValueError] of an assignment [a, b, *_ = args] on a list that is
    too short. *)
Definition not_enough_values_text (expected got : nat) : str :=
  lit "not enough values to unpack (expected at least "
  ++ decimal (Z.of_nat expected) ++ lit ", got "
  ++ decimal (Z.of_nat got) ++ lit ")".

Definition not_enough_values (expected got : nat) : cmd_exn :=
  Raised (ValueError (not_enough_values_text expected got)).

(** [record.attr] where [record] is [None]. *)
Definition none_has_no (attr : string) : cmd_exn :=
  AttributeError
    (lit "'NoneType' object has no attribute '" ++ lit attr ++ lit "'").

(** A method called on [record], the object the book holds under [key]:
    the book sees the change, whether the call returned or raised. *)
Definition call_method {A} (key : str) (record : ContactRecord)
    (m : method A) : command A :=
  fun book =>
    let '(r, record') := m record in
    (lift r, mkAddressBook (dict_setitem key record' (data book))).

Section Clock.
(** [datetime.today().date()], and the platform's way to format [%Y]. *)
Variable today : date.
Variable pad_year : bool.

(** [add_contact]: the record is stored under [name], found or new. *)
Definition add_contact (args : list str)
  : AddressBook -> option str * AddressBook :=
  input_error (fun book =>
    match args with
    | name :: phone :: _ =>
        match
          match find name book with
          | None =>
              record <-! Record_init name;
              inr (record, add_record record book, lit "Contact added.")
          | Some record => inr (record, book, lit "Contact updated.")
          end
        with
        | inl e => (inl (Raised e), book)
        | inr (record, book, message) =>
            if str_truthy phone then
              let '(r, book) :=
                call_method name record (add_phone phone) book in
              (match r with
               | inl e => inl e
               | inr _ => inr message
               end, book)
            else (inr message, book)
        end
    | _ => (inl (not_enough_values 2 (length args)), book)
    end).

(** [change_contact] *)
Definition change_contact (args : list str)
  : AddressBook -> option str * AddressBook :=
  input_error (fun book =>
    match args with
    | name :: old_phone :: new_phone :: _ =>
        match find name book with
        | None => (inl (none_has_no "edit_phone"), book)
        | Some record =>
            let '(r, book) :=
              call_method name record (edit_phone old_phone new_phone) book in
            (match r with
             | inl e => inl e
             | inr _ => inr (lit "Contact updated.")
             end, book)
        end
    | _ => (inl (not_enough_values 3 (length args)), book)
    end).

(** [show_phone] *)
Definition show_phone (args : list str)
  : AddressBook -> option str * AddressBook :=
  input_error (fun book =>
    match args with
    | name :: _ =>
        match find name book with
        | None => (inl (none_has_no "phones"), book)
        | Some record =>
            match phones record with
            | [] => (inr (lit "No phones for this contact."), book)
            | ps =>
                let phones_str := str_join (lit "; ") (phone_value <$> ps) in
                (inr (lit "Phone numbers for " ++ Record_name record
                      ++ lit ": " ++ phones_str), book)
            end
        end
    | _ => (inl (not_enough_values 1 (length args)), book)
    end).

(** The loop of [show_all]; [book.data[name]] raises [KeyError] on a
    name that is no key. *)
Fixpoint show_all_loop (names : list str) (book : AddressBook)
    (result : list str) : exn + list str :=
  match names with
  | [] => inr result
  | name :: names' =>
      match dict_get name (data book) with
      | Some record =>
          show_all_loop names' book (result ++ [Record_str pad_year record])
      | None => raise (KeyError name)
      end
  end.

(** [show_all] *)
Definition show_all : AddressBook -> option str * AddressBook :=
  input_error (fun book =>
    match data book with
    | [] => (inr (lit "No contacts in address book."), book)
    | _ =>
        (lift (result <-! show_all_loop (sorted (dict_keys (data book)))
                            book [];
               inr (str_join [10%N] result)), book)
    end).

(** [add_birthday], the command. *)
Definition add_birthday (args : list str)
  : AddressBook -> option str * AddressBook :=
  input_error (fun book =>
    match args with
    | name :: birthday :: _ =>
        match find name book with
        | None => (inl (none_has_no "add_birthday"), book)
        | Some record =>
            let '(r, book) :=
              call_method name record (add_birthday birthday) book in
            (match r with
             | inl e => inl e
             | inr _ => inr (lit "Birthday added.")
             end, book)
        end
    | _ => (inl (not_enough_values 2 (length args)), book)
    end).

(** [show_birthday] *)
Definition show_birthday (args : list str)
  : AddressBook -> option str * AddressBook :=
  input_error (fun book =>
    match args with
    | name :: _ =>
        match find name book with
        | None => (inl (none_has_no "birthday"), book)
        | Some record =>
            match birthday record with
            | Some b =>
                (inr (strftime_dmY pad_year
                        (datetime_date (birthday_value b))), book)
            | None => (inr (lit "No birthday set for this contact."), book)
            end
        end
    | _ => (inl (not_enough_values 1 (length args)), book)
    end).

(** One line of [birthdays]. *)
Definition entry_line (entry : upcoming) : str :=
  u_name entry ++ lit ": " ++ u_birthday entry ++ lit " (congratulate on "
  ++ u_congratulation_date entry ++ lit ")".

(** [birthdays]; it does not look at [args]. *)
Definition birthdays (args : list str)
  : AddressBook -> option str * AddressBook :=
  input_error (fun book =>
    match get_upcoming_birthdays today pad_year 7 book with
    | inl e => (inl (Raised e), book)
    | inr [] => (inr (lit "No upcoming birthdays."), book)
    | inr upcoming =>
        (inr (str_join [10%N]
                (lit "Upcoming birthdays:" :: (entry_line <$> upcoming))),
         book)
    end).
End Clock.

(** [parse_input] *)
Definition parse_input (user_input : str) : exn + (str * list str) :=
  if negb (str_truthy user_input) || negb (str_truthy (strip user_input))
  then inr ([], [])
  else
    match str_split user_input with
    | cmd :: args => inr (str_lower (strip cmd), args)
    | [] => raise (ValueError (not_enough_values_text 1 0))
    end.

(** The lines [help] prints. *)
Definition help_lines : list str :=
  [[10%N] ++ lit "Available commands:";
   lit "  hello - Get a greeting";
   lit "  add [name] [phone] - Add new contact or add phone to existing contact";
   lit "  change [name] [old_phone] [new_phone] - Change phone number";
   lit "  phone [name] - Show phone numbers for a contact";
   lit "  all - Show all contacts";
   lit "  add-birthday [name] [DD.MM.YYYY] - Add birthday to contact";
   lit "  show-birthday [name] - Show birthday for a contact";
   lit "  birthdays - Show upcoming birthdays in the next week";
   lit "  close or exit - Exit the program"].

(** The branches of the loop of [main] that go on: what is printed, and
    the book after. *)
Definition dispatch (today : date) (pad_year : bool) (command : str)
    (args : list str) (book : AddressBook)
  : option (list str * AddressBook) :=
  let print (r : option str * AddressBook) :=
    text ← r.1; Some ([text], r.2) in
  if bool_decide (command = lit "hello")
  then Some ([lit "How can I help you?"], book)
  else if bool_decide (command = lit "add")
  then print (add_contact args book)
  else if bool_decide (command = lit "change")
  then print (change_contact args book)
  else if bool_decide (command = lit "phone")
  then print (show_phone args book)
  else if bool_decide (command = lit "all")
  then print (show_all pad_year book)
  else if bool_decide (command = lit "add-birthday")
  then print (add_birthday args book)
  else if bool_decide (command = lit "show-birthday")
  then print (show_birthday pad_year args book)
  else if bool_decide (command = lit "birthdays")
  then print (birthdays today pad_year args book)
  else if bool_decide (command = lit "help")
  then Some (help_lines, book)
  else Some ([lit "Invalid command."], book).

(** How a run ends: [main] returns after [close] or [exit], or an
    exception nobody catches ends the program. *)
Inductive ending :=
| Returned
| Uncaught (e : exn).

(** A run of [main]: the texts printed, one for each call of [print], the
    files after the run, and the way it ended. *)
Record run := mkRun {
  printed : list str;
  files_after : gmap (list N) (list opcode);
  ended : ending
}.

(** The loop of [main] on the lines [input] returns, each with the date
    of the moment; at the end of the input [input] raises [EOFError].
    (The prompt is written by [input], and is left out.) *)
Fixpoint main_loop (pad_year : bool) (inputs : list (date * str))
    (book : AddressBook) (fs : gmap (list N) (list opcode)) : option run :=
  match inputs with
  | [] => Some (mkRun [] fs (Uncaught EOFError))
  | (today, user_input) :: inputs' =>
      match parse_input user_input with
      | inl e => Some (mkRun [] fs (Uncaught e))
      | inr (command, args) =>
          if bool_decide (command ∈ [lit "close"; lit "exit"])
          then Some (mkRun [lit "Good bye!"]
                       (save_data book default_filename fs) Returned)
          else
            step ← dispatch today pad_year command args book;
            r ← main_loop pad_year inputs' step.2 fs;
            Some (mkRun (step.1 ++ printed r) (files_after r) (ended r))
      end
  end.

(** [main]; the object loaded is taken to be an address book ([None]
    when the file holds another object). *)
Definition main (pad_year : bool) (inputs : list (date * str))
    (fs : gmap (list N) (list opcode)) : option run :=
  match load_data default_filename fs with
  | inl e => Some (mkRun [] fs (Uncaught e))
  | inr obj =>
      book ← AddressBook_of_obj obj;
      r ← main_loop pad_year inputs book fs;
      Some (mkRun (lit "Welcome to the assistant bot!" :: printed r)
              (files_after r) (ended r))
  end.

End Commands.

(* ===================================================================== *)
(** ** Well-formed objects and reachable states                           *)
(* ===================================================================== *)

(** What Python guarantees of the objects themselves: a [dict] has no key
    twice, and a [datetime] has its fields in range. *)
Definition birthday_valid (r : ContactRecord) : Prop :=
  forall b, birthday r = Some b -> valid_datetime (birthday_value b).

Definition book_wf (book : AddressBook) : Prop :=
  NoDup (dict_keys (data book)) /\ Forall birthday_valid (dict_values (data book)).

(** The objects [save] and [load_ops] agree on. *)
Definition valid_datetimeb (dt : datetime) : bool :=
  valid_dateb (year (dt_date dt)) (month (dt_date dt)) (day (dt_date dt))
  && (0 <=? hour dt) && (hour dt <? 24)
  && (0 <=? minute dt) && (minute dt <? 60)
  && (0 <=? second dt) && (second dt <? 60)
  && (0 <=? microsecond dt) && (microsecond dt <? 1000000)
  && (0 <=? fold dt) && (fold dt <=? 1).

Fixpoint picklable (obj : pyval) : bool :=
  match obj with
  | PyNone | PyStr _ | PyBytes _ => true
  | PyTuple items | PyList items => forallb picklable items
  | PyDict items =>
      bool_decide (NoDup (dict_keys items))
      && forallb (fun kv => picklable (snd kv)) items
  | PyClass module name =>
      is_program_class module name
      || (bool_decide (module = lit "datetime")
          && bool_decide (name = lit "datetime"))
  | PyInstance module name attrs =>
      is_program_class module name
      && bool_decide (NoDup (dict_keys attrs))
      && forallb (fun kv => picklable (snd kv)) attrs
  | PyDatetime dt => valid_datetimeb dt
  end.

(** The records the program builds: created by [Record(name)], then
    changed by the methods. *)
Inductive built : ContactRecord -> Prop :=
| built_init name record :
    Record_init name = inr record -> built record
| built_op op record r record' :
    built record -> run_op op record = (r, record') -> built record'.

(** The states of a run, and of the runs after it on the same files: the
    files and the book in hand.  A run starts from [load_data]; the first
    finds no file. *)
Inductive reachable : gmap (list N) (list opcode) -> AddressBook -> Prop :=
| reach_start :
    reachable ∅ AddressBook_init
| reach_add_record fs book record :
    reachable fs book -> built record ->
    reachable fs (add_record record book)
| reach_delete fs book name book' :
    reachable fs book -> delete name book = inr book' ->
    reachable fs book'
| reach_call fs book name op r book' :
    reachable fs book -> call_on name op book = Some (r, book') ->
    reachable fs book'
| reach_save fs book filename :
    reachable fs book ->
    reachable (save_data book filename fs) book
| reach_load fs book filename obj book' :
    reachable fs book ->
    load_data filename fs = inr obj ->
    AddressBook_of_obj obj = Some book' ->
    reachable fs book'.

Definition names_match_keys (book : AddressBook) : Prop :=
  forall key record,
    (key, record) ∈ data book -> name_value (name record) = key.

(* ===================================================================== *)
(** ** The specification, in its own words                                *)
(* ===================================================================== *)

(** The birth month and day placed in year [y], 29 February becoming the
    28th when [y] is not a leap year. *)
Definition spec_in_year (birth : date) (y : Z) : date :=
  if (month birth =? 2) && (day birth =? 29) && negb (is_leap y)
  then mkdate y 2 28
  else mkdate y (month birth) (day birth).

(** The candidate date: in the current year, or in the next one when that
    is strictly before today. *)
Definition spec_candidate (today birth : date) : date :=
  let candidate := spec_in_year birth (year today) in
  if toordinal candidate <? toordinal today
  then spec_in_year birth (year today + 1)
  else candidate.

(** A record is reported when it has a birthday whose candidate date is
    between 0 and [days] days from today. *)
Definition spec_included (today : date) (days : Z) (r : ContactRecord) : bool :=
  match birthday r with
  | None => false
  | Some b =>
      let days_until :=
        toordinal (spec_candidate today (datetime_date (birthday_value b)))
        - toordinal today in
      (0 <=? days_until) && (days_until <=? days)
  end.

(** The days added to a candidate date: 2 on Saturday, 1 on Sunday. *)
Definition spec_shift (candidate : date) : Z :=
  if weekday candidate =? 5 then 2
  else if weekday candidate =? 6 then 1
  else 0.

(** The text [DD.MM.YYYY] of ten characters, two ASCII digits, a full
    stop, two digits, a full stop and four digits, read as a date of the
    calendar: [None] when the text has not that shape or names no date. *)
Definition ascii_digit_value (c : char) : option Z :=
  if is_ascii_digit c then Some (Z.of_N c - 48) else None.

Definition spec_DDMMYYYY (s : str) : option date :=
  match s with
  | [d1; d2; p1; m1; m2; p2; y1; y2; y3; y4] =>
      if (p1 =? 46)%N && (p2 =? 46)%N then
        d1 ← ascii_digit_value d1; d2 ← ascii_digit_value d2;
        m1 ← ascii_digit_value m1; m2 ← ascii_digit_value m2;
        y1 ← ascii_digit_value y1; y2 ← ascii_digit_value y2;
        y3 ← ascii_digit_value y3; y4 ← ascii_digit_value y4;
        let y := 1000 * y1 + 100 * y2 + 10 * y3 + y4 in
        let m := 10 * m1 + m2 in
        let d := 10 * d1 + d2 in
        if valid_dateb y m d then Some (mkdate y m d) else None
      else None
  | _ => None
  end.

(** The texts [strptime] takes for a day, a month and a year. *)
Definition day_text (s : str) : bool :=
  match s with
  | [c] => (49 <=? c)%N && (c <=? 57)%N
  | [c1; c2] =>
      ((c1 =? 51)%N && (48 <=? c2)%N && (c2 <=? 49)%N)
      || ((49 <=? c1)%N && (c1 <=? 50)%N && char_isdecimal c2)
      || ((c1 =? 48)%N && (49 <=? c2)%N && (c2 <=? 57)%N)
      || ((c1 =? 32)%N && (49 <=? c2)%N && (c2 <=? 57)%N)
  | _ => false
  end.

Definition month_text (s : str) : bool :=
  match s with
  | [c] => (49 <=? c)%N && (c <=? 57)%N
  | [c1; c2] =>
      ((c1 =? 49)%N && (48 <=? c2)%N && (c2 <=? 50)%N)
      || ((c1 =? 48)%N && (49 <=? c2)%N && (c2 <=? 57)%N)
  | _ => false
  end.

Definition year_text (s : str) : bool :=
  (length s =? 4)%nat && forallb char_isdecimal s.

(** The date of congratulation, and the item reported for a record. *)
Definition spec_congratulation (candidate : date) : date :=
  fromordinal (toordinal candidate + spec_shift candidate).

Definition spec_report (pad_year : bool) (today : date) (days : Z)
    (r : ContactRecord) : option upcoming :=
  if spec_included today days r then
    b ← birthday r;
    let candidate :=
      spec_candidate today (datetime_date (birthday_value b)) in
    Some (mkUpcoming (name_value (name r))
            (strftime_dmY pad_year candidate)
            (strftime_dmY pad_year (spec_congratulation candidate)))
  else None.

(* ===================================================================== *)
(** ** Definitions used by the proofs                                     *)
(* ===================================================================== *)

(** Bounded checks by computation. *)
Fixpoint forall_below (n : nat) (p : Z -> bool) : bool :=
  match n with
  | O => true
  | S n' => p (Z.of_nat n') && forall_below n' p
  end.

Definition ord2md_ok (leap : bool) (n : Z) : bool :=
  let '(m, d) := ord2md leap n in
  (1 <=? m) && (m <=? 12) && (1 <=? d)
  && (d <=? DAYS_IN_MONTH m + (if (m =? 2) && leap then 1 else 0))
  && (DAYS_BEFORE_MONTH m + (if (2 <? m) && leap then 1 else 0) + d =? n + 1).

Definition pad2_ok (n : Z) : bool :=
  bool_decide (zero_pad 2 n = [digit_char (n / 10); digit_char (n mod 10)]).

Definition ascii_table_ok (k : Z) : bool :=
  Bool.eqb (char_isdigit (Z.to_N k)) (is_ascii_digit (Z.to_N k))
  && Bool.eqb (char_isdecimal (Z.to_N k)) (is_ascii_digit (Z.to_N k)).

(** Running [c] pushes the values [vs], the first deepest. *)
Definition pushes_all (c : list opcode) (vs : list pyval) : Prop :=
  forall rest st ms,
    load_ops (c ++ rest) (mkUnpickler st ms)
    = load_ops rest (mkUnpickler (rev vs ++ st) ms).

Definition pushes (c : list opcode) (v : pyval) : Prop := pushes_all c [v].

(** The items of a [dict], saved: each pushes its key and its value. *)
Definition pushes_item (c : list opcode) (kv : list N * pyval) : Prop :=
  pushes_all c [PyStr (fst kv); snd kv].

Definition flat_items (items : list (list N * pyval)) : list pyval :=
  concat ((fun kv => [PyStr (fst kv); snd kv]) <$> items).

Ltac machine_step :=
  cbn [load_ops load_op bind_exn]; unfold with_stack;
  cbn [stack metastack bind_exn app].

Definition files_inv (fs : gmap (list N) (list opcode)) : Prop :=
  forall filename f,
    fs !! filename = Some f ->
    exists book,
      f = pickle_dump (obj_of_AddressBook book)
      /\ names_match_keys book /\ book_wf book.

(** The words a regular expression matches. *)
Fixpoint lang (r : regex) (w : list N) : Prop :=
  match r with
  | Class p => exists c, w = [c] /\ p c = true
  | Cat r1 r2 => exists w1 w2, w = w1 ++ w2 /\ lang r1 w1 /\ lang r2 w2
  | Or r1 r2 => lang r1 w \/ lang r2 w
  end.

(** What is reported for a record that is in the window. *)
Definition reported (today : date) (pad_year : bool)
    (r : ContactRecord) (e : upcoming) : Prop :=
  exists b candidate congratulation_date,
    birthday r = Some b
    /\ next_birthday today (datetime_date (birthday_value b)) = inr candidate
    /\ congratulation candidate = inr congratulation_date
    /\ valid_date congratulation_date
    /\ toordinal congratulation_date
       = toordinal candidate
         + (if weekday candidate =? 5 then 2
            else if weekday candidate =? 6 then 1 else 0)
    /\ e = mkUpcoming (name_value (name r))
             (strftime_dmY pad_year candidate)
             (strftime_dmY pad_year congratulation_date)
    /\ spec_DDMMYYYY (strftime_dmY pad_year candidate) = Some candidate
    /\ spec_DDMMYYYY (strftime_dmY pad_year congratulation_date)
       = Some congratulation_date.

(** A word: not empty, and without white space. *)
Definition no_space (w : str) : Prop :=
  w <> [] /\ Forall (fun c => char_isspace c = false) w.

(** Lower case of the ASCII letters. *)
Definition ascii_lower (c : char) : char :=
  if ((65 <=? c) && (c <=? 90))%N then (c + 32)%N else c.

Definition ascii_lower_ok (k : Z) : bool :=
  bool_decide (char_lower (Z.to_N k) = [ascii_lower (Z.to_N k)])
  && negb (Z.to_N k =? 931)%N.

(** The exceptions whose text [input_error] has. *)
Definition has_text (e : exn) : Prop :=
  match e with
  | EOFError | FileNotFoundError _ | UnpicklingError _ => False
  | _ => True
  end.

(** The lines that end the loop. *)
Definition exits (user_input : str) : bool :=
  match Commands.parse_input user_input with
  | inr (command, _) => bool_decide (command ∈ [lit "close"; lit "exit"])
  | inl _ => false
  end.

(** A book used to run the theorems on: three contacts, two of them with
    a birthday, one born on 29 February. *)
Definition sample_birthday (y m d : Z) : option Birthday :=
  Some (mkBirthday (mkdatetime (mkdate y m d) 0 0 0 0 0)).

Definition sample_book : AddressBook :=
  mkAddressBook
    [(lit "Ann", mkRecord (mkName (lit "Ann")) [mkPhone (lit "0501234567")]
                   (sample_birthday 1990 6 15));
     (lit "Bob", mkRecord (mkName (lit "Bob")) [] (sample_birthday 2000 2 29));
     (lit "Eve", mkRecord (mkName (lit "Eve"))
                   [mkPhone (lit "1111111111"); mkPhone (lit "2222222222")]
                   None)].

(* ===================================================================== *)
(** * Properties                                                          *)
(* ===================================================================== *)


Lemma forall_below_spec n p :
  forall_below n p = true -> forall k, 0 <= k < Z.of_nat n -> p k = true.
Proof.
  induction n as [|n IH]; simpl; intros H k Hk; [lia|].
  apply andb_prop in H as [H1 H2].
  destruct (Z.eq_dec k (Z.of_nat n)) as [->|]; [done|].
  apply IH; [done|lia].
Qed.

Lemma forall_below_Z n p :
  forall_below (Z.to_nat n) p = true -> forall k, 0 <= k < n -> p k = true.
Proof. intros H k Hk. apply (forall_below_spec _ _ H). lia. Qed.

Lemma is_leap_spec y :
  is_leap y = true <-> y mod 4 = 0 /\ (y mod 100 <> 0 \/ y mod 400 = 0).
Proof. unfold is_leap. 
  rewrite andb_true_iff, orb_true_iff, negb_true_iff, !Z.eqb_eq, Z.eqb_neq. done. Qed.

Lemma days_before_year_succ y :
  days_before_year (y + 1) = days_before_year y + (if is_leap y then 366 else 365).
Proof.
  unfold days_before_year.
  destruct (is_leap y) eqn:E.
  - apply is_leap_spec in E. Z.div_mod_to_equations. lia.
  - assert (~ (y mod 4 = 0 /\ (y mod 100 <> 0 \/ y mod 400 = 0))) as E'
      by (rewrite <- is_leap_spec; congruence).
    Z.div_mod_to_equations. lia.
Qed.

Lemma days_before_year_mono y1 y2 :
  y1 <= y2 -> days_before_year y1 <= days_before_year y2.
Proof.
  intros H. unfold days_before_year. Z.div_mod_to_equations. lia.
Qed.

Lemma days_before_year_lt y1 y2 :
  y1 < y2 ->
  days_before_year y1 + (if is_leap y1 then 366 else 365) <= days_before_year y2.
Proof.
  intros H. rewrite <- days_before_year_succ.
  apply days_before_year_mono. lia.
Qed.

(** Position of a valid month and day within the year. *)
Lemma day_of_year_bounds y m d :
  valid_dateb y m d = true ->
  1 <= days_before_month y m + d <= (if is_leap y then 366 else 365).
Proof.
  unfold valid_dateb, days_before_month, days_in_month.
  rewrite !andb_true_iff, !Z.leb_le. intros [[[[[_ _] H1] H2] H3] H4].
  assert (m = 1 \/ m = 2 \/ m = 3 \/ m = 4 \/ m = 5 \/ m = 6 \/ m = 7 \/
          m = 8 \/ m = 9 \/ m = 10 \/ m = 11 \/ m = 12) as Hm by lia.
  destruct (is_leap y);
    repeat (destruct Hm as [->|Hm]; [simpl in *; lia|]); subst; simpl in *; lia.
Qed.

Lemma day_of_year_lt y m1 d1 m2 d2 :
  valid_dateb y m1 d1 = true -> valid_dateb y m2 d2 = true ->
  (days_before_month y m1 + d1 < days_before_month y m2 + d2
   <-> m1 < m2 \/ (m1 = m2 /\ d1 < d2)).
Proof.
  unfold valid_dateb, days_before_month, days_in_month.
  rewrite !andb_true_iff, !Z.leb_le.
  intros [[[[[_ _] H1] H2] H3] H4] [[[[[_ _] H1'] H2'] H3'] H4'].
  assert (m1 = 1 \/ m1 = 2 \/ m1 = 3 \/ m1 = 4 \/ m1 = 5 \/ m1 = 6 \/ m1 = 7 \/
          m1 = 8 \/ m1 = 9 \/ m1 = 10 \/ m1 = 11 \/ m1 = 12) as Hm1 by lia.
  assert (m2 = 1 \/ m2 = 2 \/ m2 = 3 \/ m2 = 4 \/ m2 = 5 \/ m2 = 6 \/ m2 = 7 \/
          m2 = 8 \/ m2 = 9 \/ m2 = 10 \/ m2 = 11 \/ m2 = 12) as Hm2 by lia.
  destruct (is_leap y);
    repeat (destruct Hm1 as [->|Hm1]); subst;
    repeat (destruct Hm2 as [->|Hm2]); subst; simpl in *; lia.
Qed.

Lemma toordinal_bounds d :
  valid_date d -> 1 <= toordinal d <= MAXORDINAL.
Proof.
  intros H. pose proof (day_of_year_bounds _ _ _ H) as Hb.
  unfold valid_date, valid_dateb in H.
  rewrite !andb_true_iff, !Z.leb_le in H. destruct H as [[[[[Hy1 Hy2] _] _] _] _].
  unfold toordinal, ymd2ord.
  pose proof (days_before_year_mono 1 (year d) Hy1) as H1.
  pose proof (days_before_year_lt (year d) 10000) as H2.
  unfold MAXYEAR, MINYEAR in *.
  change (days_before_year 1) with 0 in H1.
  change (days_before_year 10000) with 3652059 in H2.
  unfold MAXORDINAL. destruct (is_leap (year d)); lia.
Qed.

Lemma date_ltb_toordinal d1 d2 :
  valid_date d1 -> valid_date d2 ->
  date_ltb d1 d2 = (toordinal d1 <? toordinal d2).
Proof.
  intros H1 H2.
  pose proof (day_of_year_bounds _ _ _ H1) as Hb1.
  pose proof (day_of_year_bounds _ _ _ H2) as Hb2.
  unfold toordinal, ymd2ord, date_ltb.
  destruct (Z.lt_trichotomy (year d1) (year d2)) as [Hlt|[Heq|Hgt]].
  - pose proof (days_before_year_lt _ _ Hlt).
    rewrite (proj2 (Z.ltb_lt _ _) Hlt). simpl. symmetry. apply Z.ltb_lt. lia.
  - pose proof (day_of_year_lt (year d1) (month d1) (day d1) (month d2) (day d2) H1) as Hl.
    unfold valid_date in H2. rewrite <- Heq in H2. specialize (Hl H2).
    rewrite <- Heq, Z.ltb_irrefl, Z.eqb_refl. simpl.
    apply eq_true_iff_eq.
    rewrite orb_true_iff, andb_true_iff, !Z.ltb_lt, Z.eqb_eq. lia.
  - pose proof (days_before_year_lt _ _ Hgt).
    rewrite (proj2 (Z.ltb_ge _ _)) by lia.
    rewrite (proj2 (Z.eqb_neq _ _)) by lia. simpl.
    symmetry. apply Z.ltb_ge. lia.
Qed.

Lemma toordinal_inj d1 d2 :
  valid_date d1 -> valid_date d2 -> toordinal d1 = toordinal d2 -> d1 = d2.
Proof.
  intros H1 H2 Heq.
  pose proof (date_ltb_toordinal d1 d2 H1 H2) as Ha.
  pose proof (date_ltb_toordinal d2 d1 H2 H1) as Hb.
  rewrite Heq, Z.ltb_irrefl in Ha. rewrite Heq, Z.ltb_irrefl in Hb.
  unfold date_ltb in *.
  destruct d1 as [y1 m1 d1], d2 as [y2 m2 d2]; simpl in *.
  apply orb_false_iff in Ha as [Ha1 Ha2]. apply orb_false_iff in Hb as [Hb1 Hb2].
  apply Z.ltb_ge in Ha1, Hb1. assert (y1 = y2) as -> by lia.
  rewrite Z.eqb_refl in Ha2, Hb2. simpl in *.
  apply orb_false_iff in Ha2 as [Ha2 Ha3]. apply orb_false_iff in Hb2 as [Hb2 Hb3].
  apply Z.ltb_ge in Ha2, Hb2. assert (m1 = m2) as -> by lia.
  rewrite Z.eqb_refl in Ha3, Hb3. simpl in *.
  apply Z.ltb_ge in Ha3, Hb3. f_equal. lia.
Qed.

Lemma ord2md_spec (leap : bool) (n : Z) :
  0 <= n < (if leap then 366 else 365) ->
  ord2md_ok leap n = true.
Proof.
  intros Hn. destruct leap.
  - apply (forall_below_spec 366%nat (ord2md_ok true)); [by vm_compute|lia].
  - apply (forall_below_spec 365%nat (ord2md_ok false)); [by vm_compute|lia].
Qed.

Lemma ord2ymd_spec n :
  1 <= n <= MAXORDINAL ->
  valid_date (ord2ymd n) /\ toordinal (ord2ymd n) = n.
Proof.
  unfold MAXORDINAL. intros Hn.
  unfold ord2ymd. cbv zeta.
  set (n0 := n - 1).
  set (n400 := n0 / DI400Y). set (r400 := n0 mod DI400Y).
  set (n100 := r400 / DI100Y). set (r100 := r400 mod DI100Y).
  set (n4 := r100 / DI4Y). set (r4 := r100 mod DI4Y).
  set (n1 := r4 / 365). set (r1 := r4 mod 365).
  assert (n0 = DI400Y * n400 + r400 /\ 0 <= r400 < DI400Y) as [E400 B400]
    by (subst n400 r400; unfold DI400Y; split; [apply Z.div_mod|apply Z.mod_pos_bound]; lia).
  assert (r400 = DI100Y * n100 + r100 /\ 0 <= r100 < DI100Y) as [E100 B100]
    by (subst n100 r100; unfold DI100Y; split; [apply Z.div_mod|apply Z.mod_pos_bound]; lia).
  assert (r100 = DI4Y * n4 + r4 /\ 0 <= r4 < DI4Y) as [E4 B4]
    by (subst n4 r4; unfold DI4Y; split; [apply Z.div_mod|apply Z.mod_pos_bound]; lia).
  assert (r4 = 365 * n1 + r1 /\ 0 <= r1 < 365) as [E1 B1]
    by (subst n1 r1; split; [apply Z.div_mod|apply Z.mod_pos_bound]; lia).
  clearbody n400 r400 n100 r100 n4 r4 n1 r1.
  unfold DI400Y, DI100Y, DI4Y in *.
  assert (0 <= n400 <= 24) by lia.
  assert (0 <= n100 <= 4) by lia.
  assert (0 <= n4 <= 24) by lia.
  assert (0 <= n1 <= 4) by lia.
  destruct ((n1 =? 4) || (n100 =? 4)) eqn:Eend.
  - (* the last day of a leap year *)
    apply orb_true_iff in Eend. rewrite !Z.eqb_eq in Eend.
    set (y := n400 * 400 + 1 + n100 * 100 + n4 * 4 + n1 - 1).
    assert (is_leap y = true) as Hleap.
    { apply is_leap_spec. subst y. destruct Eend as [-> | ->].
      - assert (n4 <= 23) by lia. Z.div_mod_to_equations. lia.
      - assert (n4 = 0 /\ n1 = 0) as [-> ->] by lia. Z.div_mod_to_equations. lia. }
    unfold valid_date, toordinal, ymd2ord, valid_dateb, days_in_month,
      days_before_month, MINYEAR, MAXYEAR. simpl.
    rewrite Hleap. simpl.
    split.
    + rewrite !andb_true_iff, !Z.leb_le. subst y. lia.
    + unfold days_before_year. subst y n0. destruct Eend as [-> | ->].
      * Z.div_mod_to_equations. lia.
      * assert (n4 = 0 /\ n1 = 0) as [-> ->] by lia. Z.div_mod_to_equations. lia.
  - apply orb_false_iff in Eend. rewrite !Z.eqb_neq in Eend.
    set (y := n400 * 400 + 1 + n100 * 100 + n4 * 4 + n1).
    set (leapyear := (n1 =? 3) && (negb (n4 =? 24) || (n100 =? 3))).
    assert (is_leap y = leapyear) as Hleap.
    { apply eq_true_iff_eq. rewrite is_leap_spec. subst leapyear y.
      rewrite andb_true_iff, orb_true_iff, negb_true_iff, !Z.eqb_eq, Z.eqb_neq.
      Z.div_mod_to_equations. lia. }
    assert (r1 < (if leapyear then 366 else 365)) as Hr1.
    { destruct leapyear eqn:El; [lia|].
      subst leapyear. lia. }
    assert (days_before_year y = n0 - r1) as Hdby.
    { unfold days_before_year. subst y n0. Z.div_mod_to_equations. lia. }
    pose proof (ord2md_spec leapyear r1 ltac:(lia)) as Hmd.
    unfold ord2md_ok in Hmd. destruct (ord2md leapyear r1) as [m d].
    rewrite !andb_true_iff, !Z.leb_le, Z.eqb_eq in Hmd.
    destruct Hmd as [[[[Hm1 Hm2] Hd1] Hd2] Hsum].
    unfold valid_date, toordinal, ymd2ord, valid_dateb, days_in_month,
      days_before_month, MINYEAR, MAXYEAR. simpl.
    rewrite Hleap, Hdby. split.
    + rewrite !andb_true_iff, !Z.leb_le. repeat split; try lia.
      revert Hd2. destruct (m =? 2) eqn:Em2, leapyear; simpl; try lia.
      apply Z.eqb_eq in Em2. subst m. simpl. lia.
    + subst n0. lia.
Qed.

(* ------------------------------------------------------------------ *)
(** Dates built by the constructor *)

Lemma make_date_inr y m d dd :
  make_date y m d = inr dd <-> valid_dateb y m d = true /\ dd = mkdate y m d.
Proof.
  unfold make_date, valid_dateb, raise.
  destruct (MINYEAR <=? y), (y <=? MAXYEAR), (1 <=? m), (m <=? 12),
    (1 <=? d), (d <=? days_in_month y m); simpl;
    (split; [intros [= <-]; done | intros [[=] ->]; done]).
Qed.

Lemma make_date_valid y m d :
  valid_dateb y m d = true -> make_date y m d = inr (mkdate y m d).
Proof. intros H. by apply make_date_inr. Qed.

Lemma make_date_inl y m d e :
  make_date y m d = inl e -> exists msg, e = ValueError msg.
Proof.
  unfold make_date, raise.
  repeat match goal with
         | |- context [if ?b then _ else _] => destruct b
         end; intros [= <-]; eauto.
Qed.

Lemma make_date_invalid y m d :
  valid_dateb y m d = false -> exists msg, make_date y m d = inl (ValueError msg).
Proof.
  intros H. destruct (make_date y m d) as [e|dd] eqn:E.
  - apply make_date_inl in E as [msg ->]. eauto.
  - apply make_date_inr in E as [E _]. congruence.
Qed.

Lemma valid_dateb_year y m d :
  valid_dateb y m d = true -> 1 <= y <= 9999 /\ 1 <= m <= 12 /\ 1 <= d <= days_in_month y m.
Proof.
  unfold valid_dateb, MINYEAR, MAXYEAR. rewrite !andb_true_iff, !Z.leb_le. lia.
Qed.

Lemma valid_dateb_intro y m d :
  1 <= y <= 9999 -> 1 <= m <= 12 -> 1 <= d <= days_in_month y m ->
  valid_dateb y m d = true.
Proof.
  unfold valid_dateb, MINYEAR, MAXYEAR. rewrite !andb_true_iff, !Z.leb_le. lia.
Qed.

Lemma days_in_month_cases y m :
  1 <= m <= 12 ->
  (m = 2 /\ days_in_month y m = (if is_leap y then 29 else 28))
  \/ (m <> 2 /\ days_in_month y m = DAYS_IN_MONTH m /\ 30 <= DAYS_IN_MONTH m).
Proof.
  intros Hm. unfold days_in_month.
  assert (m = 1 \/ m = 2 \/ m = 3 \/ m = 4 \/ m = 5 \/ m = 6 \/ m = 7 \/
          m = 8 \/ m = 9 \/ m = 10 \/ m = 11 \/ m = 12) as H by lia.
  repeat (destruct H as [->|H]); subst; simpl; destruct (is_leap y); simpl; lia.
Qed.

(** The [try] / [except] of the program is the rule of the specification. *)
Lemma birthday_in_year_spec birth y :
  valid_date birth -> 1 <= y <= 9999 ->
  birthday_in_year birth y = inr (spec_in_year birth y)
  /\ valid_date (spec_in_year birth y).
Proof.
  intros Hb Hy. apply valid_dateb_year in Hb as (Hby & Hbm & Hbd).
  unfold birthday_in_year, replace_year, replace_year_day, spec_in_year.
  destruct (days_in_month_cases (year birth) (month birth) Hbm) as [[Hm2 Hdim]|(Hm2 & Hdim & _)];
  destruct (days_in_month_cases y (month birth) Hbm) as [[Hm2' Hdim']|(Hm2' & Hdim' & _)];
    try lia.
  - rewrite Hm2 in *. simpl.
    destruct (is_leap y) eqn:Ely; simpl.
    + rewrite andb_false_r.
      assert (valid_dateb y 2 (day birth) = true) as Hv.
      { apply valid_dateb_intro; try lia. rewrite Hdim'. destruct (is_leap (year birth)); lia. }
      rewrite (make_date_valid _ _ _ Hv). unfold valid_date. simpl. done.
    + rewrite andb_true_r.
      destruct (day birth =? 29) eqn:Ed.
      * apply Z.eqb_eq in Ed.
        assert (valid_dateb y 2 (day birth) = false) as Hv.
        { unfold valid_dateb. rewrite Hdim', Ed. simpl. by rewrite !andb_false_r. }
        destruct (make_date_invalid _ _ _ Hv) as [msg ->].
        assert (valid_dateb y 2 28 = true) as Hv'.
        { apply valid_dateb_intro; lia. }
        rewrite (make_date_valid _ _ _ Hv'). done.
      * apply Z.eqb_neq in Ed.
        assert (valid_dateb y 2 (day birth) = true) as Hv.
        { apply valid_dateb_intro; try lia. destruct (is_leap (year birth)); lia. }
        rewrite (make_date_valid _ _ _ Hv). done.
  - rewrite (proj2 (Z.eqb_neq _ _) Hm2). simpl.
    assert (valid_dateb y (month birth) (day birth) = true) as Hv.
    { apply valid_dateb_intro; lia. }
    rewrite (make_date_valid _ _ _ Hv). done.
Qed.

Lemma next_birthday_spec today birth :
  valid_date today -> year today < MAXYEAR -> valid_date birth ->
  next_birthday today birth = inr (spec_candidate today birth)
  /\ valid_date (spec_candidate today birth).
Proof.
  intros Ht Hy Hb. unfold MAXYEAR in Hy.
  pose proof (valid_dateb_year _ _ _ Ht) as (Hty & _ & _).
  destruct (birthday_in_year_spec birth (year today) Hb ltac:(lia)) as [E1 V1].
  destruct (birthday_in_year_spec birth (year today + 1) Hb ltac:(lia)) as [E2 V2].
  unfold next_birthday, spec_candidate. rewrite E1. simpl.
  rewrite (date_ltb_toordinal _ _ V1 Ht).
  destruct (toordinal (spec_in_year birth (year today)) <? toordinal today); done.
Qed.

(** The candidate date is never before today. *)
Lemma spec_candidate_ge today birth :
  valid_date today -> year today < MAXYEAR -> valid_date birth ->
  toordinal today <= toordinal (spec_candidate today birth).
Proof.
  intros Ht Hy Hb. unfold MAXYEAR in Hy.
  pose proof (valid_dateb_year _ _ _ Ht) as (Hty & _ & _).
  unfold spec_candidate.
  destruct (toordinal (spec_in_year birth (year today)) <? toordinal today) eqn:E;
    [|apply Z.ltb_ge in E; lia].
  destruct (birthday_in_year_spec birth (year today + 1) Hb ltac:(lia)) as [_ V2].
  pose proof (date_ltb_toordinal today _ Ht V2) as Hlt.
  assert (date_ltb today (spec_in_year birth (year today + 1)) = true) as Hl.
  { unfold date_ltb.
    replace (year (spec_in_year birth (year today + 1))) with (year today + 1)
      by (unfold spec_in_year; by destruct (_ && _)).
    rewrite (proj2 (Z.ltb_lt _ _)) by lia. done. }
  rewrite Hl in Hlt. symmetry in Hlt. apply Z.ltb_lt in Hlt. lia.
Qed.

(** Weekend dates move to the Monday after; the move stays in the calendar. *)
Lemma congratulation_spec candidate :
  valid_date candidate ->
  exists congratulation_date,
    congratulation candidate = inr congratulation_date
    /\ valid_date congratulation_date
    /\ toordinal congratulation_date = toordinal candidate + spec_shift candidate.
Proof.
  intros Hv. pose proof (toordinal_bounds _ Hv) as Hb. unfold MAXORDINAL in Hb.
  unfold congratulation, spec_shift, date_add_days, weekday in *.
  assert (forall k, 0 <= k -> toordinal candidate + k <= 3652059 ->
    exists c, (if (0 <? toordinal candidate + k) && (toordinal candidate + k <=? MAXORDINAL)
               then inr (fromordinal (toordinal candidate + k))
               else raise (OverflowError (lit "result out of range"))) = inr c
              /\ valid_date c /\ toordinal c = toordinal candidate + k) as Hadd.
  { intros k Hk Hle. unfold MAXORDINAL.
    rewrite (proj2 (Z.ltb_lt _ _)), (proj2 (Z.leb_le _ _)) by lia. simpl.
    eexists; split; [done|]. apply ord2ymd_spec. unfold MAXORDINAL. lia. }
  destruct ((toordinal candidate + 6) mod 7 =? 5) eqn:E5.
  - apply Z.eqb_eq in E5. apply Hadd; [lia|]. Z.div_mod_to_equations. lia.
  - destruct ((toordinal candidate + 6) mod 7 =? 6) eqn:E6.
    + apply Z.eqb_eq in E6. apply Hadd; [lia|]. Z.div_mod_to_equations. lia.
    + exists candidate. rewrite Z.add_0_r. done.
Qed.


(* ------------------------------------------------------------------ *)
(** The loop of [get_upcoming_birthdays] *)

Lemma upcoming_step_spec today pad days r acc :
  valid_date today -> year today < MAXYEAR -> birthday_valid r ->
  upcoming_step today pad days r acc
  = inr (acc ++ option_list (spec_report pad today days r)).
Proof.
  intros Ht Hy Hr. unfold upcoming_step, spec_report, spec_included.
  destruct (birthday r) as [b|] eqn:Eb.
  2:{ cbn [option_list]. by rewrite app_nil_r. }
  destruct (Hr b Eb) as [Hvb _].
  destruct (next_birthday_spec today (datetime_date (birthday_value b)) Ht Hy Hvb)
    as [-> Hvc].
  cbn [bind_exn]. unfold days_between.
  set (candidate := spec_candidate today (datetime_date (birthday_value b))) in *.
  destruct ((0 <=? toordinal candidate - toordinal today)
            && (toordinal candidate - toordinal today <=? days)).
  2:{ cbn [option_list]. by rewrite app_nil_r. }
  destruct (congratulation_spec _ Hvc) as (c & -> & Hc & Ho).
  cbn [bind_exn mbind option_bind option_list].
  unfold spec_congratulation, fromordinal. subst candidate. rewrite <- Ho.
  pose proof (toordinal_bounds _ Hc) as Hb.
  destruct (ord2ymd_spec _ Hb) as [Hv' Ho'].
  rewrite (toordinal_inj _ _ Hv' Hc Ho'). reflexivity.
Qed.

Lemma upcoming_loop_spec today pad days records acc :
  valid_date today -> year today < MAXYEAR -> Forall birthday_valid records ->
  upcoming_loop today pad days records acc
  = inr (acc ++ omap (spec_report pad today days) records).
Proof.
  intros Ht Hy Hr. revert acc.
  induction Hr as [|r records Hr _ IH]; intros acc; cbn [upcoming_loop omap].
  - by rewrite app_nil_r.
  - rewrite (upcoming_step_spec _ _ _ _ _ Ht Hy Hr). cbn [bind_exn]. rewrite IH.
    rewrite <- app_assoc. cbn [list_omap].
    destruct (spec_report pad today days r); reflexivity.
Qed.

Lemma get_upcoming_birthdays_spec today pad days book :
  valid_date today -> year today < MAXYEAR ->
  Forall birthday_valid (dict_values (data book)) ->
  get_upcoming_birthdays today pad days book
  = inr (omap (spec_report pad today days) (dict_values (data book))).
Proof. intros. unfold get_upcoming_birthdays. by rewrite upcoming_loop_spec. Qed.

Lemma spec_report_included pad today days r :
  spec_included today days r = true ->
  exists b,
    birthday r = Some b
    /\ spec_report pad today days r
       = Some (mkUpcoming (name_value (name r))
                 (strftime_dmY pad
                    (spec_candidate today (datetime_date (birthday_value b))))
                 (strftime_dmY pad
                    (spec_congratulation
                       (spec_candidate today
                          (datetime_date (birthday_value b)))))).
Proof.
  intros H. unfold spec_report. rewrite H.
  unfold spec_included in H. destruct (birthday r) as [b|]; [|discriminate].
  exists b. split; reflexivity.
Qed.

Lemma spec_report_excluded pad today days r :
  spec_included today days r = false -> spec_report pad today days r = None.
Proof. intros H. unfold spec_report. by rewrite H. Qed.

Lemma spec_report_names pad today days records :
  u_name <$> omap (spec_report pad today days) records
  = (fun r => name_value (name r))
      <$> List.filter (spec_included today days) records.
Proof.
  induction records as [|r records IH]; [reflexivity|].
  cbn [omap list_omap List.filter].
  destruct (spec_included today days r) eqn:E.
  - destruct (spec_report_included pad _ _ _ E) as (b & _ & ->).
    cbn [fmap list_fmap u_name]. f_equal. exact IH.
  - rewrite (spec_report_excluded pad _ _ _ E). exact IH.
Qed.

(* ------------------------------------------------------------------ *)
(** The text of [strftime] *)

Lemma zero_pad_2 n :
  0 <= n < 100 ->
  zero_pad 2 n = [digit_char (n / 10); digit_char (n mod 10)].
Proof.
  intros H.
  assert (pad2_ok n = true) as Hok
    by (apply (forall_below_Z 100 pad2_ok); [vm_compute; reflexivity|lia]).
  unfold pad2_ok in Hok. by apply bool_decide_eq_true in Hok.
Qed.

Lemma digits_rev_fuel f1 : forall f2 n,
  0 <= n < 2 ^ Z.of_nat f1 -> n < 2 ^ Z.of_nat f2 ->
  (0 < f1)%nat -> (0 < f2)%nat ->
  digits_rev f1 n = digits_rev f2 n.
Proof.
  induction f1 as [|f1 IH]; intros f2 n Hn1 Hn2 Hf1 Hf2; [lia|].
  destruct f2 as [|f2]; [lia|]. cbn [digits_rev].
  destruct (n <? 10) eqn:E; [done|]. apply Z.ltb_ge in E.
  rewrite !Nat2Z.inj_succ, !Z.pow_succ_r in * by lia.
  assert (n / 10 <= n / 2) by (apply Z.div_le_compat_l; lia).
  assert (n / 2 < 2 ^ Z.of_nat f1) by (apply Z.div_lt_upper_bound; lia).
  assert (n / 2 < 2 ^ Z.of_nat f2) by (apply Z.div_lt_upper_bound; lia).
  assert (0 <= n / 10) by (apply Z.div_pos; lia).
  f_equal. apply IH; try lia.
  - destruct f1; [simpl in *; lia|lia].
  - destruct f2; [simpl in *; lia|lia].
Qed.

Lemma decimal_small n : 0 <= n < 10 -> decimal n = [digit_char n].
Proof.
  intros H. unfold decimal. cbn [digits_rev].
  by rewrite (proj2 (Z.ltb_lt _ _)) by lia.
Qed.

Lemma decimal_step n :
  10 <= n -> decimal n = decimal (n / 10) ++ [digit_char (n mod 10)].
Proof.
  intros H. unfold decimal.
  change (digits_rev (S (Z.to_nat (Z.log2 n))) n)
    with (if n <? 10 then [digit_char n]
          else digit_char (n mod 10)
               :: digits_rev (Z.to_nat (Z.log2 n)) (n / 10)).
  rewrite (proj2 (Z.ltb_ge _ _)) by lia. cbn [rev]. f_equal. f_equal.
  assert (0 <= n / 10) by (apply Z.div_pos; lia).
  assert (0 < n / 10) by (apply Z.div_str_pos; lia).
  pose proof (Z.log2_nonneg n). pose proof (Z.log2_nonneg (n / 10)).
  pose proof (Z.log2_spec n ltac:(lia)) as [_ Hn].
  pose proof (Z.log2_spec (n / 10) ltac:(lia)) as [_ Hn10].
  assert (1 <= Z.log2 n) by (apply (Z.log2_le_mono 2 n); lia).
  assert (n / 10 <= n / 2) by (apply Z.div_le_compat_l; lia).
  rewrite Z.pow_succ_r in Hn, Hn10 by lia.
  assert (n / 2 < 2 ^ Z.log2 n) by (apply Z.div_lt_upper_bound; lia).
  apply digits_rev_fuel; rewrite ?Nat2Z.inj_succ, ?Z2Nat.id by lia; try lia.
  rewrite Z.pow_succ_r by lia. exact Hn10.
Qed.

Lemma zero_pad_4 n :
  0 <= n < 10000 ->
  zero_pad 4 n = [digit_char (n / 1000); digit_char (n / 100 mod 10);
                  digit_char (n / 10 mod 10); digit_char (n mod 10)].
Proof.
  intros H. unfold zero_pad.
  destruct (Z_lt_le_dec n 10) as [H1|H1].
  { rewrite decimal_small by lia. cbn.
    rewrite (Z.div_small n 1000), (Z.div_small n 100), (Z.div_small n 10),
      (Z.mod_small n 10) by lia.
    reflexivity. }
  rewrite (decimal_step n) by lia.
  destruct (Z_lt_le_dec n 100) as [H2|H2].
  { rewrite decimal_small by (Z.div_mod_to_equations; lia). cbn.
    rewrite (Z.div_small n 1000), (Z.div_small n 100) by lia.
    rewrite (Z.mod_small (n / 10)) by (Z.div_mod_to_equations; lia).
    reflexivity. }
  rewrite (decimal_step (n / 10)) by (Z.div_mod_to_equations; lia).
  rewrite Z.div_div by lia. change (10 * 10) with 100.
  destruct (Z_lt_le_dec n 1000) as [H3|H3].
  { rewrite decimal_small by (Z.div_mod_to_equations; lia). cbn.
    rewrite (Z.div_small n 1000) by lia.
    rewrite (Z.mod_small (n / 100)) by (Z.div_mod_to_equations; lia).
    reflexivity. }
  rewrite (decimal_step (n / 100)) by (Z.div_mod_to_equations; lia).
  rewrite Z.div_div by lia. change (100 * 10) with 1000.
  rewrite decimal_small by (Z.div_mod_to_equations; lia). reflexivity.
Qed.

Lemma decimal_4 n :
  1000 <= n < 10000 -> decimal n = zero_pad 4 n.
Proof.
  intros H. unfold zero_pad.
  assert (length (decimal n) = 4%nat) as ->; [|reflexivity].
  rewrite (decimal_step n) by lia.
  rewrite (decimal_step (n / 10)) by (Z.div_mod_to_equations; lia).
  rewrite Z.div_div by lia. change (10 * 10) with 100.
  rewrite (decimal_step (n / 100)) by (Z.div_mod_to_equations; lia).
  rewrite Z.div_div by lia. change (100 * 10) with 1000.
  rewrite decimal_small by (Z.div_mod_to_equations; lia). reflexivity.
Qed.

Lemma ascii_digit_value_digit_char v :
  0 <= v <= 9 -> ascii_digit_value (digit_char v) = Some v.
Proof.
  intros H. unfold ascii_digit_value, digit_char, is_ascii_digit.
  rewrite (proj2 (N.leb_le _ _)), (proj2 (N.leb_le _ _)) by lia. simpl.
  f_equal. lia.
Qed.

Lemma strftime_DDMMYYYY pad d :
  valid_date d -> (pad = true \/ 1000 <= year d) ->
  spec_DDMMYYYY (strftime_dmY pad d) = Some d.
Proof.
  intros Hv Hy. pose proof (valid_dateb_year _ _ _ Hv) as (H1 & H2 & H3).
  assert (days_in_month (year d) (month d) <= 31) as Hdim.
  { destruct (days_in_month_cases (year d) (month d) H2) as [[_ ->]|(_ & -> & _)].
    - destruct (is_leap _); lia.
    - assert (month d = 1 \/ month d = 2 \/ month d = 3 \/ month d = 4 \/ month d = 5 \/ month d = 6 \/ month d = 7 \/
          month d = 8 \/ month d = 9 \/ month d = 10 \/ month d = 11 \/ month d = 12) as H by lia.
      repeat (destruct H as [->|H]); try rewrite H; simpl; lia. }
  unfold strftime_dmY.
  assert ((if pad then zero_pad 4 (year d) else decimal (year d)) = zero_pad 4 (year d)) as ->.
  { destruct pad; [done|]. apply decimal_4. destruct Hy; [done|lia]. }
  rewrite (zero_pad_2 (day d)), (zero_pad_2 (month d)), (zero_pad_4 (year d)) by lia.
  cbn [app lit list_ascii_of_string fmap list_fmap N_of_ascii spec_DDMMYYYY].
  change (N_of_ascii "."%char) with 46%N. 
  cbn [N.eqb Pos.eqb andb].
  rewrite !ascii_digit_value_digit_char by (Z.div_mod_to_equations; lia).
  cbn [mbind option_bind].
  replace (1000 * (year d / 1000) + 100 * (year d / 100 mod 10) +
           10 * (year d / 10 mod 10) + year d mod 10) with (year d)
    by (Z.div_mod_to_equations; lia).
  replace (10 * (month d / 10) + month d mod 10) with (month d)
    by (Z.div_mod_to_equations; lia).
  replace (10 * (day d / 10) + day d mod 10) with (day d)
    by (Z.div_mod_to_equations; lia).
  rewrite Hv. by destruct d.
Qed.


(* ------------------------------------------------------------------ *)
(** Phones *)

Lemma Phone_init_inr s p :
  Phone_init s = inr p
  <-> p = mkPhone s /\ length s = 10%nat /\ forallb char_isdigit s = true.
Proof.
  unfold Phone_init, isdigit, raise.
  destruct s as [|c s]; [simpl; split; [discriminate|intros (_ & [=] & _)]|].
  destruct (forallb char_isdigit (c :: s)) eqn:E; simpl.
  - destruct (Nat.eqb_spec (length s) 9) as [El|El]; simpl.
    + split; [intros [= <-]|intros (-> & _)]; auto.
    + split; [discriminate|]. intros (_ & [= El'] & _). done.
  - split; [discriminate|]. intros (_ & _ & [=]).
Qed.

Lemma Phone_init_inl s e :
  Phone_init s = inl e ->
  (isdigit s = false
   /\ e = ValueError (lit "Phone number must contain only digits"))
  \/ (isdigit s = true /\ length s <> 10%nat
      /\ e = ValueError (lit "Phone number must be exactly 10 digits")).
Proof.
  unfold Phone_init, raise. destruct (isdigit s); simpl.
  - destruct (Nat.eqb_spec (length s) 10); simpl; [discriminate|].
    intros [= <-]. right. done.
  - intros [= <-]. left. done.
Qed.

Lemma ascii_digit_isdigit c : is_ascii_digit c = true -> char_isdigit c = true.
Proof.
  unfold is_ascii_digit, char_isdigit, char_isdecimal, in_ranges, decimal_ranges.
  intros H. cbn [existsb fst snd]. by rewrite H.
Qed.

(** Among the ASCII characters the digits are ['0'] to ['9']. *)
Lemma isdigit_ascii c :
  (c < 128)%N ->
  char_isdigit c = is_ascii_digit c /\ char_isdecimal c = is_ascii_digit c.
Proof.
  intros H.
  assert (ascii_table_ok (Z.of_N c) = true) as Hok
    by (apply (forall_below_spec 128%nat ascii_table_ok); [by vm_compute|lia]).
  unfold ascii_table_ok in Hok. rewrite N2Z.id in Hok.
  apply andb_prop in Hok as [H1 H2].
  by apply Bool.eqb_prop in H1, H2.
Qed.

(* ------------------------------------------------------------------ *)
(** Records *)

Lemma find_phone_in_list_find ps phone :
  find_phone_in ps phone
  = snd <$> list_find (fun p => phone_value p = phone) ps.
Proof.
  induction ps as [|p ps IH]; [done|]. simpl.
  destruct (decide (phone_value p = phone)); [done|].
  rewrite IH. by destruct (list_find _ ps) as [[? ?]|].
Qed.

Lemma find_phone_in_None ps phone :
  find_phone_in ps phone = None
  <-> forall p, p ∈ ps -> phone_value p <> phone.
Proof.
  rewrite find_phone_in_list_find, fmap_None, list_find_None, Forall_forall.
  done.
Qed.

Lemma find_phone_in_Some ps phone p :
  find_phone_in ps phone = Some p -> p = mkPhone phone /\ p ∈ ps.
Proof.
  rewrite find_phone_in_list_find, fmap_Some.
  intros ([i q] & Hf & ->). apply list_find_Some in Hf as (Hl & Hq & _).
  simpl. split; [destruct q; simpl in *; by subst|].
  by eapply list_elem_of_lookup_2.
Qed.

(** [list.index] finds the object of [find_phone] where [find_phone] found
    it. *)
Lemma list_index_list_find ps phone i p :
  list_find (fun p => phone_value p = phone) ps = Some (i, p) ->
  list_index p ps = inr i.
Proof.
  revert i. induction ps as [|q ps IH]; intros i; [done|]. simpl.
  destruct (decide (phone_value q = phone)) as [Hq|Hq].
  - intros [= <- <-]. by rewrite decide_True.
  - destruct (list_find _ ps) as [[j p']|] eqn:E; [|done].
    simpl. intros [= <- <-].
    apply list_find_Some in E as (_ & Hp & _).
    rewrite decide_False by congruence.
    by rewrite (IH j).
Qed.

Lemma list_remove_list_find ps phone i p :
  list_find (fun p => phone_value p = phone) ps = Some (i, p) ->
  list_remove p ps = inr (base.delete i ps).
Proof.
  revert i. induction ps as [|q ps IH]; intros i; [done|]. simpl.
  destruct (decide (phone_value q = phone)) as [Hq|Hq].
  - intros [= <- <-]. by rewrite decide_True.
  - destruct (list_find _ ps) as [[j p']|] eqn:E; [|done].
    simpl. intros [= <- <-].
    apply list_find_Some in E as (_ & Hp & _).
    rewrite decide_False by congruence.
    by rewrite (IH j).
Qed.

Lemma add_phone_spec phone r :
  add_phone phone r
  = match Phone_init phone with
    | inl e => (inl e, r)
    | inr p => (inr tt, mkRecord (name r) (phones r ++ [p]) (birthday r))
    end.
Proof. unfold add_phone, bind, call. by destruct (Phone_init phone). Qed.

Lemma remove_phone_spec phone r :
  remove_phone phone r
  = match list_find (fun p => phone_value p = phone) (phones r) with
    | None =>
        (inl (ValueError (lit "Phone " ++ phone ++ lit " not found")), r)
    | Some (i, _) =>
        (inr tt, mkRecord (name r) (base.delete i (phones r)) (birthday r))
    end.
Proof.
  unfold remove_phone, find_phone.
  unfold bind, get_phones, ret, call, throw, set_phones.
  rewrite find_phone_in_list_find.
  destruct (list_find _ (phones r)) as [[i p]|] eqn:E; simpl; [|done].
  by rewrite (list_remove_list_find _ _ _ _ E).
Qed.

Lemma edit_phone_spec old_phone new_phone r :
  edit_phone old_phone new_phone r
  = match list_find (fun p => phone_value p = old_phone) (phones r) with
    | None =>
        (inl (ValueError (lit "Phone " ++ old_phone ++ lit " not found")), r)
    | Some (i, _) =>
        match Phone_init new_phone with
        | inl e => (inl e, r)
        | inr p =>
            (inr tt, mkRecord (name r) (<[i := p]> (phones r)) (birthday r))
        end
    end.
Proof.
  unfold edit_phone, find_phone.
  unfold bind, get_phones, ret, call, throw, set_phones.
  rewrite find_phone_in_list_find.
  destruct (list_find _ (phones r)) as [[i p]|] eqn:E; simpl; [|done].
  destruct (Phone_init new_phone) as [e|np]; [done|].
  rewrite (list_index_list_find _ _ _ _ E). simpl.
  unfold list_setitem.
  apply list_find_Some in E as (Hl & _). apply lookup_lt_Some in Hl.
  by rewrite (proj2 (Nat.ltb_lt _ _) Hl).
Qed.

Lemma add_birthday_spec text r :
  add_birthday text r
  = match Birthday_init text with
    | inl e => (inl e, r)
    | inr b => (inr tt, mkRecord (name r) (phones r) (Some b))
    end.
Proof. unfold add_birthday, bind, call. by destruct (Birthday_init text). Qed.

Lemma run_op_name op r : name (run_op op r).2 = name r.
Proof.
  destruct op; simpl.
  - rewrite add_phone_spec. by destruct (Phone_init _).
  - rewrite remove_phone_spec. by destruct (list_find _ _) as [[? ?]|].
  - rewrite edit_phone_spec. destruct (list_find _ _) as [[? ?]|]; [|done].
    by destruct (Phone_init _).
  - rewrite add_birthday_spec. by destruct (Birthday_init _).
Qed.

Lemma run_op_raises op r e r' :
  run_op op r = (inl e, r') -> r' = r.
Proof.
  destruct op; simpl.
  - rewrite add_phone_spec. destruct (Phone_init _); congruence.
  - rewrite remove_phone_spec. destruct (list_find _ _) as [[? ?]|]; congruence.
  - rewrite edit_phone_spec. destruct (list_find _ _) as [[? ?]|]; [|congruence].
    destruct (Phone_init _); congruence.
  - rewrite add_birthday_spec. destruct (Birthday_init _); congruence.
Qed.


Lemma pyval_nested_ind (P : pyval -> Prop) :
  P PyNone -> (forall s, P (PyStr s)) -> (forall b, P (PyBytes b)) ->
  (forall items, Forall P items -> P (PyTuple items)) ->
  (forall items, Forall P items -> P (PyList items)) ->
  (forall items, Forall (fun kv => P (snd kv)) items -> P (PyDict items)) ->
  (forall m n, P (PyClass m n)) ->
  (forall m n attrs,
      Forall (fun kv => P (snd kv)) attrs -> P (PyInstance m n attrs)) ->
  (forall dt, P (PyDatetime dt)) ->
  forall v, P v.
Proof.
  intros HN HS HB HT HL HD HC HI HDt.
  fix IH 1. intros [ | s | b | items | items | items | m n | m n attrs | dt ].
  - exact HN.
  - apply HS.
  - apply HB.
  - apply HT. induction items as [|x items IHi]; constructor; [apply IH|exact IHi].
  - apply HL. induction items as [|x items IHi]; constructor; [apply IH|exact IHi].
  - apply HD. induction items as [|[k x] items IHi]; constructor; [apply IH|exact IHi].
  - apply HC.
  - apply HI. induction attrs as [|[k x] items IHi]; constructor; [apply IH|exact IHi].
  - apply HDt.
Qed.

Lemma pushes_all_nil : pushes_all [] [].
Proof. by intros rest st ms. Qed.

Lemma pushes_all_app c1 c2 vs1 vs2 :
  pushes_all c1 vs1 -> pushes_all c2 vs2 -> pushes_all (c1 ++ c2) (vs1 ++ vs2).
Proof.
  intros H1 H2 rest st ms. rewrite <- app_assoc, H1, H2.
  by rewrite rev_app_distr, <- app_assoc.
Qed.

Lemma pushes_all_concat cs vss :
  Forall2 pushes_all cs vss -> pushes_all (concat cs) (concat vss).
Proof.
  induction 1; simpl; [apply pushes_all_nil|]. by apply pushes_all_app.
Qed.

Lemma pushes_concat cs vs :
  Forall2 pushes cs vs -> pushes_all (concat cs) vs.
Proof.
  induction 1 as [|c v cs vs Hc _ IH]; simpl; [apply pushes_all_nil|].
  change (v :: vs) with ([v] ++ vs). by apply pushes_all_app.
Qed.

Lemma pushes_all_cons op c v vs :
  (forall st ms, load_op op (mkUnpickler st ms) = inr (inl (mkUnpickler (v :: st) ms))) ->
  pushes_all c vs -> pushes_all (op :: c) (v :: vs).
Proof.
  intros Hop Hc rest st ms. simpl. rewrite Hop. simpl. rewrite Hc.
  by rewrite <- app_assoc.
Qed.

(** One batch of [APPENDS]. *)
Lemma write_batch_appends tmp vs :
  Forall2 pushes tmp vs ->
  forall rest l st ms,
    load_ops (write_batch APPENDS APPEND tmp ++ rest) (mkUnpickler (PyList l :: st) ms)
    = load_ops rest (mkUnpickler (PyList (l ++ vs) :: st) ms).
Proof.
  intros H rest l st ms.
  destruct H as [|c v cs vs Hc Hcs]; simpl.
  - by rewrite app_nil_r.
  - destruct Hcs as [|c' v' cs vs Hc' Hcs].
    + rewrite <- (assoc_L (++)). rewrite (Hc _ _ _). done.
    + assert (Forall2 pushes (c :: c' :: cs) (v :: v' :: vs)) as Hall
        by (repeat constructor; done).
      apply pushes_concat in Hall.
      change (c ++ concat (c' :: cs)) with (concat (c :: c' :: cs)).
      rewrite <- app_comm_cons. cbn [load_ops load_op bind_exn stack metastack].
      rewrite <- app_assoc, Hall. cbn [load_ops load_op bind_exn app].
      unfold pop_mark, with_stack. cbn [stack metastack bind_exn].
      by rewrite app_nil_r, rev_involutive.
Qed.

Lemma Forall2_take_drop {A B} (R : A -> B -> Prop) n l k :
  Forall2 R l k -> Forall2 R (take n l) (take n k) /\ Forall2 R (drop n l) (drop n k).
Proof. intros H. split; [by apply Forall2_take|by apply Forall2_drop]. Qed.

Lemma BATCHSIZE_pos : (0 < BATCHSIZE)%nat.
Proof. unfold BATCHSIZE. lia. Qed.

Lemma batches_appends fuel :
  forall cs vs, (length cs < fuel)%nat -> Forall2 pushes cs vs ->
  forall rest l st ms,
    load_ops (concat (write_batch APPENDS APPEND <$> batches fuel cs) ++ rest)
             (mkUnpickler (PyList l :: st) ms)
    = load_ops rest (mkUnpickler (PyList (l ++ vs) :: st) ms).
Proof.
  induction fuel as [|fuel IH]; intros cs vs Hlen H rest l st ms; [lia|].
  pose proof BATCHSIZE_pos as Hpos.
  destruct (Forall2_take_drop _ BATCHSIZE _ _ H) as [Ht Hd].
  cbn [batches].
  destruct (Nat.ltb_spec (length (take BATCHSIZE cs)) BATCHSIZE) as [Hshort|Hfull].
  - rewrite length_take in Hshort.
    assert (length cs < BATCHSIZE)%nat as Hcs by lia.
    pose proof (Forall2_length _ _ _ H) as Hl.
    rewrite (take_ge cs) in * by lia.
    rewrite (take_ge vs) in Ht by lia.
    simpl. rewrite app_nil_r. by apply write_batch_appends.
  - rewrite length_take in Hfull.
    rewrite fmap_cons, concat_cons, <- app_assoc.
    rewrite (write_batch_appends _ _ Ht).
    assert (length (drop BATCHSIZE cs) < fuel)%nat as Hlt.
    { rewrite length_drop. lia. }
    rewrite (IH _ _ Hlt Hd).
    by rewrite <- app_assoc, take_drop.
Qed.

Lemma write_batches_appends cs vs :
  Forall2 pushes cs vs ->
  forall rest l st ms,
    load_ops (write_batches APPENDS APPEND cs ++ rest)
             (mkUnpickler (PyList l :: st) ms)
    = load_ops rest (mkUnpickler (PyList (l ++ vs) :: st) ms).
Proof. intros H. apply batches_appends; [lia|done]. Qed.

Lemma setitems_flat items d :
  setitems (flat_items items) d = inr (build d items).
Proof.
  revert d. induction items as [|[k v] items IH]; intros d; [done|].
  unfold flat_items, build. simpl. apply IH.
Qed.

Lemma pushes_items_concat cs items :
  Forall2 pushes_item cs items -> pushes_all (concat cs) (flat_items items).
Proof.
  intros H. apply pushes_all_concat.
  induction H; constructor; done.
Qed.

Lemma write_batch_setitems tmp items :
  Forall2 pushes_item tmp items ->
  forall rest d st ms,
    load_ops (write_batch SETITEMS SETITEM tmp ++ rest) (mkUnpickler (PyDict d :: st) ms)
    = load_ops rest (mkUnpickler (PyDict (build d items) :: st) ms).
Proof.
  intros H rest d st ms.
  destruct H as [|c [k v] cs items Hc Hcs]; simpl.
  - done.
  - destruct Hcs as [|c' kv' cs items Hc' Hcs].
    + rewrite <- (assoc_L (++)). rewrite (Hc _ _ _). done.
    + assert (Forall2 pushes_item (c :: c' :: cs) ((k, v) :: kv' :: items)) as Hall
        by (repeat constructor; done).
      apply pushes_items_concat in Hall.
      change (c ++ concat (c' :: cs)) with (concat (c :: c' :: cs)).
      rewrite <- app_comm_cons. cbn [load_ops load_op bind_exn stack metastack].
      rewrite <- app_assoc, Hall. cbn [load_ops load_op bind_exn app].
      unfold pop_mark, with_stack. cbn [stack metastack bind_exn].
      rewrite app_nil_r, rev_involutive, setitems_flat. done.
Qed.

Lemma build_app d items1 items2 :
  build d (items1 ++ items2) = build (build d items1) items2.
Proof. unfold build. by rewrite fold_left_app. Qed.

Lemma batches_setitems fuel :
  forall cs items, (length cs < fuel)%nat -> Forall2 pushes_item cs items ->
  forall rest d st ms,
    load_ops (concat (write_batch SETITEMS SETITEM <$> batches fuel cs) ++ rest)
             (mkUnpickler (PyDict d :: st) ms)
    = load_ops rest (mkUnpickler (PyDict (build d items) :: st) ms).
Proof.
  induction fuel as [|fuel IH]; intros cs vs Hlen H rest l st ms; [lia|].
  pose proof BATCHSIZE_pos as Hpos.
  destruct (Forall2_take_drop _ BATCHSIZE _ _ H) as [Ht Hd].
  cbn [batches].
  destruct (Nat.ltb_spec (length (take BATCHSIZE cs)) BATCHSIZE) as [Hshort|Hfull].
  - rewrite length_take in Hshort.
    assert (length cs < BATCHSIZE)%nat as Hcs by lia.
    pose proof (Forall2_length _ _ _ H) as Hl.
    rewrite (take_ge cs) in * by lia.
    rewrite (take_ge vs) in Ht by lia.
    simpl. rewrite app_nil_r. by apply write_batch_setitems.
  - rewrite length_take in Hfull.
    rewrite fmap_cons, concat_cons, <- app_assoc.
    rewrite (write_batch_setitems _ _ Ht).
    assert (length (drop BATCHSIZE cs) < fuel)%nat as Hlt.
    { rewrite length_drop. lia. }
    rewrite (IH _ _ Hlt Hd).
    by rewrite <- build_app, take_drop.
Qed.

Lemma write_batches_setitems cs items :
  Forall2 pushes_item cs items ->
  forall rest d st ms,
    load_ops (write_batches SETITEMS SETITEM cs ++ rest)
             (mkUnpickler (PyDict d :: st) ms)
    = load_ops rest (mkUnpickler (PyDict (build d items) :: st) ms).
Proof. intros H. apply batches_setitems; [lia|done]. Qed.

(** Items with distinct keys, set one after the other, are the [dict]. *)
Lemma dict_setitem_fresh {V} k (v : V) d :
  k ∉ dict_keys d -> dict_setitem k v d = d ++ [(k, v)].
Proof.
  induction d as [|[k' v'] d IH]; simpl; [done|].
  rewrite not_elem_of_cons. intros [Hne Hni].
  rewrite decide_False by done. by rewrite IH.
Qed.

Lemma build_fresh d items :
  NoDup (dict_keys (d ++ items)) -> build d items = d ++ items.
Proof.
  revert d. induction items as [|[k v] items IH]; intros d Hnd.
  - by rewrite app_nil_r.
  - unfold build. simpl. fold (build (dict_setitem k v d) items).
    assert (k ∉ dict_keys d) as Hk.
    { unfold dict_keys in *. rewrite fmap_app in Hnd. simpl in Hnd.
      apply NoDup_app in Hnd as (_ & Hd & _).
      intros Hin. apply (Hd _ Hin). left. }
    rewrite (dict_setitem_fresh _ _ _ Hk).
    rewrite IH; rewrite <- app_assoc; done.
Qed.

(** The state of a [datetime] and back. *)
Lemma lor_shiftl_8 a b :
  0 <= a -> 0 <= b < 256 -> Z.lor (Z.shiftl a 8) b = a * 256 + b.
Proof.
  intros Ha Hb. rewrite Z.shiftl_mul_pow2 by lia. change (2 ^ 8) with 256.
  assert (Z.land (a * 256) b = 0) as Hland.
  { apply Z.bits_inj'. intros n Hn. rewrite Z.land_spec, Z.bits_0.
    destruct (Z.lt_ge_cases n 8) as [Hlt|Hge].
    - change 256 with (2 ^ 8). rewrite Z.mul_pow2_bits_low by lia. done.
    - rewrite (Z.bits_above_log2 b n); [apply andb_false_r|lia|].
      destruct (Z.eq_dec b 0) as [->|Hb0]; [simpl; lia|].
      assert (Z.log2 b < 8); [|lia]. apply Z.log2_lt_pow2; lia. }
  rewrite <- Z.lxor_lor by done. rewrite <- Z.add_nocarry_lxor by done. done.
Qed.

Lemma datetime_state_roundtrip dt :
  valid_datetimeb dt = true ->
  reduce datetime_class (PyTuple [PyBytes (datetime_getstate dt)])
  = inr (PyDatetime dt).
Proof.
  unfold valid_datetimeb. rewrite !andb_true_iff, !Z.leb_le, !Z.ltb_lt.
  intros ((((((((((Hd & Hh1) & Hh2) & Hm1) & Hm2) & Hs1) & Hs2) & Hu1) & Hu2) & Hf1) & Hf2).
  apply valid_dateb_year in Hd.
  destruct dt as [[y m d] hh mm ss us fo]. simpl in *.
  unfold reduce, datetime_class, datetime_getstate. simpl dt_date. simpl year.
  cbn [month day hour minute second microsecond fold].
  assert (Z.land (if negb (fo =? 0) then m + 128 else m) 127 = m) as Hland.
  { change 127 with (Z.ones 7). rewrite Z.land_ones by lia. change (2 ^ 7) with 128.
    destruct (fo =? 0); simpl; Z.div_mod_to_equations; lia. }
  rewrite Hland.
  rewrite (proj2 (Z.leb_le 1 m)), (proj2 (Z.leb_le m 12)) by lia.
  cbn [andb].
  assert ((if 127 <? (if negb (fo =? 0) then m + 128 else m)
           then (1, (if negb (fo =? 0) then m + 128 else m) - 128)
           else (0, (if negb (fo =? 0) then m + 128 else m))) = (fo, m)) as ->.
  { destruct (Z.eqb_spec fo 0) as [->|Hne]; simpl.
    - rewrite (proj2 (Z.ltb_ge _ _)) by lia. done.
    - rewrite (proj2 (Z.ltb_lt _ _)) by lia. f_equal; lia. }
  rewrite (lor_shiftl_8 (us / 256 / 256) ((us / 256) mod 256))
    by (Z.div_mod_to_equations; lia).
  rewrite lor_shiftl_8 by (Z.div_mod_to_equations; lia).
  do 3 f_equal.
  - f_equal. Z.div_mod_to_equations; lia.
  - Z.div_mod_to_equations; lia.
Qed.

Lemma pushes_op op v :
  (forall st ms, load_op op (mkUnpickler st ms) = inr (inl (mkUnpickler (v :: st) ms))) ->
  pushes [op] v.
Proof. intros H. apply pushes_all_cons; [done|apply pushes_all_nil]. Qed.

Lemma saved_items_push items :
  Forall (fun kv => picklable (snd kv) = true -> pushes (save (snd kv)) (snd kv)) items ->
  forallb (fun kv => picklable (snd kv)) items = true ->
  Forall2 pushes_item
    (map (fun kv => BINUNICODE (fst kv) :: save (snd kv)) items) items.
Proof.
  induction 1 as [|[k v] items Hv _ IH]; simpl; [constructor|].
  rewrite andb_true_iff. intros [Hp Hps]. constructor; [|by apply IH].
  unfold pushes_item. simpl.
  apply pushes_all_cons; [done|]. by apply Hv.
Qed.

Lemma saved_push items :
  Forall (fun v => picklable v = true -> pushes (save v) v) items ->
  forallb picklable items = true ->
  Forall2 pushes (map save items) items.
Proof.
  induction 1 as [|v items Hv _ IH]; simpl; [constructor|].
  rewrite andb_true_iff. intros [Hp Hps]. constructor; [by apply Hv|by apply IH].
Qed.

Lemma load_class module name st ms rest :
  is_program_class module name
  || (bool_decide (module = lit "datetime") && bool_decide (name = lit "datetime")) = true ->
  load_ops (BINUNICODE module :: BINUNICODE name :: STACK_GLOBAL :: rest)
           (mkUnpickler st ms)
  = load_ops rest (mkUnpickler (PyClass module name :: st) ms).
Proof.
  intros H. cbn [load_ops load_op bind_exn stack with_stack metastack].
  by rewrite H.
Qed.

(** What [save] writes, [load_ops] reads back: the object is on the stack. *)
Lemma save_pushes obj : picklable obj = true -> pushes (save obj) obj.
Proof.
  induction obj as [ | s | b | items IH | items IH | items IH | m n
                     | m n attrs IH | dt ] using pyval_nested_ind;
    intros Hp.
  - by apply pushes_op.
  - by apply pushes_op.
  - by apply pushes_op.
  - (* tuple *)
    simpl in Hp. pose proof (saved_push _ IH Hp) as Hall.
    destruct items as [|a [|b [|c [|d items]]]].
    + by apply pushes_op.
    + apply pushes_concat in Hall. simpl in Hall. rewrite app_nil_r in Hall.
      intros rest st ms. cbn [save]. rewrite <- app_assoc, Hall. done.
    + apply pushes_concat in Hall. simpl in Hall. rewrite app_nil_r in Hall.
      intros rest st ms. cbn [save].
      replace ((save a ++ save b ++ [TUPLE2]) ++ rest)
        with ((save a ++ save b) ++ TUPLE2 :: rest)
        by (by rewrite <- !app_assoc).
      by rewrite Hall.
    + apply pushes_concat in Hall. simpl in Hall. rewrite app_nil_r in Hall.
      intros rest st ms. cbn [save].
      replace ((save a ++ save b ++ save c ++ [TUPLE3]) ++ rest)
        with ((save a ++ save b ++ save c) ++ TUPLE3 :: rest)
        by (by rewrite <- !app_assoc).
      by rewrite Hall.
    + apply pushes_concat in Hall.
      intros rest st ms. cbn [save].
      rewrite <- app_comm_cons. cbn [load_ops load_op bind_exn stack metastack].
      rewrite <- app_assoc, Hall. cbn [load_ops load_op bind_exn app].
      unfold pop_mark, with_stack. cbn [stack metastack bind_exn].
      by rewrite app_nil_r, rev_involutive.
  - (* list *)
    simpl in Hp. pose proof (saved_push _ IH Hp) as Hall.
    intros rest st ms. cbn [save]. rewrite <- app_comm_cons.
    machine_step.
    by rewrite (write_batches_appends _ _ Hall).
  - (* dict *)
    simpl in Hp. apply andb_prop in Hp as [Hnd Hp].
    apply bool_decide_eq_true in Hnd.
    pose proof (saved_items_push _ IH Hp) as Hall.
    intros rest st ms. cbn [save]. rewrite <- app_comm_cons.
    machine_step.
    rewrite (write_batches_setitems _ _ Hall).
    by rewrite (build_fresh [] items Hnd).
  - (* class *)
    simpl in Hp. intros rest st ms. cbn [save app]. by apply load_class.
  - (* instance *)
    simpl in Hp. apply andb_prop in Hp as [Hp Hps].
    apply andb_prop in Hp as [Hc Hnd]. apply bool_decide_eq_true in Hnd.
    pose proof (saved_items_push _ IH Hps) as Hall.
    intros rest st ms. cbn [save]. rewrite <- app_assoc.
    cbn [app]. rewrite load_class by (by rewrite Hc).
    machine_step.
    rewrite Hc. cbn [bind_exn].
    destruct attrs as [|kv attrs]; [done|].
    rewrite <- app_comm_cons.
    machine_step.
    rewrite <- app_assoc, (write_batches_setitems _ _ Hall).
    machine_step.
    rewrite (build_fresh [] (kv :: attrs) Hnd). cbn [app]. machine_step.
    by rewrite (build_fresh [] (kv :: attrs) Hnd).
  - (* datetime *)
    simpl in Hp. intros rest st ms. cbn [save app].
    rewrite load_class by done.
    machine_step.
    fold datetime_class. by rewrite (datetime_state_roundtrip _ Hp).
Qed.

Lemma pickle_roundtrip obj :
  picklable obj = true -> pickle_load (pickle_dump obj) = inr obj.
Proof.
  intros Hp. unfold pickle_load, pickle_dump.
  cbn [load_ops load_op bind_exn].
  rewrite (proj2 (Z.leb_le 0 4)), (proj2 (Z.leb_le 4 5)) by lia. cbn [andb bind_exn].
  rewrite (save_pushes _ Hp). done.
Qed.

(* ------------------------------------------------------------------ *)
(** The address book as objects *)

Lemma valid_datetimeb_spec dt : valid_datetimeb dt = true <-> valid_datetime dt.
Proof.
  unfold valid_datetimeb, valid_datetime, valid_date.
  rewrite !andb_true_iff, !Z.leb_le, !Z.ltb_lt. tauto.
Qed.

Lemma Name_of_obj_of n : Name_of_obj (obj_of_Name n) = Some n.
Proof. by destruct n. Qed.

Lemma Phone_of_obj_of p : Phone_of_obj (obj_of_Phone p) = Some p.
Proof. by destruct p. Qed.

Lemma Birthday_of_obj_of b :
  Birthday_of_obj (match b with None => PyNone | Some b => obj_of_Birthday b end)
  = Some b.
Proof. by destruct b as [[dt]|]. Qed.

Lemma Record_of_obj_of r : Record_of_obj (obj_of_Record r) = Some r.
Proof.
  destruct r as [n ps b]. unfold obj_of_Record, Record_of_obj.
  cbn [name phones birthday].
  rewrite !bool_decide_eq_true_2 by done. cbn [andb].
  rewrite Name_of_obj_of. cbn [mbind option_bind].
  assert (mapM Phone_of_obj (obj_of_Phone <$> ps) = Some ps) as ->.
  { apply mapM_Some. apply Forall2_fmap_l, Forall_Forall2_diag, Forall_forall.
    intros p _. unfold compose. apply Phone_of_obj_of. }
  cbn [mbind option_bind]. by rewrite Birthday_of_obj_of.
Qed.

Lemma AddressBook_of_obj_of book :
  AddressBook_of_obj (obj_of_AddressBook book) = Some book.
Proof.
  destruct book as [d]. unfold obj_of_AddressBook, AddressBook_of_obj.
  cbn [data]. rewrite !bool_decide_eq_true_2 by done. cbn [andb].
  assert (mapM (fun kv => r ← Record_of_obj (snd kv); Some (fst kv, r))
               (prod_map id obj_of_Record <$> d) = Some d) as ->; [|done].
  apply mapM_Some. apply Forall2_fmap_l, Forall_Forall2_diag, Forall_forall.
  intros [k r] _. unfold compose. cbn [prod_map fst snd id].
  by rewrite Record_of_obj_of.
Qed.

Lemma obj_of_AddressBook_inj b1 b2 :
  obj_of_AddressBook b1 = obj_of_AddressBook b2 -> b1 = b2.
Proof.
  intros H. apply (f_equal AddressBook_of_obj) in H.
  rewrite !AddressBook_of_obj_of in H. congruence.
Qed.

Lemma picklable_instance m n attrs :
  is_program_class m n = true -> NoDup (dict_keys attrs) ->
  Forall (fun kv => picklable (snd kv) = true) attrs ->
  picklable (PyInstance m n attrs) = true.
Proof.
  intros Hc Hnd Hv. cbn [picklable]. rewrite Hc, bool_decide_eq_true_2 by done.
  cbn [andb]. induction Hv as [|kv attrs Hkv _ IH]; [done|].
  cbn [forallb]. rewrite Hkv. apply IH. by apply NoDup_cons in Hnd as [_ ?].
Qed.

Lemma NoDup_decide (l : list (list N)) : bool_decide (NoDup l) = true -> NoDup l.
Proof. apply bool_decide_eq_true. Qed.

Lemma picklable_Record r :
  birthday_valid r -> picklable (obj_of_Record r) = true.
Proof.
  intros Hb. destruct r as [n ps b]. unfold birthday_valid in Hb.
  simpl in Hb. unfold obj_of_Record. cbn [name phones birthday].
  apply picklable_instance; [done|by apply NoDup_decide|].
  apply Forall_cons; split; [done|].
  apply Forall_cons; split; [|apply Forall_cons; split; [|done]]; cbn [snd].
  - cbn [picklable]. induction ps as [|p ps IH]; [done|].
    cbn [fmap list_fmap forallb]. by rewrite IH.
  - destruct b as [b|]; [|done].
    apply picklable_instance; [done|by apply NoDup_decide|].
    apply Forall_cons; split; [|done]. cbn [snd picklable].
    by apply valid_datetimeb_spec, Hb.
Qed.

Lemma picklable_AddressBook book :
  book_wf book -> picklable (obj_of_AddressBook book) = true.
Proof.
  intros [Hnd Hv]. destruct book as [d]. unfold dict_keys, dict_values in *.
  cbn [data] in *. unfold obj_of_AddressBook. cbn [data].
  apply picklable_instance; [done|by apply NoDup_decide|].
  apply Forall_cons; split; [|done]. cbn [snd picklable].
  apply andb_true_iff. split.
  - apply bool_decide_eq_true. unfold dict_keys.
    rewrite <- list_fmap_compose.
    erewrite list_fmap_ext; [exact Hnd|]. by intros i [k r].
  - clear Hnd. induction d as [|[k r] d IH]; [done|].
    apply Forall_cons in Hv as [Hr Hd]. cbn [fmap list_fmap forallb prod_map snd].
    simpl in Hr. rewrite (picklable_Record _ Hr). by apply IH.
Qed.

Lemma load_save book filename fs :
  book_wf book ->
  load_data filename (save_data book filename fs)
  = inr (obj_of_AddressBook book).
Proof.
  intros Hwf. unfold load_data, save_data, open_rb.
  rewrite lookup_insert_eq. cbn [bind_exn].
  by rewrite (pickle_roundtrip _ (picklable_AddressBook _ Hwf)).
Qed.

Lemma load_missing (filename : list N) (fs : gmap (list N) (list opcode)) :
  fs !! filename = None ->
  load_data filename fs = inr (obj_of_AddressBook AddressBook_init).
Proof. intros H. unfold load_data, open_rb. by rewrite H. Qed.


Section DictFacts.
Context {V : Type}.
Implicit Types (d : list (list N * V)) (k : list N) (v : V).

Lemma dict_get_setitem_eq k v d : dict_get k (dict_setitem k v d) = Some v.
Proof.
  induction d as [|[k' v'] d IH]; simpl.
  - by rewrite decide_True.
  - destruct (decide (k' = k)) as [->|Hne]; simpl.
    + by rewrite decide_True.
    + by rewrite decide_False.
Qed.

Lemma dict_get_setitem_ne k k' v d :
  k <> k' -> dict_get k' (dict_setitem k v d) = dict_get k' d.
Proof.
  intros Hne. induction d as [|[k0 v0] d IH]; simpl.
  - by rewrite decide_False.
  - destruct (decide (k0 = k)) as [->|Hne0]; simpl.
    + by rewrite !decide_False.
    + by rewrite IH.
Qed.

Lemma dict_keys_setitem k v d :
  dict_keys (dict_setitem k v d)
  = if decide (k ∈ dict_keys d) then dict_keys d else dict_keys d ++ [k].
Proof.
  unfold dict_keys.
  induction d as [|[k' v'] d IH]; cbn [dict_setitem fmap list_fmap fst].
  - by destruct (decide (k ∈ [])) as [?%elem_of_nil|].
  - destruct (decide (k' = k)) as [->|Hne]; cbn [fmap list_fmap fst].
    + destruct (decide (k ∈ k :: d.*1)) as [|Hni]; [done|].
      exfalso. apply Hni. left.
    + rewrite IH.
      destruct (decide (k ∈ d.*1)) as [Hin|Hni];
        destruct (decide (k ∈ k' :: d.*1)) as [Hin'|Hni']; try done.
      * exfalso. apply Hni'. by right.
      * exfalso. apply elem_of_cons in Hin' as [?|?]; congruence.
Qed.

Lemma dict_setitem_NoDup k v d :
  NoDup (dict_keys d) -> NoDup (dict_keys (dict_setitem k v d)).
Proof.
  intros Hnd. rewrite dict_keys_setitem.
  destruct (decide _) as [|Hni]; [done|].
  apply NoDup_app. split; [done|]. split; [|apply NoDup_singleton].
  intros x Hx Hx'. apply list_elem_of_singleton in Hx'. by subst.
Qed.

Lemma elem_of_dict_setitem k v d k' v' :
  (k', v') ∈ dict_setitem k v d ->
  (k' = k /\ v' = v) \/ (k' <> k /\ (k', v') ∈ d)
  \/ (k' = k /\ (k', v') ∈ d /\ ~ NoDup (dict_keys d)).
Proof.
  induction d as [|[k0 v0] d IH]; simpl.
  - intros Hin. apply list_elem_of_singleton in Hin as [= -> ->]. by left.
  - destruct (decide (k0 = k)) as [->|Hne].
    + intros Hin. apply elem_of_cons in Hin as [[= -> ->]|Hin]; [by left|].
      destruct (decide (k' = k)) as [->|Hne'].
      * right; right. split; [done|]. split; [by right|].
        intros Hnd. unfold dict_keys in Hnd. simpl in Hnd.
        apply NoDup_cons in Hnd as [Hni _]. apply Hni.
        apply list_elem_of_fmap. by exists (k, v').
      * right; left. split; [done|]. by right.
    + intros Hin. apply elem_of_cons in Hin as [[= -> ->]|Hin].
      * right; left. split; [done|]. left.
      * destruct (IH Hin) as [?|[[? ?]|(? & ? & Hnd)]]; [by left| |].
        -- right; left. split; [done|]. by right.
        -- right; right. split; [done|]. split; [by right|].
           intros Hnd'. apply Hnd. unfold dict_keys in *. simpl in Hnd'.
           by apply NoDup_cons in Hnd' as [_ ?].
Qed.

Lemma dict_setitem_elem_of k v d : (k, v) ∈ dict_setitem k v d.
Proof.
  induction d as [|[k0 v0] d IH]; simpl; [left|].
  destruct (decide (k0 = k)) as [->|Hne]; [left|by right].
Qed.

Lemma dict_get_Some k v d : dict_get k d = Some v -> (k, v) ∈ d.
Proof.
  induction d as [|[k0 v0] d IH]; simpl; [done|].
  destruct (decide (k0 = k)) as [->|Hne]; [intros [= ->]; left|].
  intros H. right. by apply IH.
Qed.

Lemma elem_of_dict_get k v d :
  NoDup (dict_keys d) -> (k, v) ∈ d -> dict_get k d = Some v.
Proof.
  induction d as [|[k0 v0] d IH]; simpl; [by intros _ ?%elem_of_nil|].
  unfold dict_keys. simpl. intros [Hni Hnd]%NoDup_cons Hin.
  apply elem_of_cons in Hin as [[= -> ->]|Hin]; [by rewrite decide_True|].
  rewrite decide_False; [by apply IH|].
  intros ->. apply Hni. apply list_elem_of_fmap. by exists (k, v).
Qed.

Lemma dict_delitem_subseteq k d : dict_delitem k d ⊆ d.
Proof.
  induction d as [|[k0 v0] d IH]; simpl; [done|].
  destruct (decide (k0 = k)); [by apply list_subseteq_cons|].
  intros x Hx. apply elem_of_cons in Hx as [->|Hx]; [left|right; by apply IH].
Qed.

Lemma dict_delitem_NoDup k d :
  NoDup (dict_keys d) -> NoDup (dict_keys (dict_delitem k d)).
Proof.
  unfold dict_keys.
  induction d as [|[k0 v0] d IH]; simpl; [done|].
  intros [Hni Hnd]%NoDup_cons.
  destruct (decide (k0 = k)); [done|]. simpl.
  apply NoDup_cons. split; [|by apply IH].
  intros Hin. apply Hni. apply list_elem_of_fmap in Hin as ([k1 v1] & -> & Hin).
  apply list_elem_of_fmap. exists (k1, v1). split; [done|].
  by apply (dict_delitem_subseteq k d).
Qed.

Lemma dict_get_delitem_eq k d :
  NoDup (dict_keys d) -> dict_get k (dict_delitem k d) = None.
Proof.
  unfold dict_keys.
  induction d as [|[k0 v0] d IH]; simpl; [done|].
  intros [Hni Hnd]%NoDup_cons.
  destruct (decide (k0 = k)) as [->|Hne].
  - destruct (dict_get k d) as [v|] eqn:E; [|done].
    exfalso. apply Hni. apply dict_get_Some in E.
    apply list_elem_of_fmap. by exists (k, v).
  - simpl. rewrite decide_False by done. by apply IH.
Qed.

Lemma dict_setitem_length_present k v d :
  k ∈ dict_keys d -> length (dict_setitem k v d) = length d.
Proof.
  unfold dict_keys.
  induction d as [|[k0 v0] d IH]; simpl; [by intros ?%elem_of_nil|].
  destruct (decide (k0 = k)) as [->|Hne]; [done|].
  intros [?|Hin]%elem_of_cons; [done|]. simpl. by rewrite IH.
Qed.
End DictFacts.

(* ------------------------------------------------------------------ *)
(** Records the program builds, and the states it reaches *)

Lemma strptime_dmY_valid text dt :
  strptime_dmY text = inr dt -> valid_datetime dt.
Proof.
  unfold strptime_dmY.
  destruct (match_dmY text) as [[[[d m] y] rest]|]; [|discriminate].
  destruct rest; [|discriminate].
  destruct (py_int y) as [yv|]; [|discriminate].
  destruct (py_int m) as [mv|]; [|discriminate].
  destruct (py_int d) as [dv|]; [|discriminate].
  destruct (make_date yv mv dv) as [e|dd] eqn:E; [discriminate|].
  cbn [bind_exn]. intros [= <-].
  apply make_date_inr in E as [Hv ->].
  unfold valid_datetime, valid_date. cbn. repeat split; (done || lia).
Qed.

Lemma Birthday_init_valid text b :
  Birthday_init text = inr b -> valid_datetime (birthday_value b).
Proof.
  unfold Birthday_init.
  destruct (strptime_dmY text) as [[]|dt] eqn:E; try discriminate.
  intros [= <-]. by apply strptime_dmY_valid in E.
Qed.

Lemma Record_init_inr text r :
  Record_init text = inr r -> r = mkRecord (mkName text) [] None.
Proof.
  unfold Record_init, Name_init.
  destruct (_ || _); [discriminate|]. cbn [bind_exn]. by intros [= <-].
Qed.

Lemma run_op_birthday_valid op r :
  birthday_valid r -> birthday_valid (run_op op r).2.
Proof.
  intros Hr. destruct op; cbn [run_op].
  - rewrite add_phone_spec. by destruct (Phone_init _).
  - rewrite remove_phone_spec. by destruct (list_find _ _) as [[? ?]|].
  - rewrite edit_phone_spec. destruct (list_find _ _) as [[? ?]|]; [|done].
    by destruct (Phone_init _).
  - rewrite add_birthday_spec.
    destruct (Birthday_init _) as [e|b] eqn:E; [done|].
    intros b' [= <-]. by apply Birthday_init_valid in E.
Qed.

Lemma built_birthday_valid r : built r -> birthday_valid r.
Proof.
  induction 1 as [text r Hr|op r res r' _ IH Hop].
  - apply Record_init_inr in Hr as ->. by intros b.
  - pose proof (run_op_birthday_valid op r IH) as H. by rewrite Hop in H.
Qed.

Lemma add_record_names record book :
  names_match_keys book -> names_match_keys (add_record record book).
Proof.
  intros Hn key r Hin. unfold add_record in Hin. cbn [data] in Hin.
  apply elem_of_dict_setitem in Hin as [[-> ->]|[[_ Hin]|(_ & Hin & _)]];
    [done|by apply Hn..].
Qed.

Lemma add_record_wf record book :
  birthday_valid record -> book_wf book -> book_wf (add_record record book).
Proof.
  intros Hr [Hnd Hv]. split; unfold add_record; cbn [data].
  - by apply dict_setitem_NoDup.
  - unfold dict_values in *. apply Forall_forall. intros r Hin.
    apply list_elem_of_fmap in Hin as ([k r'] & -> & Hin).
    apply elem_of_dict_setitem in Hin as [[-> ->]|[[_ Hin]|(_ & Hin & _)]];
      [done| |];
      (rewrite Forall_forall in Hv; apply Hv;
       apply list_elem_of_fmap; by exists (k, r')).
Qed.

Lemma delete_inr name book book' :
  delete name book = inr book' ->
  book' = mkAddressBook (dict_delitem name (data book)).
Proof. unfold delete. destruct (dict_contains _ _); [by intros [= <-]|discriminate]. Qed.

Lemma delete_names name book book' :
  delete name book = inr book' -> names_match_keys book -> names_match_keys book'.
Proof.
  intros ->%delete_inr Hn key r Hin. apply Hn.
  by apply (dict_delitem_subseteq name (data book)).
Qed.

Lemma delete_wf name book book' :
  delete name book = inr book' -> book_wf book -> book_wf book'.
Proof.
  intros ->%delete_inr [Hnd Hv]. split; cbn [data].
  - by apply dict_delitem_NoDup.
  - unfold dict_values in *. rewrite Forall_forall in Hv. apply Forall_forall.
    intros r Hin. apply list_elem_of_fmap in Hin as ([k r'] & -> & Hin).
    apply Hv. apply list_elem_of_fmap. exists (k, r'). split; [done|].
    by apply (dict_delitem_subseteq name (data book)).
Qed.

Lemma call_on_Some name op book res book' :
  call_on name op book = Some (res, book') ->
  exists record,
    find name book = Some record
    /\ res = (run_op op record).1
    /\ book' = mkAddressBook (dict_setitem name (run_op op record).2 (data book)).
Proof.
  unfold call_on. destruct (find name book) as [record|]; [|discriminate].
  destruct (run_op op record) as [r record'] eqn:E. intros [= <- <-].
  exists record. by rewrite E.
Qed.

Lemma call_on_names name op book res book' :
  call_on name op book = Some (res, book') ->
  names_match_keys book -> names_match_keys book'.
Proof.
  intros (record & Hf & _ & ->)%call_on_Some Hn key r Hin. cbn [data] in Hin.
  apply dict_get_Some in Hf.
  apply elem_of_dict_setitem in Hin as [[-> ->]|[[_ Hin]|(_ & Hin & _)]];
    [|by apply Hn..].
  rewrite run_op_name. by apply Hn.
Qed.

Lemma call_on_wf name op book res book' :
  call_on name op book = Some (res, book') -> book_wf book -> book_wf book'.
Proof.
  intros (record & Hf & _ & ->)%call_on_Some [Hnd Hv]. split; cbn [data].
  - by apply dict_setitem_NoDup.
  - unfold dict_values in *. rewrite Forall_forall in Hv. apply Forall_forall.
    apply dict_get_Some in Hf.
    intros r Hin. apply list_elem_of_fmap in Hin as ([k r'] & -> & Hin).
    apply elem_of_dict_setitem in Hin as [[-> ->]|[[_ Hin]|(_ & Hin & _)]].
    + apply run_op_birthday_valid, Hv, list_elem_of_fmap. by exists (name, record).
    + apply Hv, list_elem_of_fmap. by exists (k, r').
    + apply Hv, list_elem_of_fmap. by exists (k, r').
Qed.

Lemma load_data_inv filename fs obj book' :
  files_inv fs ->
  load_data filename fs = inr obj -> AddressBook_of_obj obj = Some book' ->
  names_match_keys book' /\ book_wf book'.
Proof.
  intros Hfs Hload Hobj.
  destruct (fs !! filename) as [f|] eqn:E.
  - destruct (Hfs _ _ E) as (book & -> & Hn & Hwf).
    unfold load_data, open_rb in Hload. rewrite E in Hload. cbn [bind_exn] in Hload.
    rewrite (pickle_roundtrip _ (picklable_AddressBook _ Hwf)) in Hload.
    injection Hload as <-. rewrite AddressBook_of_obj_of in Hobj.
    by injection Hobj as <-.
  - rewrite (load_missing _ _ E) in Hload. injection Hload as <-.
    rewrite AddressBook_of_obj_of in Hobj. injection Hobj as <-.
    split; [by intros k r ?%elem_of_nil|]. split; constructor.
Qed.

Lemma reachable_inv fs book :
  reachable fs book -> files_inv fs /\ names_match_keys book /\ book_wf book.
Proof.
  induction 1 as [ | fs book record _ (Hfs & Hn & Hwf) Hb
                   | fs book name book' _ (Hfs & Hn & Hwf) Hd
                   | fs book name op r book' _ (Hfs & Hn & Hwf) Hc
                   | fs book filename _ (Hfs & Hn & Hwf)
                   | fs book filename obj book' _ (Hfs & Hn & Hwf) Hl Ho ].
  - split; [by intros f c ?|]. split; [by intros k r ?%elem_of_nil|].
    split; constructor.
  - split; [done|]. split; [by apply add_record_names|].
    apply add_record_wf; [by apply built_birthday_valid|done].
  - split; [done|]. split; [by eapply delete_names|by eapply delete_wf].
  - split; [done|]. split; [by eapply call_on_names|by eapply call_on_wf].
  - split; [|done]. intros f c Hf. unfold save_data in Hf.
    destruct (decide (filename = f)) as [->|Hne].
    + rewrite lookup_insert_eq in Hf. injection Hf as <-. by exists book.
    + rewrite lookup_insert_ne in Hf by done. by apply Hfs in Hf.
  - split; [done|]. by eapply load_data_inv.
Qed.

(** [rmatch] lists the splits of the text into a word of the expression
    and a rest, and nothing else. *)
Lemma rmatch_spec r : forall s a rest,
  In (a, rest) (rmatch r s) <-> s = a ++ rest /\ lang r a.
Proof.
  induction r as [p|r1 IH1 r2 IH2|r1 IH1 r2 IH2]; intros s a rest; cbn [rmatch lang].
  - destruct s as [|c s'].
    + split; [intros []|]. intros (Hs & c & -> & _). discriminate.
    + destruct (p c) eqn:Ep.
      * split.
        -- intros [[= <- <-]|[]]. split; [done|]. by exists c.
        -- intros (Hs & c' & -> & Hp). injection Hs as <- <-. by left.
      * split; [intros []|]. intros (Hs & c' & -> & Hp).
        injection Hs as <- <-. congruence.
  - rewrite in_flat_map. split.
    + intros ([a1 s1] & H1 & H2). apply IH1 in H1 as [-> L1].
      apply in_map_iff in H2 as ([b s2] & [= <- <-] & H2).
      apply IH2 in H2 as [-> L2]. split; [by rewrite app_assoc|].
      by exists a1, b.
    + intros (-> & w1 & w2 & -> & L1 & L2).
      exists (w1, w2 ++ rest). split; [apply IH1; by rewrite <- app_assoc|].
      apply in_map_iff. exists (w2, rest). split; [done|]. by apply IH2.
  - rewrite in_app_iff, IH1, IH2. tauto.
Qed.

Lemma lang_class p w : lang (Class p) w <-> exists c, w = [c] /\ p c = true.
Proof. done. Qed.

Lemma lang_re_d w : lang re_d w <-> day_text w = true.
Proof.
  unfold re_d, one, range, re_digit. cbn [lang]. split.
  - intros [H|[H|[H|[H|H]]]].
    + destruct H as (w1 & w2 & -> & (c1 & -> & H1) & (c2 & -> & H2)).
      cbn [app day_text]. rewrite H1. apply andb_prop in H2 as [-> ->]. done.
    + destruct H as (w1 & w2 & -> & (c1 & -> & H1) & (c2 & -> & H2)).
      cbn [app day_text]. apply andb_prop in H1 as [-> ->]. rewrite H2.
      cbn [andb]. by rewrite orb_true_r.
    + destruct H as (w1 & w2 & -> & (c1 & -> & H1) & (c2 & -> & H2)).
      cbn [app day_text]. rewrite H1. apply andb_prop in H2 as [-> ->].
      cbn [andb]. by rewrite !orb_true_r.
    + destruct H as (c & -> & H). done.
    + destruct H as (w1 & w2 & -> & (c1 & -> & H1) & (c2 & -> & H2)).
      cbn [app day_text]. rewrite H1. apply andb_prop in H2 as [-> ->].
      cbn [andb]. by rewrite !orb_true_r.
  - destruct w as [|c1 [|c2 [|c3 w]]]; cbn [day_text]; try discriminate.
    + intros H. right; right; right; left. by exists c1.
    + rewrite !orb_true_iff, !andb_true_iff. intros [[[H|H]|H]|H].
      * left. exists [c1], [c2]. split; [done|]. split; [exists c1|exists c2]; split; try done; try tauto.
        apply andb_true_iff; tauto.
      * right; left. exists [c1], [c2]. split; [done|]. split; [exists c1|exists c2]; split; try done; try tauto.
        apply andb_true_iff; tauto.
      * right; right; left. exists [c1], [c2]. split; [done|]. split; [exists c1|exists c2]; split; try done; try tauto.
        apply andb_true_iff; tauto.
      * right; right; right; right. exists [c1], [c2]. split; [done|]. split; [exists c1|exists c2]; split; try done; try tauto.
        apply andb_true_iff; tauto.
Qed.

Lemma lang_re_m w : lang re_m w <-> month_text w = true.
Proof.
  unfold re_m, one, range. cbn [lang]. split.
  - intros [H|[H|H]].
    + destruct H as (w1 & w2 & -> & (c1 & -> & H1) & (c2 & -> & H2)).
      cbn [app month_text]. rewrite H1. apply andb_prop in H2 as [-> ->]. done.
    + destruct H as (w1 & w2 & -> & (c1 & -> & H1) & (c2 & -> & H2)).
      cbn [app month_text]. rewrite H1. apply andb_prop in H2 as [-> ->].
      cbn [andb]. by rewrite !orb_true_r.
    + destruct H as (c & -> & H). done.
  - destruct w as [|c1 [|c2 [|c3 w]]]; cbn [month_text]; try discriminate.
    + intros H. right; right. by exists c1.
    + rewrite !orb_true_iff, !andb_true_iff. intros [H|H].
      * left. exists [c1], [c2]. split; [done|]. split; [exists c1|exists c2]; split; try done; try tauto.
        apply andb_true_iff; tauto.
      * right; left. exists [c1], [c2]. split; [done|]. split; [exists c1|exists c2]; split; try done; try tauto.
        apply andb_true_iff; tauto.
Qed.

Lemma lang_re_Y w : lang re_Y w <-> year_text w = true.
Proof.
  unfold re_Y, re_digit, year_text. cbn [lang]. split.
  - intros (w1 & w2 & -> & (c1 & -> & H1) & (w3 & w4 & -> & (c2 & -> & H2)
            & (w5 & w6 & -> & (c3 & -> & H3) & (c4 & -> & H4)))).
    cbn [app length Nat.eqb forallb andb]. by rewrite H1, H2, H3, H4.
  - destruct w as [|c1 [|c2 [|c3 [|c4 [|c5 w]]]]]; cbn [length Nat.eqb andb];
      try discriminate.
    cbn [forallb]. rewrite !andb_true_iff. intros (H1 & H2 & H3 & H4 & _).
    exists [c1], [c2; c3; c4]. split; [done|]. split; [by exists c1|].
    exists [c2], [c3; c4]. split; [done|]. split; [by exists c2|].
    exists [c3], [c4]. split; [done|]. split; [by exists c3|by exists c4].
Qed.

Lemma rmatch_one c s a rest :
  In (a, rest) (rmatch (one c) s) <-> s = c :: rest /\ a = [c].
Proof.
  rewrite rmatch_spec. unfold one. cbn [lang]. split.
  - intros (-> & c' & -> & Hc). apply N.eqb_eq in Hc as ->. done.
  - intros (-> & ->). split; [done|]. exists c. split; [done|]. apply N.eqb_refl.
Qed.

Lemma matches_dmY_In s d m y rest :
  In (d, m, y, rest) (matches_dmY s)
  <-> s = d ++ 46%N :: m ++ 46%N :: y ++ rest
      /\ day_text d = true /\ month_text m = true /\ year_text y = true.
Proof.
  unfold matches_dmY. rewrite in_flat_map. split.
  - intros ([d' s1] & H1 & H). apply rmatch_spec in H1 as [-> Hd].
    apply in_flat_map in H as ([p1 s2] & H2 & H).
    apply rmatch_one in H2 as [-> ->].
    apply in_flat_map in H as ([m' s3] & H3 & H).
    apply rmatch_spec in H3 as [-> Hm].
    apply in_flat_map in H as ([p2 s4] & H4 & H).
    apply rmatch_one in H4 as [-> ->].
    apply in_map_iff in H as ([y' s5] & [= <- <- <- <-] & H5).
    apply rmatch_spec in H5 as [-> Hy].
    split; [done|]. by rewrite <- lang_re_d, <- lang_re_m, <- lang_re_Y.
  - intros (-> & Hd & Hm & Hy).
    exists (d, 46%N :: m ++ 46%N :: y ++ rest). split.
    { apply rmatch_spec. split; [done|]. by apply lang_re_d. }
    apply in_flat_map. exists ([46%N], m ++ 46%N :: y ++ rest). split.
    { by apply rmatch_one. }
    apply in_flat_map. exists (m, 46%N :: y ++ rest). split.
    { apply rmatch_spec. split; [done|]. by apply lang_re_m. }
    apply in_flat_map. exists ([46%N], y ++ rest). split.
    { by apply rmatch_one. }
    apply in_map_iff. exists (y, rest). split; [done|].
    apply rmatch_spec. split; [done|]. by apply lang_re_Y.
Qed.

(** A day and a month hold no full stop, so the text splits in one way. *)
Lemma char_isdecimal_46 : char_isdecimal 46 = false.
Proof. by vm_compute. Qed.

Lemma day_text_no_dot d : day_text d = true -> ~ In 46%N d.
Proof.
  destruct d as [|c1 [|c2 [|c3 d]]]; cbn [day_text]; try discriminate.
  - rewrite andb_true_iff, !N.leb_le. intros H [->|[]]. lia.
  - rewrite !orb_true_iff, !andb_true_iff, !N.leb_le, !N.eqb_eq.
    intros H [->|[->|[]]].
    + lia.
    + rewrite char_isdecimal_46 in H. destruct H as [[[H|H]|H]|H]; lia.
Qed.

Lemma month_text_no_dot m : month_text m = true -> ~ In 46%N m.
Proof.
  destruct m as [|c1 [|c2 [|c3 d]]]; cbn [month_text]; try discriminate.
  - rewrite andb_true_iff, !N.leb_le. intros H [->|[]]. lia.
  - rewrite !orb_true_iff, !andb_true_iff, !N.leb_le, !N.eqb_eq.
    intros H [->|[->|[]]]; lia.
Qed.

Lemma split_at_dot (d d' t t' : list N) :
  ~ In 46%N d -> ~ In 46%N d' ->
  d ++ 46%N :: t = d' ++ 46%N :: t' -> d = d' /\ t = t'.
Proof.
  revert d'. induction d as [|c d IH]; intros [|c' d'] Hd Hd' H.
  - by injection H as <-.
  - injection H as <- _. exfalso. apply Hd'. by left.
  - injection H as -> _. exfalso. apply Hd. by left.
  - injection H as <- H.
    destruct (IH d') as [-> ->]; [|  |done|done].
    + intros ?. apply Hd. by right.
    + intros ?. apply Hd'. by right.
Qed.

Lemma year_text_length y : year_text y = true -> length y = 4%nat.
Proof. unfold year_text. rewrite andb_true_iff, Nat.eqb_eq. tauto. Qed.

Lemma matches_dmY_unique s x x' :
  In x (matches_dmY s) -> In x' (matches_dmY s) -> x = x'.
Proof.
  destruct x as [[[d m] y] rest], x' as [[[d' m'] y'] rest'].
  rewrite !matches_dmY_In. intros (-> & Hd & Hm & Hy) (H & Hd' & Hm' & Hy').
  apply split_at_dot in H as [-> H];
    [|by apply day_text_no_dot|by apply day_text_no_dot].
  apply split_at_dot in H as [-> H];
    [|by apply month_text_no_dot|by apply month_text_no_dot].
  apply app_inj_1 in H as [-> ->]; [done|].
  by rewrite !year_text_length.
Qed.

Lemma match_dmY_Some s d m y rest :
  match_dmY s = Some (d, m, y, rest)
  <-> s = d ++ 46%N :: m ++ 46%N :: y ++ rest
      /\ day_text d = true /\ month_text m = true /\ year_text y = true.
Proof.
  rewrite <- matches_dmY_In. unfold match_dmY. split.
  - intros H. destruct (matches_dmY s) as [|x l]; [discriminate|].
    injection H as ->. by left.
  - intros H. destruct (matches_dmY s) as [|x l] eqn:E; [destruct H|].
    cbn [head]. f_equal. apply (matches_dmY_unique s); rewrite E; [by left|done].
Qed.

Lemma match_dmY_None s :
  match_dmY s = None ->
  forall d m y rest,
    s = d ++ 46%N :: m ++ 46%N :: y ++ rest ->
    day_text d = true -> month_text m = true -> year_text y = true -> False.
Proof.
  intros H d m y rest Hs Hd Hm Hy.
  assert (match_dmY s = Some (d, m, y, rest)) as H' by (by apply match_dmY_Some).
  congruence.
Qed.

(* ------------------------------------------------------------------ *)
(** [int] on the texts of the groups *)

Lemma decimal_value_in_Some tbl c :
  in_ranges tbl c = true ->
  exists v, decimal_value_in tbl c = Some v /\ 0 <= v <= 9.
Proof.
  unfold in_ranges. induction tbl as [|[lo hi] tbl IH]; cbn [existsb decimal_value_in fst snd].
  - discriminate.
  - destruct ((lo <=? c)%N && (c <=? hi)%N).
    + intros _. eexists. split; [done|].
      assert ((c - lo) mod 10 < 10)%N as Hlt by (by apply N.mod_upper_bound).
      revert Hlt. generalize ((c - lo) mod 10)%N. intros x Hx. lia.
    + cbn [orb]. apply IH.
Qed.

Lemma decimal_value_Some c :
  char_isdecimal c = true -> exists v, decimal_value c = Some v /\ 0 <= v <= 9.
Proof. apply decimal_value_in_Some. Qed.

Lemma space_bound c : char_isspace c = true -> (c < 12289)%N.
Proof.
  unfold char_isspace, in_ranges, space_ranges. cbn [existsb fst snd].
  rewrite !orb_true_iff, !andb_true_iff, !N.leb_le. lia.
Qed.

Lemma decimal_not_space c : char_isdecimal c = true -> char_isspace c = false.
Proof.
  intros Hd. destruct (char_isspace c) eqn:Hs; [|done]. exfalso.
  assert (Forall (fun k => char_isdecimal k = false)
            [9; 10; 11; 12; 13; 28; 29; 30; 31; 32; 133; 160; 5760;
             8192; 8193; 8194; 8195; 8196; 8197; 8198; 8199; 8200; 8201;
             8202; 8232; 8233; 8239; 8287; 12288]%N) as Hall
    by (repeat constructor).
  rewrite Forall_forall in Hall. rewrite (Hall c) in Hd; [discriminate|].
  unfold char_isspace, in_ranges, space_ranges in Hs. cbn [existsb fst snd] in Hs.
  rewrite !orb_true_iff, !andb_true_iff, !N.leb_le in Hs.
  rewrite !elem_of_cons.
  lia.
Qed.

Lemma int_digits_Some s : forall acc,
  forallb char_isdecimal s = true -> exists v, int_digits acc s = Some v.
Proof.
  induction s as [|c s IH]; intros acc; cbn [forallb int_digits]; [by eexists|].
  rewrite andb_true_iff. intros [Hc Hs].
  destruct (decimal_value_Some c Hc) as (v & -> & _). by apply IH.
Qed.

Lemma py_int_decimals s :
  s <> [] -> forallb char_isdecimal s = true -> exists v, py_int s = Some v.
Proof.
  intros Hne Hs. unfold py_int. destruct s as [|c s]; [done|].
  cbn [lstrip]. cbn [forallb] in Hs. pose proof Hs as Hs'.
  apply andb_true_iff in Hs' as [Hc _].
  rewrite (decimal_not_space c Hc). by apply int_digits_Some.
Qed.

Lemma range_isdecimal (lo hi c : N) :
  (48 <= lo)%N -> (hi <= 57)%N -> (lo <=? c)%N && (c <=? hi)%N = true ->
  char_isdecimal c = true.
Proof.
  intros Hlo Hhi H. apply andb_true_iff in H as [H1%N.leb_le H2%N.leb_le].
  assert (is_ascii_digit c = true) as Ha.
  { unfold is_ascii_digit. apply andb_true_iff. rewrite !N.leb_le. lia. }
  destruct (isdigit_ascii c) as [_ ->]; [|done].
  unfold is_ascii_digit in Ha. apply andb_true_iff in Ha as [_ ?%N.leb_le]. lia.
Qed.

Lemma year_text_int y : year_text y = true -> exists v, py_int y = Some v.
Proof.
  unfold year_text. rewrite andb_true_iff, Nat.eqb_eq. intros [Hl Hd].
  apply py_int_decimals; [|done]. by intros ->.
Qed.

Lemma month_text_int m : month_text m = true -> exists v, py_int m = Some v.
Proof.
  destruct m as [|c1 [|c2 [|c3 m]]]; cbn [month_text]; try discriminate.
  - intros H. apply py_int_decimals; [done|]. cbn [forallb].
    by rewrite (range_isdecimal 49 57 c1) by (lia || done).
  - rewrite !orb_true_iff. intros H. apply py_int_decimals; [done|].
    cbn [forallb]. rewrite andb_true_r. apply andb_true_iff.
    destruct H as [H|H]; rewrite <- andb_assoc in H;
      apply andb_true_iff in H as [H1%N.eqb_eq H2]; subst c1.
    + split; [done|]. by apply (range_isdecimal 48 50); try lia.
    + split; [done|]. by apply (range_isdecimal 49 57); try lia.
Qed.

Lemma day_text_int d : day_text d = true -> exists v, py_int d = Some v.
Proof.
  destruct d as [|c1 [|c2 [|c3 d]]]; cbn [day_text]; try discriminate.
  - intros H. apply py_int_decimals; [done|]. cbn [forallb].
    by rewrite (range_isdecimal 49 57 c1) by (lia || done).
  - rewrite !orb_true_iff. intros [[[H|H]|H]|H].
    + rewrite <- andb_assoc in H. apply andb_true_iff in H as [H1%N.eqb_eq H2].
      subst c1. apply py_int_decimals; [done|]. cbn [forallb].
      rewrite (range_isdecimal 48 49 c2) by (lia || done). done.
    + apply andb_true_iff in H as [H1 H2].
      apply py_int_decimals; [done|]. cbn [forallb].
      rewrite (range_isdecimal 49 50 c1) by (lia || done). by rewrite H2.
    + rewrite <- andb_assoc in H. apply andb_true_iff in H as [H1%N.eqb_eq H2].
      subst c1. apply py_int_decimals; [done|]. cbn [forallb].
      rewrite (range_isdecimal 49 57 c2) by (lia || done). done.
    + rewrite <- andb_assoc in H. apply andb_true_iff in H as [H1%N.eqb_eq H2].
      subst c1. unfold py_int. cbn [lstrip].
      assert (char_isspace 32 = true) as -> by (by vm_compute).
      pose proof (range_isdecimal 49 57 c2 ltac:(lia) ltac:(lia) H2) as Hc.
      rewrite (decimal_not_space c2 Hc).
      apply int_digits_Some. cbn [forallb]. by rewrite Hc.
Qed.

(* ------------------------------------------------------------------ *)
(** [strptime] and [Birthday] *)

Lemma strptime_dmY_inr s dt :
  strptime_dmY s = inr dt
  <-> exists d m y dv mv yv,
        s = d ++ 46%N :: m ++ 46%N :: y
        /\ day_text d = true /\ month_text m = true /\ year_text y = true
        /\ py_int d = Some dv /\ py_int m = Some mv /\ py_int y = Some yv
        /\ valid_dateb yv mv dv = true
        /\ dt = mkdatetime (mkdate yv mv dv) 0 0 0 0 0.
Proof.
  unfold strptime_dmY. split.
  - destruct (match_dmY s) as [[[[d m] y] rest]|] eqn:E; [|discriminate].
    apply match_dmY_Some in E as (-> & Hd & Hm & Hy).
    destruct rest; [|discriminate].
    destruct (py_int y) as [yv|] eqn:Ey; [|discriminate].
    destruct (py_int m) as [mv|] eqn:Em; [|discriminate].
    destruct (py_int d) as [dv|] eqn:Ed; [|discriminate].
    destruct (make_date yv mv dv) as [e|dd] eqn:Emk; [discriminate|].
    cbn [bind_exn]. intros [= <-].
    apply make_date_inr in Emk as [Hv ->].
    exists d, m, y, dv, mv, yv. by rewrite app_nil_r.
  - intros (d & m & y & dv & mv & yv & -> & Hd & Hm & Hy & Ed & Em & Ey & Hv & ->).
    assert (match_dmY (d ++ 46%N :: m ++ 46%N :: y) = Some (d, m, y, [])) as ->.
    { apply match_dmY_Some. by rewrite app_nil_r. }
    rewrite Ey, Em, Ed, (make_date_valid _ _ _ Hv). done.
Qed.

Lemma strptime_dmY_inl s e :
  strptime_dmY s = inl e -> exists msg, e = ValueError msg.
Proof.
  unfold strptime_dmY, raise.
  destruct (match_dmY s) as [[[[d m] y] rest]|]; [|intros [= <-]; eauto].
  destruct rest; [|intros [= <-]; eauto].
  destruct (py_int y) as [yv|]; [|intros [= <-]; eauto].
  destruct (py_int m) as [mv|]; [|intros [= <-]; eauto].
  destruct (py_int d) as [dv|]; [|intros [= <-]; eauto].
  destruct (make_date yv mv dv) as [e'|dd] eqn:Emk; [|discriminate].
  cbn [bind_exn]. intros [= <-]. by apply make_date_inl in Emk.
Qed.

Lemma Birthday_init_inr s b :
  Birthday_init s = inr b <-> strptime_dmY s = inr (birthday_value b).
Proof.
  unfold Birthday_init. destruct (strptime_dmY s) as [e|dt] eqn:E.
  - apply strptime_dmY_inl in E as [msg ->]. split; discriminate.
  - split; [by intros [= <-]|]. intros [= ->]. by destruct b.
Qed.

Lemma Birthday_init_inl s e :
  Birthday_init s = inl e ->
  e = ValueError (lit "Invalid date format. Use DD.MM.YYYY").
Proof.
  unfold Birthday_init, raise. destruct (strptime_dmY s) as [e'|dt] eqn:E.
  - apply strptime_dmY_inl in E as [msg ->]. by intros [= <-].
  - discriminate.
Qed.

(** The strict shape [DD.MM.YYYY] *)
Lemma ascii_digit_value_Some c v :
  ascii_digit_value c = Some v ->
  is_ascii_digit c = true /\ v = Z.of_N c - 48 /\ 0 <= v <= 9.
Proof.
  unfold ascii_digit_value. destruct (is_ascii_digit c) eqn:E; [|discriminate].
  intros [= <-]. split; [done|]. split; [done|].
  unfold is_ascii_digit in E. apply andb_true_iff in E as [?%N.leb_le ?%N.leb_le].
  lia.
Qed.

Lemma ascii_digit_cases c :
  is_ascii_digit c = true ->
  (c = 48 \/ c = 49 \/ c = 50 \/ c = 51 \/ c = 52 \/ c = 53 \/ c = 54
   \/ c = 55 \/ c = 56 \/ c = 57)%N.
Proof.
  unfold is_ascii_digit. rewrite andb_true_iff, !N.leb_le. lia.
Qed.

Lemma decimal_value_ascii c :
  is_ascii_digit c = true -> decimal_value c = Some (Z.of_N c - 48).
Proof.
  intros H. apply ascii_digit_cases in H.
  repeat (destruct H as [->|H]; [reflexivity|]). by subst.
Qed.

Lemma py_int_ascii2 c1 c2 :
  is_ascii_digit c1 = true -> is_ascii_digit c2 = true ->
  py_int [c1; c2] = Some (10 * (Z.of_N c1 - 48) + (Z.of_N c2 - 48)).
Proof.
  intros H1 H2. unfold py_int. cbn [lstrip].
  rewrite (decimal_not_space c1)
    by (destruct (isdigit_ascii c1) as [_ ->]; [apply ascii_digit_cases in H1; lia|done]).
  cbn [int_digits]. rewrite (decimal_value_ascii _ H1), (decimal_value_ascii _ H2).
  f_equal; lia.
Qed.

Lemma py_int_ascii4 c1 c2 c3 c4 :
  is_ascii_digit c1 = true -> is_ascii_digit c2 = true ->
  is_ascii_digit c3 = true -> is_ascii_digit c4 = true ->
  py_int [c1; c2; c3; c4]
  = Some (1000 * (Z.of_N c1 - 48) + 100 * (Z.of_N c2 - 48)
          + 10 * (Z.of_N c3 - 48) + (Z.of_N c4 - 48)).
Proof.
  intros H1 H2 H3 H4. unfold py_int. cbn [lstrip].
  rewrite (decimal_not_space c1)
    by (destruct (isdigit_ascii c1) as [_ ->]; [apply ascii_digit_cases in H1; lia|done]).
  cbn [int_digits].
  rewrite (decimal_value_ascii _ H1), (decimal_value_ascii _ H2),
    (decimal_value_ascii _ H3), (decimal_value_ascii _ H4).
  f_equal; lia.
Qed.

Lemma day_text_strict c1 c2 :
  is_ascii_digit c1 = true -> is_ascii_digit c2 = true ->
  1 <= 10 * (Z.of_N c1 - 48) + (Z.of_N c2 - 48) <= 31 ->
  day_text [c1; c2] = true.
Proof.
  intros H1%ascii_digit_cases H2%ascii_digit_cases Hr.
  repeat (destruct H1 as [->|H1]); try subst c1;
    repeat (destruct H2 as [->|H2]); try subst c2;
    first [reflexivity | exfalso; lia].
Qed.

Lemma month_text_strict c1 c2 :
  is_ascii_digit c1 = true -> is_ascii_digit c2 = true ->
  1 <= 10 * (Z.of_N c1 - 48) + (Z.of_N c2 - 48) <= 12 ->
  month_text [c1; c2] = true.
Proof.
  intros H1%ascii_digit_cases H2%ascii_digit_cases Hr.
  repeat (destruct H1 as [->|H1]); try subst c1;
    repeat (destruct H2 as [->|H2]); try subst c2;
    first [reflexivity | exfalso; lia].
Qed.

Lemma ascii_digit_isdecimal c : is_ascii_digit c = true -> char_isdecimal c = true.
Proof.
  intros H. destruct (isdigit_ascii c) as [_ ->]; [|done].
  apply ascii_digit_cases in H. lia.
Qed.

Lemma days_in_month_le_31 y m : 1 <= m <= 12 -> days_in_month y m <= 31.
Proof.
  intros Hm. destruct (days_in_month_cases y m Hm) as [[_ ->]|(_ & -> & _)].
  - destruct (is_leap y); lia.
  - assert (m = 1 \/ m = 2 \/ m = 3 \/ m = 4 \/ m = 5 \/ m = 6 \/ m = 7 \/
            m = 8 \/ m = 9 \/ m = 10 \/ m = 11 \/ m = 12) as H by lia.
    repeat (destruct H as [->|H]; [simpl; lia|]). subst. simpl. lia.
Qed.

Lemma Birthday_init_strict s d :
  spec_DDMMYYYY s = Some d ->
  Birthday_init s = inr (mkBirthday (mkdatetime d 0 0 0 0 0)).
Proof.
  unfold spec_DDMMYYYY.
  destruct s as [|d1 [|d2 [|p1 [|m1 [|m2 [|p2 [|y1 [|y2 [|y3 [|y4 [|? ?]]]]]]]]]]];
    try discriminate.
  destruct ((p1 =? 46)%N && (p2 =? 46)%N) eqn:Ep; [|discriminate].
  apply andb_true_iff in Ep as [->%N.eqb_eq ->%N.eqb_eq].
  destruct (ascii_digit_value d1) as [vd1|] eqn:Ed1; [|discriminate].
  destruct (ascii_digit_value d2) as [vd2|] eqn:Ed2; [|discriminate].
  destruct (ascii_digit_value m1) as [vm1|] eqn:Em1; [|discriminate].
  destruct (ascii_digit_value m2) as [vm2|] eqn:Em2; [|discriminate].
  destruct (ascii_digit_value y1) as [vy1|] eqn:Ey1; [|discriminate].
  destruct (ascii_digit_value y2) as [vy2|] eqn:Ey2; [|discriminate].
  destruct (ascii_digit_value y3) as [vy3|] eqn:Ey3; [|discriminate].
  destruct (ascii_digit_value y4) as [vy4|] eqn:Ey4; [|discriminate].
  cbn [mbind option_bind].
  destruct (valid_dateb _ _ _) eqn:Hv; [|discriminate]. intros [= <-].
  apply ascii_digit_value_Some in Ed1 as (Ad1 & -> & _), Ed2 as (Ad2 & -> & _),
    Em1 as (Am1 & -> & _), Em2 as (Am2 & -> & _), Ey1 as (Ay1 & -> & _),
    Ey2 as (Ay2 & -> & _), Ey3 as (Ay3 & -> & _), Ey4 as (Ay4 & -> & _).
  pose proof (valid_dateb_year _ _ _ Hv) as (Hy & Hm & Hd).
  match type of Hd with
  | _ <= _ <= days_in_month ?y ?m =>
      pose proof (days_in_month_le_31 y m Hm) as Hdim
  end.
  apply Birthday_init_inr. cbn [birthday_value]. apply strptime_dmY_inr.
  exists [d1; d2], [m1; m2], [y1; y2; y3; y4]. do 3 eexists.
  split; [reflexivity|].
  split; [apply day_text_strict; (done || lia)|].
  split; [apply month_text_strict; (done || lia)|].
  split.
  { unfold year_text. cbn [length Nat.eqb forallb andb].
    by rewrite !ascii_digit_isdecimal. }
  split; [by apply py_int_ascii2|]. split; [by apply py_int_ascii2|].
  split; [by apply py_int_ascii4|]. split; [exact Hv|reflexivity].
Qed.

(* ------------------------------------------------------------------ *)
(** Upcoming birthdays *)

Lemma sample_book_birthdays :
  Forall birthday_valid (dict_values (data sample_book)).
Proof.
  repeat apply Forall_cons_2; [..|apply Forall_nil_2];
    intros b [= <-]; unfold valid_datetime, valid_date;
    cbn [birthday_value dt_date year month day hour minute second
         microsecond fold];
    repeat split; first [reflexivity | lia].
Qed.

Lemma sample_book_wf : book_wf sample_book.
Proof.
  split; [|exact sample_book_birthdays].
  apply NoDup_decide. vm_compute. reflexivity.
Qed.

Lemma spec_included_iff today days r :
  valid_date today -> year today < MAXYEAR -> birthday_valid r ->
  spec_included today days r = true
  <-> exists b candidate,
        birthday r = Some b
        /\ next_birthday today (datetime_date (birthday_value b)) = inr candidate
        /\ 0 <= days_between candidate today <= days.
Proof.
  intros Ht Hy Hr. unfold spec_included, days_between. split.
  - destruct (birthday r) as [b|] eqn:Eb; [|discriminate].
    destruct (Hr b Eb) as [Hvb _].
    destruct (next_birthday_spec today (datetime_date (birthday_value b)) Ht Hy Hvb)
      as [Hn _].
    rewrite andb_true_iff, !Z.leb_le. intros H. exists b. eexists.
    split; [done|]. split; [exact Hn|exact H].
  - intros (b & c & Eb & Hn & H). rewrite Eb.
    destruct (Hr b Eb) as [Hvb _].
    destruct (next_birthday_spec today (datetime_date (birthday_value b)) Ht Hy Hvb)
      as [Hn' _].
    rewrite Hn' in Hn. injection Hn as <-.
    by rewrite andb_true_iff, !Z.leb_le.
Qed.

(** C1: for every record with a birthday, [get_upcoming_birthdays] places
    the birth month and day in the current year (29 February becomes the
    28th in a year that is not a leap year), takes the next year instead
    when that date is strictly before today, and reports the record if and
    only if the candidate date is between 0 and [days] days from today,
    both ends included; born on 29.02.2000 and evaluated in 2025, the
    candidate in the current year is 28.02.2025. *)
Theorem upcoming_birthdays_window
    (today : date) (pad_year : bool) (days : Z) (book : AddressBook) :
  valid_date today -> year today < MAXYEAR ->
  Forall birthday_valid (dict_values (data book)) ->
  (forall birth, valid_date birth ->
     birthday_in_year birth (year today) = inr (spec_in_year birth (year today))
     /\ next_birthday today birth = inr (spec_candidate today birth))
  /\ (exists result,
        get_upcoming_birthdays today pad_year days book = inr result
        /\ u_name <$> result
           = (fun r => name_value (name r))
               <$> List.filter (spec_included today days)
                     (dict_values (data book)))
  /\ (forall r, r ∈ dict_values (data book) ->
        (spec_included today days r = true
         <-> exists b candidate,
               birthday r = Some b
               /\ next_birthday today (datetime_date (birthday_value b))
                  = inr candidate
               /\ 0 <= days_between candidate today <= days))
  /\ (year today = 2025 ->
        Birthday_init (lit "29.02.2000")
        = inr (mkBirthday (mkdatetime (mkdate 2000 2 29) 0 0 0 0 0))
        /\ birthday_in_year (mkdate 2000 2 29) (year today)
           = inr (mkdate 2025 2 28)
        /\ (date_ltb (mkdate 2025 2 28) today = false ->
            next_birthday today (mkdate 2000 2 29) = inr (mkdate 2025 2 28))).
Proof.
  intros Ht Hy Hbook.
  pose proof (valid_dateb_year _ _ _ Ht) as (Hty & _ & _).
  split; [|split; [|split]].
  - intros birth Hb. split.
    + apply birthday_in_year_spec; [done|]. unfold MAXYEAR in Hy. lia.
    + by apply next_birthday_spec.
  - eexists. split; [by apply get_upcoming_birthdays_spec|].
    apply spec_report_names.
  - intros r Hr. apply spec_included_iff; try done.
    rewrite Forall_forall in Hbook. by apply Hbook.
  - intros H2025. split; [vm_compute; reflexivity|].
    assert (birthday_in_year (mkdate 2000 2 29) (year today)
            = inr (mkdate 2025 2 28)) as Hin
      by (rewrite H2025; vm_compute; reflexivity).
    split; [exact Hin|].
    intros Hlt. unfold next_birthday. rewrite Hin. cbn [bind_exn].
    by rewrite Hlt.
Qed.

Lemma upcoming_birthdays_window_witness :
  exists result,
    get_upcoming_birthdays (mkdate 2025 2 22) false 7 sample_book = inr result
    /\ u_name <$> result = [lit "Bob"].
Proof.
  destruct (upcoming_birthdays_window (mkdate 2025 2 22) false 7 sample_book)
    as (_ & (result & Hres & Hnames) & _).
  - vm_compute. reflexivity.
  - vm_compute. reflexivity.
  - exact sample_book_birthdays.
  - exists result. split; [exact Hres|]. rewrite Hnames. vm_compute. reflexivity.
Defined.

Lemma congratulation_is_spec candidate :
  valid_date candidate ->
  congratulation candidate = inr (spec_congratulation candidate)
  /\ valid_date (spec_congratulation candidate)
  /\ toordinal (spec_congratulation candidate)
     = toordinal candidate + spec_shift candidate.
Proof.
  intros Hv. destruct (congratulation_spec _ Hv) as (c & Hc & Hvc & Ho).
  assert (spec_congratulation candidate = c) as ->; [|done].
  unfold spec_congratulation, fromordinal. rewrite <- Ho.
  destruct (ord2ymd_spec _ (toordinal_bounds _ Hvc)) as [Hv' Ho'].
  by apply toordinal_inj.
Qed.

Lemma congratulation_shift candidate :
  valid_date candidate ->
  toordinal (spec_congratulation candidate)
  = toordinal candidate
    + (if weekday candidate =? 5 then 2
       else if weekday candidate =? 6 then 1 else 0).
Proof.
  intros Hv. destruct (congratulation_is_spec _ Hv) as (_ & _ & Ho).
  rewrite Ho. unfold spec_shift. reflexivity.
Qed.

Lemma year_le_of_toordinal d1 d2 :
  valid_date d1 -> valid_date d2 -> toordinal d1 <= toordinal d2 ->
  year d1 <= year d2.
Proof.
  intros H1 H2 Hle.
  destruct (Z.le_gt_cases (year d1) (year d2)) as [|Hgt]; [done|].
  pose proof (date_ltb_toordinal d2 d1 H2 H1) as Hlt.
  unfold date_ltb in Hlt at 1.
  rewrite (proj2 (Z.ltb_lt _ _)) in Hlt by lia. cbn [orb] in Hlt.
  symmetry in Hlt. apply Z.ltb_lt in Hlt. lia.
Qed.

Lemma spec_candidate_year today birth :
  year today <= year (spec_candidate today birth).
Proof.
  unfold spec_candidate, spec_in_year.
  repeat match goal with |- context [if ?b then _ else _] => destruct b end;
    cbn [year]; lia.
Qed.

Lemma spec_shift_nonneg candidate : 0 <= spec_shift candidate <= 2.
Proof.
  unfold spec_shift.
  repeat match goal with |- context [if ?b then _ else _] => destruct b end; lia.
Qed.

Lemma spec_report_reported today pad days r :
  valid_date today -> year today < MAXYEAR ->
  (pad = true \/ 1000 <= year today) ->
  birthday_valid r -> spec_included today days r = true ->
  exists e, spec_report pad today days r = Some e /\ reported today pad r e.
Proof.
  intros Ht Hy Hpad Hr Hin.
  destruct (spec_report_included pad _ _ _ Hin) as (b & Eb & ->).
  eexists. split; [reflexivity|].
  destruct (Hr b Eb) as [Hvb _].
  destruct (next_birthday_spec today (datetime_date (birthday_value b)) Ht Hy Hvb)
    as [Hn Hvc].
  destruct (congratulation_is_spec _ Hvc) as (Hc & Hvg & Ho).
  pose proof (spec_candidate_year today (datetime_date (birthday_value b))) as Hyc.
  pose proof (spec_shift_nonneg (spec_candidate today (datetime_date (birthday_value b)))) as Hs.
  assert (year (spec_candidate today (datetime_date (birthday_value b)))
          <= year (spec_congratulation
                     (spec_candidate today (datetime_date (birthday_value b)))))
    as Hyg by (apply year_le_of_toordinal; [done|done|lia]).
  pose proof (congratulation_shift _ Hvc) as Ho'.
  exists b, (spec_candidate today (datetime_date (birthday_value b))),
    (spec_congratulation
       (spec_candidate today (datetime_date (birthday_value b)))).
  split; [exact Eb|]. split; [exact Hn|]. split; [exact Hc|].
  split; [exact Hvg|]. split; [exact Ho'|]. split; [reflexivity|].
  split; apply strftime_DDMMYYYY; try done; destruct Hpad; auto; right; lia.
Qed.

Lemma reported_all today pad days records :
  valid_date today -> year today < MAXYEAR ->
  (pad = true \/ 1000 <= year today) ->
  Forall birthday_valid records ->
  Forall2 (reported today pad)
    (List.filter (spec_included today days) records)
    (omap (spec_report pad today days) records).
Proof.
  intros Ht Hy Hpad. induction 1 as [|r records Hr _ IH]; [constructor|].
  cbn [List.filter omap list_omap].
  destruct (spec_included today days r) eqn:E.
  - destruct (spec_report_reported today pad days r Ht Hy Hpad Hr E)
      as (e & -> & He).
    by constructor.
  - by rewrite (spec_report_excluded pad _ _ _ E).
Qed.

(** C2: for every record [get_upcoming_birthdays] reports, the date of
    congratulation is the candidate date plus 2 days when that is a
    Saturday, plus 1 day when it is a Sunday, and the candidate date
    itself otherwise; the entry holds the name of the contact and the two
    dates written [DD.MM.YYYY].  (The C library writes the year: it has
    four digits from year 1000 on, and on every platform that fills with
    zeros.) *)
Theorem congratulation_dates
    (today : date) (pad_year : bool) (days : Z) (book : AddressBook) :
  valid_date today -> year today < MAXYEAR ->
  (pad_year = true \/ 1000 <= year today) ->
  Forall birthday_valid (dict_values (data book)) ->
  exists result,
    get_upcoming_birthdays today pad_year days book = inr result
    /\ Forall2
         (fun r e =>
            exists b candidate congratulation_date,
              birthday r = Some b
              /\ next_birthday today (datetime_date (birthday_value b))
                 = inr candidate
              /\ congratulation candidate = inr congratulation_date
              /\ valid_date congratulation_date
              /\ toordinal congratulation_date
                 = toordinal candidate
                   + (if weekday candidate =? 5 then 2
                      else if weekday candidate =? 6 then 1 else 0)
              /\ e = mkUpcoming (name_value (name r))
                       (strftime_dmY pad_year candidate)
                       (strftime_dmY pad_year congratulation_date)
              /\ spec_DDMMYYYY (strftime_dmY pad_year candidate)
                 = Some candidate
              /\ spec_DDMMYYYY (strftime_dmY pad_year congratulation_date)
                 = Some congratulation_date)
         (List.filter (spec_included today days) (dict_values (data book)))
         result.
Proof.
  intros Ht Hy Hpad Hbook. eexists.
  split; [by apply get_upcoming_birthdays_spec|].
  exact (reported_all today pad_year days _ Ht Hy Hpad Hbook).
Qed.

Lemma congratulation_dates_witness :
  get_upcoming_birthdays (mkdate 2024 6 10) false 7 sample_book
  = inr [mkUpcoming (lit "Ann") (lit "15.06.2024") (lit "17.06.2024")]
  /\ weekday (mkdate 2024 6 15) = 5.
Proof.
  destruct (congratulation_dates (mkdate 2024 6 10) false 7 sample_book)
    as (result & Hres & Hall).
  - vm_compute. reflexivity.
  - vm_compute. reflexivity.
  - right. vm_compute. discriminate.
  - exact sample_book_birthdays.
  - split; [|vm_compute; reflexivity]. rewrite Hres. clear Hall.
    vm_compute in Hres. injection Hres as <-. vm_compute. reflexivity.
Defined.

(* ------------------------------------------------------------------ *)
(** Persistence and the fields *)

(** C3: saving a book and loading the file again gives a book with the
    same contents: the same names in the same order, for each contact the
    same phones in the same order, and the same birthday or none. *)
Theorem save_load_roundtrip
    (book : AddressBook) (filename : list N)
    (fs : gmap (list N) (list opcode)) :
  book_wf book ->
  exists obj,
    load_data filename (save_data book filename fs) = inr obj
    /\ obj = obj_of_AddressBook book
    /\ AddressBook_of_obj obj = Some book.
Proof.
  intros Hwf. exists (obj_of_AddressBook book).
  split; [by apply load_save|]. split; [reflexivity|].
  apply AddressBook_of_obj_of.
Qed.

Lemma save_load_roundtrip_witness :
  exists obj,
    load_data default_filename (save_data sample_book default_filename ∅)
    = inr obj
    /\ AddressBook_of_obj obj = Some sample_book.
Proof.
  destruct (save_load_roundtrip sample_book default_filename ∅ sample_book_wf)
    as (obj & Hload & _ & Hbook).
  exists obj. split; [exact Hload|exact Hbook].
Defined.

(** C4, counterexample: ten times the superscript two (U+00B2) is a phone
    number for the program, though none of the ten characters is an ASCII
    digit, or a decimal digit at all. *)
Lemma Phone_init_superscript_digits :
  Phone_init (replicate 10 178%N) = inr (mkPhone (replicate 10 178%N))
  /\ length (replicate 10 178%N : list N) = 10%nat
  /\ is_ascii_digit 178 = false
  /\ char_isdecimal 178 = false.
Proof. repeat split; vm_compute; reflexivity. Qed.

(** C4, as amended: [Phone] accepts a text if and only if it has ten
    characters that are all digits for [str.isdigit], which holds of the
    ten ASCII digits and of other digits of Unicode; every text of ten
    ASCII digits is accepted; every other text is refused with
    [ValueError]; among texts of ASCII characters, exactly those of ten
    decimal digits are accepted. *)
Theorem Phone_init_accepts (s : list N) :
  (length s = 10%nat -> Forall (fun c => is_ascii_digit c = true) s ->
   Phone_init s = inr (mkPhone s))
  /\ (Phone_init s = inr (mkPhone s)
      <-> length s = 10%nat /\ Forall (fun c => char_isdigit c = true) s)
  /\ (forall p, Phone_init s = inr p -> p = mkPhone s)
  /\ (length s <> 10%nat \/ Exists (fun c => char_isdigit c = false) s ->
      exists msg, Phone_init s = inl (ValueError msg))
  /\ (Forall (fun c => (c < 128)%N) s ->
      length s <> 10%nat \/ Exists (fun c => is_ascii_digit c = false) s ->
      exists msg, Phone_init s = inl (ValueError msg)).
Proof.
  assert (Hiff : Phone_init s = inr (mkPhone s)
                 <-> length s = 10%nat
                     /\ Forall (fun c => char_isdigit c = true) s).
  { rewrite Phone_init_inr, forallb_forall, Forall_forall.
    setoid_rewrite <- list_elem_of_In. tauto. }
  assert (Hfail : length s <> 10%nat
                  \/ Exists (fun c => char_isdigit c = false) s ->
                  exists msg, Phone_init s = inl (ValueError msg)).
  { intros H. destruct (Phone_init s) as [e|p] eqn:E.
    - apply Phone_init_inl in E as [[_ ->]|(_ & _ & ->)]; eauto.
    - exfalso. apply Phone_init_inr in E as (_ & Hl & Hd).
      destruct H as [H|H]; [done|].
      apply Exists_exists in H as (c & Hc & Hf).
      rewrite forallb_forall in Hd. apply list_elem_of_In in Hc.
      rewrite (Hd c Hc) in Hf. discriminate. }
  split; [|split; [exact Hiff|split; [|split; [exact Hfail|]]]].
  - intros Hl Hd. apply Hiff. split; [done|].
    eapply Forall_impl; [exact Hd|]. intros c. apply ascii_digit_isdigit.
  - intros p Hp. by apply Phone_init_inr in Hp as [-> _].
  - intros Hascii [Hl|Hex]; apply Hfail; [by left|right].
    apply Exists_exists in Hex as (c & Hc & Hf). apply Exists_exists.
    exists c. split; [done|].
    rewrite Forall_forall in Hascii.
    destruct (isdigit_ascii c (Hascii c Hc)) as [-> _]. done.
Qed.

Lemma Phone_init_accepts_witness :
  Phone_init (lit "0501234567") = inr (mkPhone (lit "0501234567"))
  /\ (exists msg, Phone_init (lit "050123456x") = inl (ValueError msg)).
Proof.
  split.
  - apply (proj1 (Phone_init_accepts (lit "0501234567"))); [reflexivity|].
    repeat constructor.
  - apply (proj2 (proj2 (proj2 (proj2 (Phone_init_accepts (lit "050123456x")))))).
    + repeat constructor.
    + right. repeat (first [apply Exists_cons_hd; reflexivity | apply Exists_cons_tl]).
Defined.

(** C5, counterexample: the text ["1.2.2020"] has not the shape
    [DD.MM.YYYY], and [Birthday] takes it, as 1 February 2020. *)
Lemma Birthday_init_short_day_month :
  spec_DDMMYYYY (lit "1.2.2020") = None
  /\ Birthday_init (lit "1.2.2020")
     = inr (mkBirthday (mkdatetime (mkdate 2020 2 1) 0 0 0 0 0)).
Proof. split; vm_compute; reflexivity. Qed.

(** C5, as amended: [Birthday] accepts every text [DD.MM.YYYY] that is a
    date of the calendar from year 0001 on, and stores the date; the texts
    it accepts are those [strptime] reads with ["%d.%m.%Y"]: a day (one
    or two digits, or a space and a digit), a full stop, a month (one or
    two digits), a full stop and a year of four digits, that make a date
    of the calendar; every other text is refused with the [ValueError] of
    the program.  ["31.02.2020"] and ["29.02.2021"] are refused,
    ["29.02.2020"] is accepted. *)
Theorem Birthday_init_accepts (s : list N) :
  (forall d, spec_DDMMYYYY s = Some d ->
     Birthday_init s = inr (mkBirthday (mkdatetime d 0 0 0 0 0)))
  /\ (forall b,
        Birthday_init s = inr b
        <-> exists d m y dv mv yv,
              s = d ++ lit "." ++ m ++ lit "." ++ y
              /\ day_text d = true /\ month_text m = true
              /\ year_text y = true
              /\ py_int d = Some dv /\ py_int m = Some mv
              /\ py_int y = Some yv
              /\ valid_dateb yv mv dv = true
              /\ b = mkBirthday (mkdatetime (mkdate yv mv dv) 0 0 0 0 0))
  /\ (forall e, Birthday_init s = inl e ->
        e = ValueError (lit "Invalid date format. Use DD.MM.YYYY"))
  /\ Birthday_init (lit "31.02.2020")
     = inl (ValueError (lit "Invalid date format. Use DD.MM.YYYY"))
  /\ Birthday_init (lit "29.02.2021")
     = inl (ValueError (lit "Invalid date format. Use DD.MM.YYYY"))
  /\ Birthday_init (lit "29.02.2020")
     = inr (mkBirthday (mkdatetime (mkdate 2020 2 29) 0 0 0 0 0)).
Proof.
  split; [intros d; apply Birthday_init_strict|].
  split.
  { intros b. rewrite Birthday_init_inr, strptime_dmY_inr.
    change (lit ".") with [46%N]. cbn [app].
    split; intros (d & m & y & dv & mv & yv & H); exists d, m, y, dv, mv, yv;
      destruct H as (Hs & Hd & Hm & Hy & Ed & Em & Ey & Hv & Hb);
      repeat (split; [assumption|]).
    - destruct b as [dt]. cbn [birthday_value] in Hb. by rewrite Hb.
    - by rewrite Hb. }
  split; [intros e; apply Birthday_init_inl|].
  repeat split; vm_compute; reflexivity.
Qed.

Lemma Birthday_init_accepts_witness :
  Birthday_init (lit "10.06.1990")
  = inr (mkBirthday (mkdatetime (mkdate 1990 6 10) 0 0 0 0 0)).
Proof.
  apply (proj1 (Birthday_init_accepts (lit "10.06.1990"))).
  vm_compute. reflexivity.
Defined.

(* ------------------------------------------------------------------ *)
(** The book and its records *)

(** C6: [add_record] followed by [find] with the record's name gives that
    record, so a record of that name; a record stored under the name before
    is replaced as a whole: what [find] gives has the phones of the new
    record, no other entry stays under the name, the other names keep
    their records, and the book does not grow.  [add_record] is a total
    function: no book and no record make it fail. *)
Theorem add_record_find (record : ContactRecord) (book : AddressBook) :
  find (name_value (name record)) (add_record record book) = Some record
  /\ (forall found,
        find (name_value (name record)) (add_record record book) = Some found ->
        name found = name record /\ phones found = phones record
        /\ birthday found = birthday record)
  /\ (forall other,
        other <> name_value (name record) ->
        find other (add_record record book) = find other book)
  /\ (NoDup (dict_keys (data book)) ->
      forall r, (name_value (name record), r) ∈ data (add_record record book) ->
                r = record)
  /\ (is_Some (find (name_value (name record)) book) ->
      length (data (add_record record book)) = length (data book)
      /\ dict_keys (data (add_record record book)) = dict_keys (data book)).
Proof.
  unfold find, add_record. cbn [data].
  split; [apply dict_get_setitem_eq|].
  split.
  { intros found. rewrite dict_get_setitem_eq. by intros [= <-]. }
  split.
  { intros other Hne. by apply dict_get_setitem_ne. }
  split.
  { intros Hnd r Hin.
    apply elem_of_dict_setitem in Hin as [[_ ->]|[[Hne _]|(_ & _ & Hdup)]];
      [reflexivity|congruence|contradiction]. }
  intros [old Hold]. apply dict_get_Some in Hold.
  assert (name_value (name record) ∈ dict_keys (data book)) as Hin.
  { apply list_elem_of_fmap. by exists (name_value (name record), old). }
  split; [by apply dict_setitem_length_present|].
  rewrite dict_keys_setitem. by rewrite decide_True.
Qed.

Lemma add_record_find_witness :
  find (lit "Eve")
       (add_record (mkRecord (mkName (lit "Eve")) [] None) sample_book)
  = Some (mkRecord (mkName (lit "Eve")) [] None)
  /\ length (data (add_record (mkRecord (mkName (lit "Eve")) [] None)
                              sample_book)) = 3%nat.
Proof.
  pose proof (add_record_find (mkRecord (mkName (lit "Eve")) [] None)
                              sample_book) as (Hfind & _ & _ & _ & Hlen).
  split; [exact Hfind|].
  destruct Hlen as [Hlen _]; [|exact Hlen].
  eexists. vm_compute. reflexivity.
Defined.

(** C7, counterexample: a record built with the same phone added twice;
    after the edit of ["1111111111"] to ["2222222222"], [find_phone] still
    finds ["1111111111"], the second entry. *)
Lemma edit_phone_duplicate_remains :
  let r0 := mkRecord (mkName (lit "Ann")) [] None in
  let r2 := mkRecord (mkName (lit "Ann"))
              [mkPhone (lit "1111111111"); mkPhone (lit "1111111111")] None in
  let r3 := mkRecord (mkName (lit "Ann"))
              [mkPhone (lit "2222222222"); mkPhone (lit "1111111111")] None in
  Record_init (lit "Ann") = inr r0
  /\ (x <~ add_phone (lit "1111111111"); add_phone (lit "1111111111")) r0
     = (inr tt, r2)
  /\ edit_phone (lit "1111111111") (lit "2222222222") r2 = (inr tt, r3)
  /\ find_phone (lit "1111111111") r3
     = (inr (Some (mkPhone (lit "1111111111"))), r3).
Proof. repeat split; vm_compute; reflexivity. Qed.

(** C7, as amended: [edit_phone] fails with the [ValueError] of the
    program when no phone equal to the old text is present; fails as
    [Phone] does when the new text is no phone; and otherwise puts the new
    phone in the place of the first entry equal to the old text, all other
    entries and the order unchanged.  After the edit the new text is
    found; the old text is found no more exactly when it differs from the
    new text and no other entry was equal to it. *)
Theorem edit_phone_replaces_first (old_phone new_phone : str) (r : ContactRecord) :
  (find_phone_in (phones r) old_phone = None ->
   edit_phone old_phone new_phone r
   = (inl (ValueError (lit "Phone " ++ old_phone ++ lit " not found")), r))
  /\ (forall e,
        find_phone_in (phones r) old_phone <> None ->
        Phone_init new_phone = inl e ->
        edit_phone old_phone new_phone r = (inl e, r))
  /\ (forall p,
        find_phone_in (phones r) old_phone <> None ->
        Phone_init new_phone = inr p ->
        exists i ps',
          edit_phone old_phone new_phone r
          = (inr tt, mkRecord (name r) ps' (birthday r))
          /\ phones r !! i = Some (mkPhone old_phone)
          /\ (forall j q, (j < i)%nat -> phones r !! j = Some q ->
                          phone_value q <> old_phone)
          /\ length ps' = length (phones r)
          /\ ps' !! i = Some (mkPhone new_phone)
          /\ (forall j, j <> i -> ps' !! j = phones r !! j)
          /\ find_phone_in ps' new_phone = Some (mkPhone new_phone)
          /\ (find_phone_in ps' old_phone = None
              <-> old_phone <> new_phone
                  /\ forall j q, j <> i -> phones r !! j = Some q ->
                                 phone_value q <> old_phone)).
Proof.
  rewrite edit_phone_spec, find_phone_in_list_find.
  destruct (list_find _ (phones r)) as [[i q]|] eqn:E; cbn [fmap option_fmap option_map].
  2: { split; [done|]. split; [intros e H; by destruct H|intros p H; by destruct H]. }
  split; [discriminate|]. split; [by intros e _ ->|].
  intros p _ Hp. rewrite Hp.
  apply Phone_init_inr in Hp as (-> & _ & _).
  apply list_find_Some in E as (Hi & Hq & Hbefore).
  destruct q as [qv]. cbn [phone_value] in Hq. subst qv.
  pose proof (lookup_lt_Some _ _ _ Hi) as Hlt.
  exists i, (<[i := mkPhone new_phone]> (phones r)).
  split; [reflexivity|]. split; [exact Hi|].
  split; [intros j q' Hj Hq'; by apply (Hbefore j q')|].
  split; [apply length_insert|].
  split; [by apply list_lookup_insert_eq|].
  split; [intros j Hj; by apply list_lookup_insert_ne|].
  split.
  - destruct (find_phone_in _ new_phone) as [p'|] eqn:Ef.
    + by apply find_phone_in_Some in Ef as [-> _].
    + exfalso. rewrite find_phone_in_None in Ef.
      apply (Ef (mkPhone new_phone)); [|done].
      eapply list_elem_of_lookup_2. by apply list_lookup_insert_eq.
  - rewrite find_phone_in_None. split.
    + intros Hnone. split.
      * intros ->. apply (Hnone (mkPhone new_phone)); [|done].
        eapply list_elem_of_lookup_2. by apply list_lookup_insert_eq.
      * intros j q' Hj Hq'. apply (Hnone q').
        eapply list_elem_of_lookup_2.
        rewrite list_lookup_insert_ne by done. exact Hq'.
    + intros [Hne Hothers] p' Hin.
      apply list_elem_of_lookup_1 in Hin as [j Hj].
      destruct (decide (j = i)) as [->|Hji].
      * rewrite list_lookup_insert_eq in Hj by done.
        injection Hj as <-. cbn [phone_value]. congruence.
      * rewrite list_lookup_insert_ne in Hj by done. by apply (Hothers j).
Qed.

Lemma edit_phone_replaces_first_witness :
  exists i ps',
    edit_phone (lit "2222222222") (lit "3333333333")
      (mkRecord (mkName (lit "Eve"))
         [mkPhone (lit "1111111111"); mkPhone (lit "2222222222")] None)
    = (inr tt, mkRecord (mkName (lit "Eve")) ps' None)
    /\ i = 1%nat
    /\ ps' = [mkPhone (lit "1111111111"); mkPhone (lit "3333333333")]
    /\ find_phone_in ps' (lit "2222222222") = None.
Proof.
  destruct (edit_phone_replaces_first (lit "2222222222") (lit "3333333333")
              (mkRecord (mkName (lit "Eve"))
                 [mkPhone (lit "1111111111"); mkPhone (lit "2222222222")] None))
    as (_ & _ & H).
  destruct (H (mkPhone (lit "3333333333")))
    as (i & ps' & Hedit & _ & _ & _ & _ & _ & _ & _);
    [vm_compute; discriminate|vm_compute; reflexivity|].
  vm_compute in Hedit. injection Hedit as <-.
  exists 1%nat. eexists. split; [reflexivity|].
  split; [reflexivity|]. split; [reflexivity|]. vm_compute. reflexivity.
Defined.

(** C8: in every state the program reaches from an empty or a loaded book
    by [add_record], [delete], the methods of the records found, saving
    and loading, every record is stored under its own name. *)
Theorem reachable_names_match_keys
    (fs : gmap (list N) (list opcode)) (book : AddressBook) :
  reachable fs book ->
  names_match_keys book
  /\ (forall key record,
        find key book = Some record -> name_value (name record) = key).
Proof.
  intros Hreach. apply reachable_inv in Hreach as (_ & Hn & _).
  split; [exact Hn|].
  intros key record Hfind. apply Hn. by apply dict_get_Some.
Qed.

Lemma reachable_names_match_keys_witness :
  reachable ∅ (add_record (mkRecord (mkName (lit "Ann")) [] None)
                          AddressBook_init)
  /\ name_value (name (mkRecord (mkName (lit "Ann")) [] None)) = lit "Ann".
Proof.
  assert (reachable ∅ (add_record (mkRecord (mkName (lit "Ann")) [] None)
                                  AddressBook_init)) as Hreach.
  { apply reach_add_record; [apply reach_start|].
    apply (built_init (lit "Ann")). vm_compute. reflexivity. }
  split; [exact Hreach|].
  apply (proj2 (reachable_names_match_keys _ _ Hreach) (lit "Ann")).
  vm_compute. reflexivity.
Defined.

(** C9: loading from a path that holds no file returns a new, empty
    [AddressBook], and does not raise. *)
Theorem load_data_missing_file
    (filename : list N) (fs : gmap (list N) (list opcode)) :
  fs !! filename = None ->
  exists obj,
    load_data filename fs = inr obj
    /\ AddressBook_of_obj obj = Some AddressBook_init
    /\ data AddressBook_init = [].
Proof.
  intros Hnone. exists (obj_of_AddressBook AddressBook_init).
  split; [by apply load_missing|].
  split; [apply AddressBook_of_obj_of|reflexivity].
Qed.

Lemma load_data_missing_file_witness :
  exists obj,
    load_data default_filename ∅ = inr obj
    /\ AddressBook_of_obj obj = Some AddressBook_init
    /\ data AddressBook_init = [].
Proof.
  apply (load_data_missing_file default_filename ∅). apply lookup_empty.
Defined.

(** C10: a method of [Record] that raises leaves the record as it was:
    [add_phone] and [edit_phone] when the phone is refused, [add_birthday]
    when the date is refused, [remove_phone] and [edit_phone] when the
    phone looked for is absent; and in each of these cases the method does
    raise. *)
Theorem record_mutators_atomic (r : ContactRecord) :
  (forall op e r', run_op op r = (inl e, r') -> r' = r)
  /\ (forall phone e,
        Phone_init phone = inl e -> add_phone phone r = (inl e, r))
  /\ (forall old_phone new_phone e,
        find_phone_in (phones r) old_phone <> None ->
        Phone_init new_phone = inl e ->
        edit_phone old_phone new_phone r = (inl e, r))
  /\ (forall text e,
        Birthday_init text = inl e -> add_birthday text r = (inl e, r))
  /\ (forall phone,
        find_phone_in (phones r) phone = None ->
        remove_phone phone r
        = (inl (ValueError (lit "Phone " ++ phone ++ lit " not found")), r))
  /\ (forall old_phone new_phone,
        find_phone_in (phones r) old_phone = None ->
        edit_phone old_phone new_phone r
        = (inl (ValueError (lit "Phone " ++ old_phone ++ lit " not found")),
           r)).
Proof.
  split; [intros op e r'; apply run_op_raises|].
  split; [intros phone e He; by rewrite add_phone_spec, He|].
  split.
  { intros old_phone new_phone e Hsome He.
    rewrite edit_phone_spec. rewrite find_phone_in_list_find in Hsome.
    destruct (list_find _ (phones r)) as [[i q]|]; [by rewrite He|done]. }
  split; [intros text e He; by rewrite add_birthday_spec, He|].
  split.
  - intros phone Hnone. rewrite remove_phone_spec.
    rewrite find_phone_in_list_find in Hnone.
    by destruct (list_find _ (phones r)) as [[i q]|].
  - intros old_phone new_phone Hnone. rewrite edit_phone_spec.
    rewrite find_phone_in_list_find in Hnone.
    by destruct (list_find _ (phones r)) as [[i q]|].
Qed.

Lemma record_mutators_atomic_witness :
  let r := mkRecord (mkName (lit "Eve"))
             [mkPhone (lit "1111111111"); mkPhone (lit "2222222222")] None in
  (exists e, add_phone (lit "12345") r = (inl e, r))
  /\ (exists e, add_birthday (lit "31.02.2020") r = (inl e, r))
  /\ (exists e, remove_phone (lit "3333333333") r = (inl e, r))
  /\ (exists e, edit_phone (lit "1111111111") (lit "abc") r = (inl e, r)).
Proof.
  intros r.
  destruct (record_mutators_atomic r) as (_ & Hadd & Hedit & Hbirth & Hrem & _).
  split; [eexists; apply Hadd; vm_compute; reflexivity|].
  split; [eexists; apply Hbirth; vm_compute; reflexivity|].
  split; [eexists; apply Hrem; vm_compute; reflexivity|].
  eexists. apply Hedit; [vm_compute; discriminate|vm_compute; reflexivity].
Defined.

(* ------------------------------------------------------------------ *)
(** Names, phones of a record *)

Lemma lstrip_nil s : lstrip s = [] <-> Forall (fun c => char_isspace c = true) s.
Proof.
  induction s as [|c s IH]; cbn [lstrip]; [by split; [constructor|]|].
  destruct (char_isspace c) eqn:E.
  - rewrite IH. split; [by constructor|by intros [_ ?]%Forall_cons].
  - split; [done|]. intros [? _]%Forall_cons. congruence.
Qed.

Lemma lstrip_head s c l : lstrip s = c :: l -> char_isspace c = false.
Proof.
  induction s as [|d s IH]; cbn [lstrip]; [done|].
  destruct (char_isspace d) eqn:E; [exact IH|]. by intros [= <- _].
Qed.

Lemma strip_nil s : strip s = [] <-> Forall (fun c => char_isspace c = true) s.
Proof.
  unfold strip. split.
  - intros H.
    assert (lstrip (rev (lstrip s)) = []) as H'.
    { destruct (lstrip (rev (lstrip s))) as [|c l]; [done|].
      cbn [rev] in H. symmetry in H. by apply app_cons_not_nil in H. }
    clear H. rename H' into H. apply lstrip_nil in H.
    assert (Forall (fun c => char_isspace c = true) (lstrip s)) as Hl.
    { apply Forall_forall. intros c Hc. rewrite Forall_forall in H.
      apply H. apply list_elem_of_In. apply (proj1 (in_rev _ _)).
      by apply list_elem_of_In. }
    apply lstrip_nil. destruct (lstrip s) as [|c l] eqn:E; [done|].
    apply lstrip_head in E. apply Forall_cons in Hl as [Hc _]. congruence.
  - intros H. apply lstrip_nil in H. rewrite H. reflexivity.
Qed.

(** X1: [Name] takes exactly the texts that hold a character that is not
    white space, and keeps the text as it is given, white space around it
    included; the other texts, the empty one among them, raise
    [ValueError] with the text ["Name cannot be empty"]. *)
Theorem Name_init_nonblank (value : str) :
  (Exists (fun c => char_isspace c = false) value ->
   Name_init value = inr (mkName value))
  /\ (Forall (fun c => char_isspace c = true) value ->
      Name_init value = inl (ValueError (lit "Name cannot be empty")))
  /\ (forall n, Name_init value = inr n -> name_value n = value).
Proof.
  unfold Name_init.
  destruct (strip value) as [|c s'] eqn:E.
  - apply strip_nil in E. split; [|split].
    + intros Hex. apply Exists_exists in Hex as (c & Hc & Hs).
      rewrite Forall_forall in E. rewrite (E c Hc) in Hs. discriminate.
    + intros _. by rewrite orb_true_r.
    + rewrite orb_true_r. discriminate.
  - assert (~ Forall (fun c => char_isspace c = true) value) as Hn.
    { intros H. apply strip_nil in H. congruence. }
    destruct value as [|v value]; [exfalso; apply Hn; constructor|].
    cbn [str_truthy negb orb]. split; [done|]. split; [done|].
    by intros n [= <-].
Qed.

Lemma Name_init_nonblank_witness :
  Name_init (lit " Ann ") = inr (mkName (lit " Ann "))
  /\ Name_init (lit "   ") = inl (ValueError (lit "Name cannot be empty")).
Proof.
  split.
  - apply (proj1 (Name_init_nonblank (lit " Ann "))).
    apply Exists_cons_tl, Exists_cons_hd. reflexivity.
  - apply (proj1 (proj2 (Name_init_nonblank (lit "   ")))).
    repeat constructor.
Defined.

Lemma find_phone_in_app_l ps qs phone p :
  find_phone_in ps phone = Some p -> find_phone_in (ps ++ qs) phone = Some p.
Proof.
  induction ps as [|q ps IH]; cbn [find_phone_in app]; [done|].
  destruct (decide (phone_value q = phone)); [done|exact IH].
Qed.

Lemma find_phone_in_app_r ps qs phone :
  find_phone_in ps phone = None ->
  find_phone_in (ps ++ qs) phone = find_phone_in qs phone.
Proof.
  induction ps as [|q ps IH]; cbn [find_phone_in app]; [done|].
  destruct (decide (phone_value q = phone)); [done|exact IH].
Qed.

Lemma find_phone_in_is_Some ps phone :
  find_phone_in ps phone <> None <-> mkPhone phone ∈ ps.
Proof.
  split.
  - destruct (find_phone_in ps phone) as [p|] eqn:E; [|done].
    intros _. by apply find_phone_in_Some in E as [-> ?].
  - intros Hin Hnone. rewrite find_phone_in_None in Hnone.
    by apply (Hnone _ Hin).
Qed.

(** X2: [add_phone] with a text [Phone] takes puts the phone at the end of
    the list, whether the record has that phone already or not: the list is one
    longer, [find_phone] finds the text, and what [find_phone] found
    before it finds still. *)
Theorem add_phone_appends (phone : str) (r : ContactRecord) (p : Phone) :
  Phone_init phone = inr p ->
  exists r',
    add_phone phone r = (inr tt, r')
    /\ phones r' = phones r ++ [mkPhone phone]
    /\ name r' = name r /\ birthday r' = birthday r
    /\ find_phone phone r' = (inr (Some (mkPhone phone)), r')
    /\ (forall other q,
          find_phone_in (phones r) other = Some q ->
          find_phone_in (phones r') other = Some q).
Proof.
  intros Hp. rewrite add_phone_spec, Hp.
  apply Phone_init_inr in Hp as (-> & _ & _).
  eexists. split; [reflexivity|]. cbn [phones name birthday].
  split; [reflexivity|]. split; [reflexivity|]. split; [reflexivity|].
  split.
  - unfold find_phone, bind, get_phones, ret. cbn [phones]. f_equal. f_equal.
    destruct (find_phone_in (phones r ++ [mkPhone phone]) phone) as [q|] eqn:E.
    + by apply find_phone_in_Some in E as [-> _].
    + exfalso. rewrite find_phone_in_None in E.
      apply (E (mkPhone phone)); [|done].
      apply elem_of_app. right. apply list_elem_of_singleton. reflexivity.
  - intros other q. apply find_phone_in_app_l.
Qed.

Lemma add_phone_appends_witness :
  exists r',
    add_phone (lit "1111111111")
      (mkRecord (mkName (lit "Eve")) [mkPhone (lit "1111111111")] None)
    = (inr tt, r')
    /\ phones r' = [mkPhone (lit "1111111111"); mkPhone (lit "1111111111")].
Proof.
  destruct (add_phone_appends (lit "1111111111")
              (mkRecord (mkName (lit "Eve")) [mkPhone (lit "1111111111")] None)
              (mkPhone (lit "1111111111")))
    as (r' & Hadd & Hphones & _); [vm_compute; reflexivity|].
  exists r'. split; [exact Hadd|exact Hphones].
Defined.

Lemma list_find_middle (l1 l2 : list Phone) phone :
  find_phone_in l1 phone = None ->
  list_find (fun p => phone_value p = phone) (l1 ++ mkPhone phone :: l2)
  = Some (length l1, mkPhone phone).
Proof.
  intros Hnone. apply list_find_Some. split; [|split].
  - by apply list_lookup_middle.
  - reflexivity.
  - intros j q Hj Hlt. rewrite lookup_app_l in Hj by done.
    rewrite find_phone_in_None in Hnone. apply Hnone.
    by eapply list_elem_of_lookup_2.
Qed.

(** X3: [remove_phone] takes out the first entry equal to the text, and
    that entry only: the entries before and after it stay, in their order;
    an equal entry further on is still found afterwards. *)
Theorem remove_phone_first
    (phone : str) (r : ContactRecord) (before after : list Phone) :
  phones r = before ++ mkPhone phone :: after ->
  find_phone_in before phone = None ->
  remove_phone phone r
  = (inr tt, mkRecord (name r) (before ++ after) (birthday r))
  /\ find_phone_in (before ++ after) phone = find_phone_in after phone.
Proof.
  intros Hphones Hnone. split; [|by apply find_phone_in_app_r].
  rewrite remove_phone_spec, Hphones, (list_find_middle _ _ _ Hnone).
  by rewrite delete_middle.
Qed.

Lemma remove_phone_first_witness :
  remove_phone (lit "1111111111")
    (mkRecord (mkName (lit "Eve"))
       [mkPhone (lit "2222222222"); mkPhone (lit "1111111111");
        mkPhone (lit "1111111111")] None)
  = (inr tt,
     mkRecord (mkName (lit "Eve"))
       [mkPhone (lit "2222222222"); mkPhone (lit "1111111111")] None).
Proof.
  apply (remove_phone_first (lit "1111111111")
           (mkRecord (mkName (lit "Eve"))
              [mkPhone (lit "2222222222"); mkPhone (lit "1111111111");
               mkPhone (lit "1111111111")] None)
           [mkPhone (lit "2222222222")] [mkPhone (lit "1111111111")]).
  - reflexivity.
  - vm_compute. reflexivity.
Defined.

(** X4: on a record that has not the phone, [add_phone] followed by
    [remove_phone] of the same text gives the record back. *)
Theorem add_phone_remove_phone (phone : str) (r : ContactRecord) (p : Phone) :
  Phone_init phone = inr p ->
  find_phone_in (phones r) phone = None ->
  (x <~ add_phone phone; remove_phone phone) r = (inr tt, r).
Proof.
  intros Hp Hnone. unfold bind at 1. rewrite add_phone_spec, Hp.
  apply Phone_init_inr in Hp as (-> & _ & _).
  rewrite remove_phone_spec. cbn [phones name birthday].
  rewrite (list_find_middle _ [] _ Hnone), delete_middle, app_nil_r.
  by destruct r.
Qed.

Lemma add_phone_remove_phone_witness :
  (x <~ add_phone (lit "3333333333"); remove_phone (lit "3333333333"))
    (mkRecord (mkName (lit "Eve")) [mkPhone (lit "1111111111")] None)
  = (inr tt, mkRecord (mkName (lit "Eve")) [mkPhone (lit "1111111111")] None).
Proof.
  apply (add_phone_remove_phone (lit "3333333333") _ (mkPhone (lit "3333333333")));
    vm_compute; reflexivity.
Defined.

(** X5: [edit_phone] from one phone to a phone the record has not, followed
    by [edit_phone] back, gives the record back. *)
Theorem edit_phone_back
    (old_phone new_phone : str) (r : ContactRecord) (p q : Phone) :
  Phone_init old_phone = inr p -> Phone_init new_phone = inr q ->
  find_phone_in (phones r) old_phone <> None ->
  find_phone_in (phones r) new_phone = None ->
  (x <~ edit_phone old_phone new_phone; edit_phone new_phone old_phone) r
  = (inr tt, r).
Proof.
  intros Hp Hq Hold Hnew. unfold bind at 1.
  apply Phone_init_inr in Hp as Hp'. destruct Hp' as (-> & _ & _).
  apply Phone_init_inr in Hq as Hq'. destruct Hq' as (-> & _ & _).
  rewrite edit_phone_spec.
  destruct (list_find _ (phones r)) as [[i x]|] eqn:E.
  2: { rewrite find_phone_in_list_find, E in Hold. done. }
  rewrite Hq.
  apply list_find_Some in E as (Hi & Hx & Hbefore).
  destruct x as [xv]. cbn [phone_value] in Hx. subst xv.
  rewrite edit_phone_spec. cbn [phones name birthday].
  assert (list_find (fun p => phone_value p = new_phone)
            (<[i := mkPhone new_phone]> (phones r))
          = Some (i, mkPhone new_phone)) as ->.
  { apply list_find_Some. pose proof (lookup_lt_Some _ _ _ Hi).
    split; [by apply list_lookup_insert_eq|]. split; [reflexivity|].
    intros j y Hj Hlt. rewrite list_lookup_insert_ne in Hj by lia.
    rewrite find_phone_in_None in Hnew. apply Hnew.
    by eapply list_elem_of_lookup_2. }
  rewrite Hp. rewrite list_insert_insert_eq, list_insert_id by done.
  by destruct r.
Qed.

Lemma edit_phone_back_witness :
  (x <~ edit_phone (lit "1111111111") (lit "3333333333");
   edit_phone (lit "3333333333") (lit "1111111111"))
    (mkRecord (mkName (lit "Eve"))
       [mkPhone (lit "2222222222"); mkPhone (lit "1111111111")] None)
  = (inr tt,
     mkRecord (mkName (lit "Eve"))
       [mkPhone (lit "2222222222"); mkPhone (lit "1111111111")] None).
Proof.
  apply (edit_phone_back (lit "1111111111") (lit "3333333333") _
           (mkPhone (lit "1111111111")) (mkPhone (lit "3333333333")));
    vm_compute; first [reflexivity | discriminate].
Defined.

(* ------------------------------------------------------------------ *)
(** The book as a dictionary *)

Lemma dict_contains_get {V} k (d : list (list N * V)) :
  dict_contains k d = true <-> is_Some (dict_get k d).
Proof. unfold dict_contains. apply bool_decide_eq_true. Qed.

Lemma dict_get_delitem_ne {V} k k' (d : list (list N * V)) :
  k <> k' -> dict_get k' (dict_delitem k d) = dict_get k' d.
Proof.
  intros Hne. induction d as [|[k0 v0] d IH]; cbn [dict_delitem dict_get]; [done|].
  destruct (decide (k0 = k)) as [->|Hk].
  - by rewrite decide_False.
  - cbn [dict_get]. by rewrite IH.
Qed.

Lemma dict_delitem_length {V} k (d : list (list N * V)) :
  is_Some (dict_get k d) -> length d = S (length (dict_delitem k d)).
Proof.
  induction d as [|[k0 v0] d IH]; cbn [dict_delitem dict_get].
  - by intros [? ?].
  - destruct (decide (k0 = k)); [done|]. intros H. cbn [length]. by rewrite <- IH.
Qed.

Lemma dict_get_None {V} k (d : list (list N * V)) :
  dict_get k d = None <-> k ∉ dict_keys d.
Proof.
  unfold dict_keys.
  induction d as [|[k0 v0] d IH]; cbn [dict_get fmap list_fmap fst].
  - split; [intros _ ?%elem_of_nil; done|done].
  - rewrite not_elem_of_cons. destruct (decide (k0 = k)) as [->|Hne].
    + split; [done|]. by intros [? _].
    + rewrite IH. split; [by split|by intros [_ ?]].
Qed.

Lemma dict_delitem_setitem_fresh {V} k (v : V) (d : list (list N * V)) :
  k ∉ dict_keys d -> dict_delitem k (dict_setitem k v d) = d.
Proof.
  unfold dict_keys.
  induction d as [|[k0 v0] d IH]; cbn [dict_setitem dict_delitem fmap list_fmap fst].
  - by rewrite decide_True.
  - rewrite not_elem_of_cons. intros [Hne Hni].
    rewrite decide_False by done. cbn [dict_delitem].
    rewrite decide_False by done. by rewrite IH.
Qed.

(** X6: [delete] raises [KeyError] exactly when [find] gives nothing, and
    then there is no book after it; when the name is present the book
    loses that one entry: it is one shorter, [find] gives nothing for the
    name, and every other name keeps its record. *)
Theorem delete_removes (name : str) (book : AddressBook) :
  (find name book = None -> delete name book = inl (KeyError name))
  /\ (forall record,
        find name book = Some record ->
        exists book',
          delete name book = inr book'
          /\ length (data book) = S (length (data book'))
          /\ (forall other, other <> name ->
                find other book' = find other book)
          /\ (NoDup (dict_keys (data book)) -> find name book' = None)).
Proof.
  unfold delete, find. split.
  - intros Hnone.
    destruct (dict_contains name (data book)) eqn:E; [|done].
    apply dict_contains_get in E as [r Hr]. congruence.
  - intros record Hfind.
    rewrite (proj2 (dict_contains_get name (data book))) by by eexists.
    eexists. split; [reflexivity|]. cbn [data].
    split; [apply dict_delitem_length; by eexists|].
    split; [intros other Hne; by apply dict_get_delitem_ne|].
    apply dict_get_delitem_eq.
Qed.

Lemma delete_removes_witness :
  exists book',
    delete (lit "Bob") sample_book = inr book'
    /\ find (lit "Bob") book' = None
    /\ delete (lit "Bob") book' = inl (KeyError (lit "Bob")).
Proof.
  destruct (proj2 (delete_removes (lit "Bob") sample_book) _ eq_refl)
    as (book' & Hdel & _ & _ & Hnone).
  exists book'. split; [exact Hdel|].
  assert (find (lit "Bob") book' = None) as Hn
    by (apply Hnone, NoDup_decide; vm_compute; reflexivity).
  split; [exact Hn|].
  by apply (proj1 (delete_removes (lit "Bob") book')).
Defined.

(** X7: [add_record] of a record whose name the book has not puts it last
    in the order of the book, and [delete] of that name gives the book
    back. *)
Theorem add_record_new_name (record : ContactRecord) (book : AddressBook) :
  find (Record_name record) book = None ->
  data (add_record record book) = data book ++ [(Record_name record, record)]
  /\ delete (Record_name record) (add_record record book) = inr book.
Proof.
  unfold find, add_record, delete, Record_name. cbn [data]. intros Hnone.
  apply dict_get_None in Hnone.
  split; [by apply dict_setitem_fresh|].
  rewrite (proj2 (dict_contains_get _ _))
    by (rewrite dict_get_setitem_eq; by eexists).
  rewrite dict_delitem_setitem_fresh by done. by destruct book.
Qed.

Lemma add_record_new_name_witness :
  dict_keys (data (add_record (mkRecord (mkName (lit "Dan")) [] None)
                              sample_book))
  = [lit "Ann"; lit "Bob"; lit "Eve"; lit "Dan"]
  /\ delete (lit "Dan")
       (add_record (mkRecord (mkName (lit "Dan")) [] None) sample_book)
     = inr sample_book.
Proof.
  destruct (add_record_new_name (mkRecord (mkName (lit "Dan")) [] None)
              sample_book) as [Hdata Hdel]; [vm_compute; reflexivity|].
  split; [rewrite Hdata; vm_compute; reflexivity|exact Hdel].
Defined.

(* ------------------------------------------------------------------ *)
(** More on the upcoming birthdays *)

Lemma not_leap_twice y : is_leap y = true -> is_leap (y + 1) = false.
Proof.
  intros H. apply is_leap_spec in H.
  destruct (is_leap (y + 1)) eqn:E; [|done].
  apply is_leap_spec in E. Z.div_mod_to_equations. lia.
Qed.

Lemma spec_in_year_next birth y :
  valid_date birth -> 1 <= y < 9999 ->
  toordinal (spec_in_year birth (y + 1)) - toordinal (spec_in_year birth y)
  <= 366.
Proof.
  intros Hb Hy. apply valid_dateb_year in Hb as (_ & Hm & Hd).
  pose proof (days_before_year_succ y) as Hs.
  pose proof (not_leap_twice y) as Hl.
  unfold spec_in_year, toordinal, ymd2ord, days_before_month.
  destruct (month birth =? 2) eqn:M2; destruct (day birth =? 29) eqn:D29;
    destruct (is_leap y) eqn:L0;
    [rewrite ?(Hl eq_refl)|destruct (is_leap (y + 1)) eqn:L1
    |rewrite ?(Hl eq_refl)|destruct (is_leap (y + 1)) eqn:L1
    |rewrite ?(Hl eq_refl)|destruct (is_leap (y + 1)) eqn:L1
    |rewrite ?(Hl eq_refl)|destruct (is_leap (y + 1)) eqn:L1];
    cbn [andb negb year month day];
    rewrite ?L0, ?L1, ?(Hl eq_refl), ?Hs;
    try (apply Z.eqb_eq in M2; rewrite M2);
    repeat match goal with
           | |- context [2 <? ?m] => destruct (2 <? m) eqn:?
           end;
    cbn [andb DAYS_BEFORE_MONTH]; try apply Z.eqb_eq in D29; lia.
Qed.

Lemma spec_candidate_within today birth :
  valid_date today -> year today < MAXYEAR -> valid_date birth ->
  toordinal (spec_candidate today birth) - toordinal today <= 365.
Proof.
  intros Ht Hy Hb. unfold MAXYEAR in Hy.
  pose proof (valid_dateb_year _ _ _ Ht) as (Hty & _ & _).
  destruct (birthday_in_year_spec birth (year today) Hb ltac:(lia)) as [_ V0].
  pose proof (spec_in_year_next birth (year today) Hb ltac:(lia)) as Hnext.
  unfold spec_candidate.
  destruct (toordinal (spec_in_year birth (year today)) <? toordinal today) eqn:E.
  - apply Z.ltb_lt in E. lia.
  - pose proof (day_of_year_bounds _ _ _ V0) as B0.
    pose proof (day_of_year_bounds _ _ _ Ht) as Bt.
    assert (year (spec_in_year birth (year today)) = year today) as Yc.
    { unfold spec_in_year. by destruct (_ && _). }
    unfold toordinal, ymd2ord in *. rewrite Yc in *.
    destruct (is_leap (year today)); lia.
Qed.

Lemma spec_included_mono today days1 days2 r :
  days1 <= days2 ->
  spec_included today days1 r = true -> spec_included today days2 r = true.
Proof.
  intros Hle. unfold spec_included. destruct (birthday r); [|done].
  rewrite !andb_true_iff, !Z.leb_le. lia.
Qed.

Lemma spec_report_mono pad today days1 days2 r e :
  days1 <= days2 ->
  spec_report pad today days1 r = Some e ->
  spec_report pad today days2 r = Some e.
Proof.
  intros Hle. unfold spec_report.
  destruct (spec_included today days1 r) eqn:E; [|discriminate].
  by rewrite (spec_included_mono _ _ _ _ Hle E).
Qed.

Lemma omap_sublist {A B} (f g : A -> option B) l :
  (forall a b, f a = Some b -> g a = Some b) ->
  omap f l `sublist_of` omap g l.
Proof.
  intros Hfg. induction l as [|a l IH]; cbn [omap list_omap]; [constructor|].
  destruct (f a) as [b|] eqn:E.
  - rewrite (Hfg _ _ E). by constructor.
  - destruct (g a); [by constructor|done].
Qed.

(** X8: a larger window reports more: the list for [days1] is the list
    for a larger number [days2] with some entries left out, the others in
    the same order and with the same texts. *)
Theorem upcoming_days_monotone
    (today : date) (pad_year : bool) (days1 days2 : Z) (book : AddressBook) :
  valid_date today -> year today < MAXYEAR ->
  Forall birthday_valid (dict_values (data book)) ->
  days1 <= days2 ->
  exists result1 result2,
    get_upcoming_birthdays today pad_year days1 book = inr result1
    /\ get_upcoming_birthdays today pad_year days2 book = inr result2
    /\ result1 `sublist_of` result2.
Proof.
  intros Ht Hy Hbook Hle. eexists _, _.
  split; [by apply get_upcoming_birthdays_spec|].
  split; [by apply get_upcoming_birthdays_spec|].
  apply omap_sublist. intros r e. by apply spec_report_mono.
Qed.

Lemma upcoming_days_monotone_witness :
  exists result1 result2,
    get_upcoming_birthdays (mkdate 2024 6 10) false 3 sample_book = inr result1
    /\ get_upcoming_birthdays (mkdate 2024 6 10) false 7 sample_book
       = inr result2
    /\ result1 `sublist_of` result2
    /\ result1 = [] /\ length result2 = 1%nat.
Proof.
  destruct (upcoming_days_monotone (mkdate 2024 6 10) false 3 7 sample_book)
    as (r1 & r2 & H1 & H2 & Hsub);
    [vm_compute; reflexivity|vm_compute; reflexivity
    |exact sample_book_birthdays|lia|].
  exists r1, r2. split; [exact H1|]. split; [exact H2|]. split; [exact Hsub|].
  vm_compute in H1, H2. injection H1 as <-. injection H2 as <-.
  split; reflexivity.
Defined.

Lemma omap_none {A B} (f : A -> option B) l :
  (forall a, a ∈ l -> f a = None) -> omap f l = [].
Proof.
  induction l as [|a l IH]; intros H; cbn [omap list_omap]; [done|].
  rewrite (H a) by left. apply IH. intros b Hb. apply H. by right.
Qed.

(** X9: the two ends of the window.  With a negative number of days
    nothing is reported; with 365 days or more every record that has a
    birthday is, in the order of the book: the next birthday is never
    more than 365 days away. *)
Theorem upcoming_window_extremes
    (today : date) (pad_year : bool) (days : Z) (book : AddressBook) :
  valid_date today -> year today < MAXYEAR ->
  Forall birthday_valid (dict_values (data book)) ->
  (days < 0 -> get_upcoming_birthdays today pad_year days book = inr [])
  /\ (365 <= days ->
      exists result,
        get_upcoming_birthdays today pad_year days book = inr result
        /\ u_name <$> result
           = Record_name
               <$> List.filter (fun r => bool_decide (is_Some (birthday r)))
                     (dict_values (data book))).
Proof.
  intros Ht Hy Hbook.
  rewrite (get_upcoming_birthdays_spec _ _ _ _ Ht Hy Hbook). split.
  - intros Hneg. f_equal. apply omap_none. intros r _.
    apply spec_report_excluded. unfold spec_included.
    destruct (birthday r); [|done].
    apply andb_false_iff. rewrite !Z.leb_gt. lia.
  - intros Hdays. eexists. split; [reflexivity|].
    rewrite spec_report_names. unfold Record_name. f_equal.
    rewrite Forall_forall in Hbook.
    induction (dict_values (data book)) as [|r l IH]; [done|].
    cbn [List.filter].
    assert (spec_included today days r
            = bool_decide (is_Some (birthday r))) as ->.
    { unfold spec_included. destruct (birthday r) as [b|] eqn:Eb.
      - destruct (Hbook r ltac:(left) b Eb) as [Hvb _].
        pose proof (spec_candidate_ge today
                      (datetime_date (birthday_value b)) Ht Hy Hvb).
        pose proof (spec_candidate_within today
                      (datetime_date (birthday_value b)) Ht Hy Hvb).
        rewrite bool_decide_eq_true_2 by by eexists.
        cbv zeta. apply andb_true_iff. rewrite !Z.leb_le. lia.
      - rewrite bool_decide_eq_false_2; [done|]. by intros [? ?]. }
    rewrite IH; [done|]. intros r' Hr'. apply Hbook. by right.
Qed.

Lemma upcoming_window_extremes_witness :
  get_upcoming_birthdays (mkdate 2024 6 16) false (-1) sample_book = inr []
  /\ exists result,
       get_upcoming_birthdays (mkdate 2024 6 16) false 365 sample_book
       = inr result
       /\ u_name <$> result = [lit "Ann"; lit "Bob"].
Proof.
  destruct (upcoming_window_extremes (mkdate 2024 6 16) false (-1) sample_book)
    as [Hneg _];
    [vm_compute; reflexivity|vm_compute; reflexivity
    |exact sample_book_birthdays|].
  destruct (upcoming_window_extremes (mkdate 2024 6 16) false 365 sample_book)
    as [_ Hall];
    [vm_compute; reflexivity|vm_compute; reflexivity
    |exact sample_book_birthdays|].
  split; [apply Hneg; lia|].
  destruct Hall as (result & Hres & Hnames); [lia|].
  exists result. split; [exact Hres|]. rewrite Hnames. vm_compute. reflexivity.
Defined.

Lemma weekday_range d : 0 <= weekday d <= 6.
Proof. unfold weekday. Z.div_mod_to_equations. lia. Qed.

(** X10: the date of congratulation is never a Saturday or a Sunday: a
    candidate on a working day is kept, a candidate on a weekend moves to
    the Monday after it; and the move never leaves the calendar, so
    [congratulation] raises no [OverflowError]. *)
Theorem congratulation_on_weekday (candidate : date) :
  valid_date candidate ->
  exists congratulation_date,
    congratulation candidate = inr congratulation_date
    /\ valid_date congratulation_date
    /\ 0 <= weekday congratulation_date <= 4
    /\ (weekday candidate <= 4 -> congratulation_date = candidate)
    /\ (5 <= weekday candidate ->
        weekday congratulation_date = 0
        /\ 1 <= days_between congratulation_date candidate <= 2).
Proof.
  intros Hv.
  destruct (congratulation_spec candidate Hv) as (cd & Hc & Hvc & Ho).
  exists cd. split; [exact Hc|]. split; [exact Hvc|].
  pose proof (weekday_range candidate) as Hr.
  assert (weekday cd = (toordinal candidate + spec_shift candidate + 6) mod 7)
    as Hw by (unfold weekday; by rewrite Ho).
  unfold days_between. rewrite Hw, Ho. unfold spec_shift.
  unfold weekday in Hr |- *.
  set (w := (toordinal candidate + 6) mod 7) in *.
  assert (w = (toordinal candidate + 6) mod 7) as Hwdef by reflexivity.
  clearbody w.
  destruct (w =? 5) eqn:E5;
    [apply Z.eqb_eq in E5
    |apply Z.eqb_neq in E5;
     destruct (w =? 6) eqn:E6;
     [apply Z.eqb_eq in E6|apply Z.eqb_neq in E6]].
  - split; [Z.div_mod_to_equations; lia|].
    split; [lia|]. intros _. split; [Z.div_mod_to_equations; lia|lia].
  - split; [Z.div_mod_to_equations; lia|].
    split; [lia|]. intros _. split; [Z.div_mod_to_equations; lia|lia].
  - split; [Z.div_mod_to_equations; lia|].
    split; [|lia]. intros _. apply toordinal_inj; [done..|].
    rewrite Ho. unfold spec_shift, weekday. rewrite <- Hwdef.
    rewrite (proj2 (Z.eqb_neq _ _) E5), (proj2 (Z.eqb_neq _ _) E6). lia.
Qed.

Lemma congratulation_on_weekday_witness :
  congratulation (mkdate 2024 6 15) = inr (mkdate 2024 6 17)
  /\ weekday (mkdate 2024 6 15) = 5 /\ weekday (mkdate 2024 6 17) = 0.
Proof.
  destruct (congratulation_on_weekday (mkdate 2024 6 15))
    as (cd & Hc & _ & _ & _ & Hweekend); [vm_compute; reflexivity|].
  destruct Hweekend as [Hmonday _]; [vm_compute; discriminate|].
  vm_compute in Hc. injection Hc as <-.
  split; [reflexivity|]. split; [reflexivity|exact Hmonday].
Defined.

(** X11: a record whose birthday, placed in the current year, is today is
    reported for every window of 0 days or more, with today as the date of
    the birthday. *)
Theorem birthday_today_reported
    (today : date) (pad_year : bool) (days : Z) (book : AddressBook)
    (r : ContactRecord) (b : Birthday) :
  valid_date today -> year today < MAXYEAR ->
  Forall birthday_valid (dict_values (data book)) ->
  0 <= days ->
  r ∈ dict_values (data book) -> birthday r = Some b ->
  birthday_in_year (datetime_date (birthday_value b)) (year today) = inr today ->
  exists result congratulation_date,
    get_upcoming_birthdays today pad_year days book = inr result
    /\ congratulation today = inr congratulation_date
    /\ mkUpcoming (Record_name r) (strftime_dmY pad_year today)
         (strftime_dmY pad_year congratulation_date) ∈ result.
Proof.
  intros Ht Hy Hbook Hdays Hr Hb Htoday.
  pose proof (valid_dateb_year _ _ _ Ht) as (Hty & _ & _). unfold MAXYEAR in Hy.
  rewrite Forall_forall in Hbook. destruct (Hbook r Hr b Hb) as [Hvb _].
  destruct (birthday_in_year_spec (datetime_date (birthday_value b))
              (year today) Hvb ltac:(lia)) as [Hin _].
  rewrite Hin in Htoday. injection Htoday as Htoday.
  assert (spec_candidate today (datetime_date (birthday_value b)) = today)
    as Hcand.
  { unfold spec_candidate. rewrite Htoday. by rewrite Z.ltb_irrefl. }
  destruct (congratulation_is_spec today Ht) as (Hc & _ & _).
  eexists _, _.
  split; [apply get_upcoming_birthdays_spec; [done|unfold MAXYEAR; lia|]|].
  { by apply Forall_forall. }
  split; [exact Hc|].
  apply list_elem_of_omap. exists r. split; [done|].
  unfold spec_report, spec_included. rewrite Hb. cbn [mbind option_bind].
  rewrite Hcand, Z.sub_diag.
  rewrite (proj2 (Z.leb_le 0 0)) by lia.
  rewrite (proj2 (Z.leb_le 0 days)) by lia. reflexivity.
Qed.

Lemma birthday_today_reported_witness :
  exists result,
    get_upcoming_birthdays (mkdate 2023 2 28) false 0 sample_book = inr result
    /\ mkUpcoming (lit "Bob") (lit "28.02.2023") (lit "28.02.2023") ∈ result.
Proof.
  destruct (birthday_today_reported (mkdate 2023 2 28) false 0 sample_book
              (mkRecord (mkName (lit "Bob")) [] (sample_birthday 2000 2 29))
              (mkBirthday (mkdatetime (mkdate 2000 2 29) 0 0 0 0 0)))
    as (result & cd & Hres & Hcd & Hin).
  - vm_compute. reflexivity.
  - vm_compute. reflexivity.
  - exact sample_book_birthdays.
  - lia.
  - apply elem_of_list_here || (right; left).
  - reflexivity.
  - vm_compute. reflexivity.
  - exists result. split; [exact Hres|].
    vm_compute in Hcd. injection Hcd as <-. exact Hin.
Defined.

(* ------------------------------------------------------------------ *)
(** More on the files *)










(* ------------------------------------------------------------------ *)
(** The commands *)

Lemma dict_setitem_get_id {V} k (v : V) (d : list (list N * V)) :
  dict_get k d = Some v -> dict_setitem k v d = d.
Proof.
  induction d as [|[k0 v0] d IH]; cbn [dict_get dict_setitem]; [done|].
  destruct (decide (k0 = k)) as [->|Hne]; [by intros [= ->]|].
  intros H. by rewrite IH.
Qed.

Lemma dict_setitem_twice {V} k (v v' : V) (d : list (list N * V)) :
  dict_setitem k v' (dict_setitem k v d) = dict_setitem k v' d.
Proof.
  induction d as [|[k0 v0] d IH]; cbn [dict_setitem].
  - by rewrite decide_True.
  - destruct (decide (k0 = k)) as [->|Hne]; cbn [dict_setitem].
    + by rewrite decide_True.
    + rewrite decide_False by done. by rewrite IH.
Qed.

Lemma dict_keys_setitem_present {V} k (v v0 : V) (d : list (list N * V)) :
  dict_get k d = Some v0 -> dict_keys (dict_setitem k v d) = dict_keys d.
Proof.
  intros H. rewrite dict_keys_setitem. rewrite decide_True; [done|].
  apply dict_get_Some in H. apply list_elem_of_fmap. by exists (k, v0).
Qed.

Lemma input_error_returns func book text book' :
  func book = (inr text, book') ->
  Commands.input_error func book = (Some text, book').
Proof. intros H. unfold Commands.input_error. by rewrite H. Qed.

Lemma input_error_ValueError func book msg book' :
  func book = (inl (Commands.Raised (ValueError msg)), book') ->
  Commands.input_error func book = (Some msg, book').
Proof. intros H. unfold Commands.input_error. by rewrite H. Qed.

Lemma input_error_AttributeError func book msg book' :
  func book = (inl (Commands.AttributeError msg), book') ->
  Commands.input_error func book
  = (Some (lit "Contact not found or has no required attribute."), book').
Proof. intros H. unfold Commands.input_error. by rewrite H. Qed.

Lemma Phone_init_ValueError phone e :
  Phone_init phone = inl e -> exists msg, e = ValueError msg.
Proof. intros [[_ ->]|(_ & _ & ->)]%Phone_init_inl; eauto. Qed.

Lemma Phone_init_truthy phone p : Phone_init phone = inr p -> str_truthy phone = true.
Proof.
  intros (_ & Hl & _)%Phone_init_inr. by destruct phone.
Qed.

Lemma str_truthy_ne s : s <> [] -> str_truthy s = true.
Proof. by destruct s. Qed.

(** X14: a command that gets too few arguments answers with the text of
    the [ValueError] of the unpacking, ["not enough values to unpack
    (expected at least 2, got 1)"] and the like, and leaves the book as it
    is; the text for [IndexError], ["Missing arguments. ..."], is not what
    it answers. *)
Theorem commands_missing_arguments
    (pad_year : bool) (args : list str) (book : AddressBook) :
  ((length args < 2)%nat ->
   Commands.add_contact args book
   = (Some (Commands.not_enough_values_text 2 (length args)), book)
   /\ Commands.add_birthday args book
      = (Some (Commands.not_enough_values_text 2 (length args)), book))
  /\ ((length args < 3)%nat ->
      Commands.change_contact args book
      = (Some (Commands.not_enough_values_text 3 (length args)), book))
  /\ ((length args < 1)%nat ->
      Commands.show_phone args book
      = (Some (Commands.not_enough_values_text 1 (length args)), book)
      /\ Commands.show_birthday pad_year args book
         = (Some (Commands.not_enough_values_text 1 (length args)), book))
  /\ (forall expected got,
        Commands.not_enough_values_text expected got
        <> lit "Missing arguments. Please check the command format.").
Proof.
  split; [|split; [|split]].
  - intros Hlen. destruct args as [|a [|b args]]; [| |cbn [length] in Hlen; lia];
      (split; apply input_error_ValueError; reflexivity).
  - intros Hlen.
    destruct args as [|a [|b [|c args]]];
      [| | |cbn [length] in Hlen; lia];
      apply input_error_ValueError; reflexivity.
  - intros Hlen. destruct args as [|a args]; [|cbn [length] in Hlen; lia].
    split; apply input_error_ValueError; reflexivity.
  - intros expected got. unfold Commands.not_enough_values_text.
    intros H. apply (f_equal head) in H. vm_compute in H. discriminate.
Qed.

Lemma commands_missing_arguments_witness :
  Commands.add_contact [lit "Ann"] sample_book
  = (Some (lit "not enough values to unpack (expected at least 2, got 1)"),
     sample_book)
  /\ Commands.show_phone [] sample_book
     = (Some (lit "not enough values to unpack (expected at least 1, got 0)"),
        sample_book).
Proof.
  destruct (commands_missing_arguments false [lit "Ann"] sample_book)
    as ([Hadd _] & _); [cbn [length]; lia|].
  destruct (commands_missing_arguments false [] sample_book)
    as (_ & _ & [Hshow _] & _); [cbn [length]; lia|].
  split; [exact Hadd|exact Hshow].
Defined.

(** X15: the commands that work on a contact that exists, called with a
    name the book has not, answer ["Contact not found or has no required
    attribute."], the text for [AttributeError], and leave the book as it
    is. *)
Theorem commands_unknown_contact
    (pad_year : bool) (name : str) (book : AddressBook) :
  find name book = None ->
  (forall old_phone new_phone rest,
     Commands.change_contact (name :: old_phone :: new_phone :: rest) book
     = (Some (lit "Contact not found or has no required attribute."), book))
  /\ (forall rest,
        Commands.show_phone (name :: rest) book
        = (Some (lit "Contact not found or has no required attribute."), book))
  /\ (forall birthday rest,
        Commands.add_birthday (name :: birthday :: rest) book
        = (Some (lit "Contact not found or has no required attribute."), book))
  /\ (forall rest,
        Commands.show_birthday pad_year (name :: rest) book
        = (Some (lit "Contact not found or has no required attribute."), book)).
Proof.
  intros Hnone.
  split; [|split; [|split]]; intros;
    (eapply input_error_AttributeError; by rewrite Hnone).
Qed.

Lemma commands_unknown_contact_witness :
  Commands.show_phone [lit "Zed"] sample_book
  = (Some (lit "Contact not found or has no required attribute."), sample_book).
Proof.
  apply (proj1 (proj2 (commands_unknown_contact false (lit "Zed") sample_book
                         eq_refl))).
Defined.

Lemma call_method_add_phone key record phone book :
  Commands.call_method key record (add_phone phone) book
  = match Phone_init phone with
    | inl e => (inl (Commands.Raised e),
                mkAddressBook (dict_setitem key record (data book)))
    | inr p =>
        (inr tt,
         mkAddressBook
           (dict_setitem key
              (mkRecord (name record) (phones record ++ [p]) (birthday record))
              (data book)))
    end.
Proof.
  unfold Commands.call_method. rewrite add_phone_spec.
  by destruct (Phone_init phone).
Qed.

Lemma add_contact_new
    (contact_name phone : str) (rest : list str) (book : AddressBook)
    (p : Phone) (n : Name) :
  Phone_init phone = inr p ->
  find contact_name book = None -> Name_init contact_name = inr n ->
  Commands.add_contact (contact_name :: phone :: rest) book
  = (Some (lit "Contact added."),
     mkAddressBook
       (data book
        ++ [(contact_name, mkRecord (mkName contact_name) [mkPhone phone] None)])).
Proof.
  intros Hp Hnone Hn. pose proof (Phone_init_truthy _ _ Hp) as Ht.
  apply Phone_init_inr in Hp as Hp'. destruct Hp' as (-> & _ & _).
  apply input_error_returns. rewrite Hnone.
  unfold Record_init. rewrite Hn. cbn [bind_exn]. rewrite Ht.
  rewrite call_method_add_phone, Hp.
  assert (n = mkName contact_name) as ->.
  { unfold Name_init in Hn. destruct (_ || _); [discriminate|congruence]. }
  unfold add_record. cbn [data name name_value phones birthday app].
  rewrite dict_setitem_twice, dict_setitem_fresh; [done|].
  by apply dict_get_None.
Qed.

Lemma add_contact_existing
    (contact_name phone : str) (rest : list str) (book : AddressBook)
    (p : Phone) (record : ContactRecord) :
  Phone_init phone = inr p ->
  find contact_name book = Some record ->
  Commands.add_contact (contact_name :: phone :: rest) book
  = (Some (lit "Contact updated."),
     mkAddressBook
       (dict_setitem contact_name
          (mkRecord (name record) (phones record ++ [mkPhone phone])
             (birthday record))
          (data book))).
Proof.
  intros Hp Hfind. pose proof (Phone_init_truthy _ _ Hp) as Ht.
  apply Phone_init_inr in Hp as Hp'. destruct Hp' as (-> & _ & _).
  apply input_error_returns. rewrite Hfind, Ht.
  rewrite call_method_add_phone, Hp. reflexivity.
Qed.

(** X16: [add_contact] with a phone [Phone] takes.  For a name the book has
    not it answers ["Contact added."] and puts a new contact with that one
    phone last in the book; for a name the book has it answers ["Contact
    updated."] and puts the phone at the end of the phones of the contact.
    The other contacts and the order of the book stay. *)
Theorem add_contact_adds_phone
    (contact_name phone : str) (rest : list str) (book : AddressBook) (p : Phone) :
  Phone_init phone = inr p ->
  (forall n,
     find contact_name book = None -> Name_init contact_name = inr n ->
     Commands.add_contact (contact_name :: phone :: rest) book
     = (Some (lit "Contact added."),
        mkAddressBook
          (data book
           ++ [(contact_name, mkRecord (mkName contact_name) [mkPhone phone] None)])))
  /\ (forall record,
        find contact_name book = Some record ->
        exists book',
          Commands.add_contact (contact_name :: phone :: rest) book
          = (Some (lit "Contact updated."), book')
          /\ find contact_name book'
             = Some (mkRecord (name record)
                       (phones record ++ [mkPhone phone]) (birthday record))
          /\ (forall other, other <> contact_name ->
                find other book' = find other book)
          /\ dict_keys (data book') = dict_keys (data book)).
Proof.
  intros Hp. split.
  - intros n Hnone Hn. by eapply add_contact_new.
  - intros record Hfind. eexists. split.
    + by eapply add_contact_existing.
    + unfold find in *. cbn [data]. split; [apply dict_get_setitem_eq|].
      split; [intros other Hne; by apply dict_get_setitem_ne|].
      by eapply dict_keys_setitem_present.
Qed.

Lemma add_contact_adds_phone_witness :
  exists book',
    Commands.add_contact [lit "Bob"; lit "3333333333"] sample_book
    = (Some (lit "Contact updated."), book')
    /\ find (lit "Bob") book'
       = Some (mkRecord (mkName (lit "Bob")) [mkPhone (lit "3333333333")]
                 (sample_birthday 2000 2 29)).
Proof.
  destruct (add_contact_adds_phone (lit "Bob") (lit "3333333333") []
              sample_book (mkPhone (lit "3333333333")))
    as [_ H]; [vm_compute; reflexivity|].
  destruct (H _ eq_refl) as (book' & Hadd & Hfind & _).
  exists book'. split; [exact Hadd|exact Hfind].
Defined.

(** X17: [add_contact] with a text that is no phone answers with the text
    of [Phone]'s error.  For a name the book has the book stays as it is;
    for a name the book has not, the contact has been created all the
    same and stays in the book, without a phone. *)
Theorem add_contact_invalid_phone
    (contact_name phone : str) (rest : list str) (book : AddressBook) (e : exn) :
  Phone_init phone = inl e -> phone <> [] ->
  exists msg,
    e = ValueError msg
    /\ (forall n,
          find contact_name book = None -> Name_init contact_name = inr n ->
          Commands.add_contact (contact_name :: phone :: rest) book
          = (Some msg,
             mkAddressBook
               (data book ++ [(contact_name, mkRecord (mkName contact_name) [] None)])))
    /\ (forall record,
          find contact_name book = Some record ->
          Commands.add_contact (contact_name :: phone :: rest) book = (Some msg, book)).
Proof.
  intros He Hne. destruct (Phone_init_ValueError _ _ He) as [msg ->].
  pose proof (str_truthy_ne _ Hne) as Ht.
  exists msg. split; [done|]. split.
  - intros n Hnone Hn. apply input_error_ValueError. rewrite Hnone.
    unfold Record_init. rewrite Hn. cbn [bind_exn]. rewrite Ht.
    rewrite call_method_add_phone, He.
    assert (n = mkName contact_name) as ->.
    { unfold Name_init in Hn. destruct (_ || _); [discriminate|congruence]. }
    unfold add_record. cbn [data name name_value].
    rewrite dict_setitem_twice, dict_setitem_fresh; [done|].
    by apply dict_get_None.
  - intros record Hfind. apply input_error_ValueError. rewrite Hfind, Ht.
    rewrite call_method_add_phone, He.
    rewrite dict_setitem_get_id by done. by destruct book.
Qed.

Lemma add_contact_invalid_phone_witness :
  Commands.add_contact [lit "Dan"; lit "12345"] sample_book
  = (Some (lit "Phone number must be exactly 10 digits"),
     mkAddressBook
       (data sample_book ++ [(lit "Dan", mkRecord (mkName (lit "Dan")) [] None)])).
Proof.
  destruct (add_contact_invalid_phone (lit "Dan") (lit "12345") [] sample_book
              (ValueError (lit "Phone number must be exactly 10 digits")))
    as (msg & Hmsg & Hnew & _); [vm_compute; reflexivity|discriminate|].
  injection Hmsg as <-.
  apply (Hnew (mkName (lit "Dan"))); vm_compute; reflexivity.
Defined.




(** X19: after [add_contact] has added a phone, [show_phone] of that
    contact ends with the phone: for a new contact it answers ["Phone
    numbers for NAME: PHONE"], for a contact that had phones the list of
    the old ones and the new one, separated by ["; "]. *)
Theorem show_phone_after_add_contact
    (contact_name phone : str) (rest rest' : list str) (book : AddressBook)
    (p : Phone) :
  Phone_init phone = inr p ->
  (forall n,
     find contact_name book = None -> Name_init contact_name = inr n ->
     Commands.show_phone (contact_name :: rest')
       (Commands.add_contact (contact_name :: phone :: rest) book).2
     = (Some (lit "Phone numbers for " ++ contact_name ++ lit ": " ++ phone),
        (Commands.add_contact (contact_name :: phone :: rest) book).2))
  /\ (forall record,
        find contact_name book = Some record ->
        Commands.show_phone (contact_name :: rest')
          (Commands.add_contact (contact_name :: phone :: rest) book).2
        = (Some (lit "Phone numbers for " ++ Record_name record ++ lit ": "
                 ++ str_join (lit "; ")
                      ((phone_value <$> phones record) ++ [phone])),
           (Commands.add_contact (contact_name :: phone :: rest) book).2)).
Proof.
  intros Hp. split.
  - intros n Hnone Hn.
    rewrite (add_contact_new contact_name phone rest book p n Hp Hnone Hn).
    cbn [snd].
    apply input_error_returns. unfold find. cbn [data].
    assert (dict_get contact_name
              (data book
               ++ [(contact_name,
                    mkRecord (mkName contact_name) [mkPhone phone] None)])
            = Some (mkRecord (mkName contact_name) [mkPhone phone] None)) as ->.
    { rewrite <- (dict_setitem_fresh contact_name _ (data book))
        by by apply dict_get_None.
      apply dict_get_setitem_eq. }
    reflexivity.
  - intros record Hfind.
    rewrite (add_contact_existing contact_name phone rest book p record Hp Hfind).
    cbn [snd]. apply input_error_returns.
    assert (find contact_name
              (mkAddressBook
                 (dict_setitem contact_name
                    (mkRecord (name record) (phones record ++ [mkPhone phone])
                       (birthday record))
                    (data book)))
            = Some (mkRecord (name record) (phones record ++ [mkPhone phone])
                      (birthday record))) as Hfind'
      by apply dict_get_setitem_eq.
    rewrite Hfind'. cbn [phones].
    destruct (phones record ++ [mkPhone phone]) as [|q qs] eqn:E.
    { by apply app_eq_nil in E as [_ ?]. }
    rewrite <- E, fmap_app. reflexivity.
Qed.

Lemma show_phone_after_add_contact_witness :
  Commands.show_phone [lit "Eve"]
    (Commands.add_contact [lit "Eve"; lit "3333333333"] sample_book).2
  = (Some (lit "Phone numbers for Eve: 1111111111; 2222222222; 3333333333"),
     (Commands.add_contact [lit "Eve"; lit "3333333333"] sample_book).2).
Proof.
  apply (proj2 (show_phone_after_add_contact (lit "Eve") (lit "3333333333")
                  [] [] sample_book (mkPhone (lit "3333333333")) eq_refl)
           _ eq_refl).
Defined.

Lemma str_leb_total s : forall t, str_leb s t = true \/ str_leb t s = true.
Proof.
  induction s as [|c s IH]; intros [|d t]; cbn [str_leb]; auto.
  destruct (N.lt_trichotomy c d) as [Hlt|[->|Hgt]].
  - left. by rewrite (proj2 (N.ltb_lt _ _) Hlt).
  - rewrite N.ltb_irrefl, N.eqb_refl. cbn [orb andb]. apply IH.
  - right. by rewrite (proj2 (N.ltb_lt _ _) Hgt).
Qed.

Lemma str_leb_trans s : forall t u,
  str_leb s t = true -> str_leb t u = true -> str_leb s u = true.
Proof.
  induction s as [|c s IH]; intros [|d t] [|e u]; cbn [str_leb]; try done.
  rewrite !orb_true_iff, !andb_true_iff, !N.ltb_lt, !N.eqb_eq.
  intros [H1|[-> H1]] [H2|[-> H2]]; [left; lia|by left|by left|].
  right. split; [done|]. by apply (IH t u).
Qed.

Lemma str_leb_antisym s : forall t,
  str_leb s t = true -> str_leb t s = true -> s = t.
Proof.
  induction s as [|c s IH]; intros [|d t]; cbn [str_leb]; try done.
  rewrite !orb_true_iff, !andb_true_iff, !N.ltb_lt, !N.eqb_eq.
  intros [H1|[-> H1]] [H2|[H2 H3]]; try lia. f_equal. by apply IH.
Qed.

#[local] Instance str_le_total : Total (fun s t => Is_true (str_leb s t)).
Proof.
  intros s t. destruct (str_leb_total s t) as [H|H]; [left|right]; by rewrite H.
Qed.

#[local] Instance str_le_trans : Transitive (fun s t => Is_true (str_leb s t)).
Proof.
  intros s t u H1%Is_true_true H2%Is_true_true.
  apply Is_true_true. by eapply str_leb_trans.
Qed.

Lemma match_nonempty {A B} (l : list A) (x y : B) :
  l <> [] -> match l with [] => x | _ :: _ => y end = y.
Proof. by destruct l. Qed.

Lemma show_all_loop_spec pad book names records : forall acc,
  Forall2 (fun k r => find k book = Some r) names records ->
  Commands.show_all_loop pad names book acc
  = inr (acc ++ (Record_str pad <$> records)).
Proof.
  intros acc H. revert acc.
  induction H as [|k r names records Hk _ IH]; intros acc;
    cbn [Commands.show_all_loop fmap list_fmap].
  - by rewrite app_nil_r.
  - unfold find in Hk. rewrite Hk, IH, <- app_assoc. reflexivity.
Qed.

Lemma keys_found {V} (d : list (list N * V)) names :
  names ⊆ dict_keys d ->
  exists values, Forall2 (fun k v => dict_get k d = Some v) names values.
Proof.
  induction names as [|k names IH]; intros Hsub; [by exists []|].
  destruct IH as [values Hvalues].
  { intros x Hx. apply Hsub. by right. }
  destruct (dict_get k d) as [v|] eqn:E.
  - exists (v :: values). by constructor.
  - apply dict_get_None in E. destruct E. apply Hsub. left.
Qed.

(** X20: [show_all] answers ["No contacts in address book."] for an empty
    book, and otherwise one line for each contact, the text of
    [Record.__str__], the lines in the order of the names as [str]
    compares them (by code points: capital letters before small ones),
    whatever the order of the book; it never fails. *)
Theorem show_all_sorted (pad_year : bool) (book : AddressBook) :
  (data book = [] ->
   Commands.show_all pad_year book
   = (Some (lit "No contacts in address book."), book))
  /\ (data book <> [] ->
      exists names records,
        Commands.show_all pad_year book
        = (Some (str_join [10%N] (Record_str pad_year <$> records)), book)
        /\ names ≡ₚ dict_keys (data book)
        /\ StronglySorted (fun s t => str_leb s t = true) names
        /\ Forall2 (fun k r => find k book = Some r) names records).
Proof.
  split.
  - intros Hempty. apply input_error_returns. by rewrite Hempty.
  - intros Hne.
    pose proof (merge_sort_Permutation
                  (fun s t => Is_true (str_leb s t)) (dict_keys (data book)))
      as Hperm.
    pose proof (StronglySorted_merge_sort
                  (fun s t => Is_true (str_leb s t)) (dict_keys (data book)))
      as Hsorted.
    destruct (keys_found (data book) (sorted (dict_keys (data book))))
      as [records Hrecords].
    { intros k Hk. unfold sorted in Hk. by rewrite Hperm in Hk. }
    exists (sorted (dict_keys (data book))), records.
    split; [|split; [exact Hperm|split; [|exact Hrecords]]].
    + apply input_error_returns. cbv beta.
      rewrite match_nonempty by done.
      rewrite (show_all_loop_spec _ _ _ records) by exact Hrecords.
      reflexivity.
    + unfold sorted. clear -Hsorted.
      induction Hsorted as [|k names _ IH Hall]; constructor; [exact IH|].
      eapply Forall_impl; [exact Hall|]. intros t. apply Is_true_true.
Qed.

Lemma show_all_sorted_witness :
  Commands.show_all false
    (add_record (mkRecord (mkName (lit "ann")) [] None) sample_book)
  = (Some (lit "Contact name: Ann, phones: 0501234567, birthday: 15.06.1990"
           ++ [10%N]
           ++ lit "Contact name: Bob, phones: no phones, birthday: 29.02.2000"
           ++ [10%N]
           ++ lit "Contact name: Eve, phones: 1111111111; 2222222222"
           ++ [10%N]
           ++ lit "Contact name: ann, phones: no phones"),
     add_record (mkRecord (mkName (lit "ann")) [] None) sample_book)
  /\ exists names,
       names ≡ₚ [lit "Ann"; lit "Bob"; lit "Eve"; lit "ann"]
       /\ StronglySorted (fun s t => str_leb s t = true) names.
Proof.
  destruct (show_all_sorted false
              (add_record (mkRecord (mkName (lit "ann")) [] None) sample_book))
    as [_ H].
  destruct H as (names & records & _ & Hperm & Hsorted & _);
    [vm_compute; discriminate|].
  split; [vm_compute; reflexivity|].
  exists names. split; [exact Hperm|exact Hsorted].
Defined.

Lemma digit_char_of_value c v :
  ascii_digit_value c = Some v -> digit_char v = c.
Proof.
  intros (Hd & -> & Hv)%ascii_digit_value_Some. unfold digit_char. lia.
Qed.

Lemma zero_pad_2_digits c1 c2 v1 v2 :
  ascii_digit_value c1 = Some v1 -> ascii_digit_value c2 = Some v2 ->
  zero_pad 2 (10 * v1 + v2) = [c1; c2].
Proof.
  intros H1 H2.
  pose proof (ascii_digit_value_Some _ _ H1) as (_ & _ & B1).
  pose proof (ascii_digit_value_Some _ _ H2) as (_ & _ & B2).
  rewrite zero_pad_2 by lia.
  replace ((10 * v1 + v2) / 10) with v1 by (Z.div_mod_to_equations; lia).
  replace ((10 * v1 + v2) mod 10) with v2 by (Z.div_mod_to_equations; lia).
  by rewrite (digit_char_of_value _ _ H1), (digit_char_of_value _ _ H2).
Qed.

Lemma zero_pad_4_digits c1 c2 c3 c4 v1 v2 v3 v4 :
  ascii_digit_value c1 = Some v1 -> ascii_digit_value c2 = Some v2 ->
  ascii_digit_value c3 = Some v3 -> ascii_digit_value c4 = Some v4 ->
  zero_pad 4 (1000 * v1 + 100 * v2 + 10 * v3 + v4) = [c1; c2; c3; c4].
Proof.
  intros H1 H2 H3 H4.
  pose proof (ascii_digit_value_Some _ _ H1) as (_ & _ & B1).
  pose proof (ascii_digit_value_Some _ _ H2) as (_ & _ & B2).
  pose proof (ascii_digit_value_Some _ _ H3) as (_ & _ & B3).
  pose proof (ascii_digit_value_Some _ _ H4) as (_ & _ & B4).
  set (n := 1000 * v1 + 100 * v2 + 10 * v3 + v4).
  rewrite zero_pad_4 by (unfold n; lia).
  replace (n / 1000) with v1 by (unfold n; Z.div_mod_to_equations; lia).
  replace (n / 100 mod 10) with v2 by (unfold n; Z.div_mod_to_equations; lia).
  replace (n / 10 mod 10) with v3 by (unfold n; Z.div_mod_to_equations; lia).
  replace (n mod 10) with v4 by (unfold n; Z.div_mod_to_equations; lia).
  by rewrite (digit_char_of_value _ _ H1), (digit_char_of_value _ _ H2),
    (digit_char_of_value _ _ H3), (digit_char_of_value _ _ H4).
Qed.

(** A text [DD.MM.YYYY] is what [strftime] writes for its date. *)
Lemma strftime_of_DDMMYYYY pad s d :
  spec_DDMMYYYY s = Some d -> (pad = true \/ 1000 <= year d) ->
  strftime_dmY pad d = s.
Proof.
  unfold spec_DDMMYYYY.
  destruct s as [|d1 [|d2 [|p1 [|m1 [|m2 [|p2 [|y1 [|y2 [|y3 [|y4 [|x s]]]]]]]]]]];
    try discriminate.
  destruct ((p1 =? 46)%N && (p2 =? 46)%N) eqn:Ep; [|discriminate].
  apply andb_true_iff in Ep as [->%N.eqb_eq ->%N.eqb_eq].
  destruct (ascii_digit_value d1) as [vd1|] eqn:Ed1; [|discriminate].
  destruct (ascii_digit_value d2) as [vd2|] eqn:Ed2; [|discriminate].
  destruct (ascii_digit_value m1) as [vm1|] eqn:Em1; [|discriminate].
  destruct (ascii_digit_value m2) as [vm2|] eqn:Em2; [|discriminate].
  destruct (ascii_digit_value y1) as [vy1|] eqn:Ey1; [|discriminate].
  destruct (ascii_digit_value y2) as [vy2|] eqn:Ey2; [|discriminate].
  destruct (ascii_digit_value y3) as [vy3|] eqn:Ey3; [|discriminate].
  destruct (ascii_digit_value y4) as [vy4|] eqn:Ey4; [|discriminate].
  cbn [mbind option_bind]. cbv zeta.
  destruct (valid_dateb _ _ _); [|discriminate].
  intros [= <-] Hy. unfold strftime_dmY. cbn [year month day].
  rewrite (zero_pad_2_digits _ _ _ _ Ed1 Ed2), (zero_pad_2_digits _ _ _ _ Em1 Em2).
  assert ((if pad then zero_pad 4 (1000 * vy1 + 100 * vy2 + 10 * vy3 + vy4)
           else decimal (1000 * vy1 + 100 * vy2 + 10 * vy3 + vy4))
          = [y1; y2; y3; y4]) as ->; [|reflexivity].
  pose proof (ascii_digit_value_Some _ _ Ey1) as (_ & _ & B1).
  pose proof (ascii_digit_value_Some _ _ Ey2) as (_ & _ & B2).
  pose proof (ascii_digit_value_Some _ _ Ey3) as (_ & _ & B3).
  pose proof (ascii_digit_value_Some _ _ Ey4) as (_ & _ & B4).
  destruct pad.
  - by apply zero_pad_4_digits.
  - cbn [year] in Hy. destruct Hy as [?|Hy]; [discriminate|].
    rewrite decimal_4 by lia. by apply zero_pad_4_digits.
Qed.

(** X21: [add_birthday] with a date written [DD.MM.YYYY] on a contact of
    the book answers ["Birthday added."], and [show_birthday] of the
    contact then answers that same text.  (On the platforms that write the
    year without zeros in front, for the years from 1000 on.) *)
Theorem add_birthday_show_birthday
    (pad_year : bool) (contact_name text : str) (rest rest' : list str)
    (book : AddressBook) (record : ContactRecord) (d : date) :
  find contact_name book = Some record ->
  spec_DDMMYYYY text = Some d -> (pad_year = true \/ 1000 <= year d) ->
  exists book',
    Commands.add_birthday (contact_name :: text :: rest) book
    = (Some (lit "Birthday added."), book')
    /\ find contact_name book'
       = Some (mkRecord (name record) (phones record)
                 (Some (mkBirthday (mkdatetime d 0 0 0 0 0))))
    /\ Commands.show_birthday pad_year (contact_name :: rest') book'
       = (Some text, book').
Proof.
  intros Hfind Hd Hy.
  pose proof (Birthday_init_strict _ _ Hd) as Hb.
  eexists. split; [|split].
  - apply input_error_returns. rewrite Hfind.
    unfold Commands.call_method. rewrite add_birthday_spec, Hb. reflexivity.
  - unfold find. cbn [data]. apply dict_get_setitem_eq.
  - apply input_error_returns. unfold find. cbn [data].
    rewrite dict_get_setitem_eq. cbn [birthday birthday_value].
    unfold datetime_date. cbn [dt_date].
    by rewrite (strftime_of_DDMMYYYY _ _ _ Hd Hy).
Qed.

Lemma add_birthday_show_birthday_witness :
  exists book',
    Commands.add_birthday [lit "Eve"; lit "07.03.1985"] sample_book
    = (Some (lit "Birthday added."), book')
    /\ Commands.show_birthday false [lit "Eve"] book'
       = (Some (lit "07.03.1985"), book').
Proof.
  destruct (add_birthday_show_birthday false (lit "Eve") (lit "07.03.1985")
              [] [] sample_book _ (mkdate 1985 3 7) eq_refl)
    as (book' & Hadd & _ & Hshow);
    [vm_compute; reflexivity|right; vm_compute; discriminate|].
  exists book'. split; [exact Hadd|exact Hshow].
Defined.

(** X22: [birthdays] looks 7 days ahead and does not look at its
    arguments: it answers ["No upcoming birthdays."] when no contact has a
    birthday in the 7 days from today on, and otherwise the line
    ["Upcoming birthdays:"] and then a line ["NAME: DATE (congratulate on
    DATE)"] for each of them; the book stays as it is. *)
Theorem birthdays_lists
    (today : date) (pad_year : bool) (args : list str) (book : AddressBook) :
  valid_date today -> year today < MAXYEAR ->
  Forall birthday_valid (dict_values (data book)) ->
  exists result,
    get_upcoming_birthdays today pad_year 7 book = inr result
    /\ u_name <$> result
       = Record_name
           <$> List.filter (spec_included today 7) (dict_values (data book))
    /\ Commands.birthdays today pad_year args book
       = (Some (match result with
                | [] => lit "No upcoming birthdays."
                | _ =>
                    str_join [10%N]
                      (lit "Upcoming birthdays:"
                       :: (Commands.entry_line <$> result))
                end), book).
Proof.
  intros Ht Hy Hbook. eexists.
  split; [by apply get_upcoming_birthdays_spec|].
  split; [apply spec_report_names|].
  apply input_error_returns.
  rewrite (get_upcoming_birthdays_spec _ _ _ _ Ht Hy Hbook).
  by destruct (omap _ _).
Qed.

Lemma birthdays_lists_witness :
  Commands.birthdays (mkdate 2024 6 10) false [] sample_book
  = (Some (lit "Upcoming birthdays:" ++ [10%N]
           ++ lit "Ann: 15.06.2024 (congratulate on 17.06.2024)"),
     sample_book)
  /\ Commands.birthdays (mkdate 2024 7 10) false [lit "x"] sample_book
     = (Some (lit "No upcoming birthdays."), sample_book).
Proof.
  destruct (birthdays_lists (mkdate 2024 6 10) false [] sample_book)
    as (r1 & H1 & _ & ->);
    [vm_compute; reflexivity|vm_compute; reflexivity
    |exact sample_book_birthdays|].
  destruct (birthdays_lists (mkdate 2024 7 10) false [lit "x"] sample_book)
    as (r2 & H2 & _ & ->);
    [vm_compute; reflexivity|vm_compute; reflexivity
    |exact sample_book_birthdays|].
  vm_compute in H1, H2. injection H1 as <-. injection H2 as <-.
  split; reflexivity.
Defined.

(* ------------------------------------------------------------------ *)
(** The command line *)

Lemma split_from_word word s :
  Forall (fun c => char_isspace c = false) s ->
  split_from word s = match word ++ s with [] => [] | w => [w] end.
Proof.
  revert word. induction s as [|c s IH]; intros word Hs; cbn [split_from].
  - rewrite app_nil_r. by destruct word.
  - apply Forall_cons in Hs as [Hc Hs]. rewrite Hc, IH by done.
    rewrite <- app_assoc. cbn [app]. by destruct word.
Qed.

Lemma split_from_app word w c rest :
  Forall (fun c => char_isspace c = false) w -> char_isspace c = true ->
  split_from word (w ++ c :: rest)
  = match word ++ w with
    | [] => split_from [] rest
    | x => x :: split_from [] rest
    end.
Proof.
  revert word. induction w as [|d w IH]; intros word Hw Hc; cbn [split_from app].
  - rewrite Hc, app_nil_r. by destruct word.
  - apply Forall_cons in Hw as [Hd Hw]. rewrite Hd, IH by done.
    by rewrite <- app_assoc.
Qed.

Lemma split_from_spaces spaces s :
  Forall (fun c => char_isspace c = true) spaces ->
  split_from [] (spaces ++ s) = split_from [] s.
Proof.
  induction 1 as [|c spaces Hc _ IH]; cbn [split_from app]; [done|].
  by rewrite Hc.
Qed.

Lemma split_from_no_space s : forall word,
  Forall (fun c => char_isspace c = false) word ->
  Forall no_space (split_from word s).
Proof.
  induction s as [|c s IH]; intros word Hword; cbn [split_from].
  - destruct word; [constructor|]. constructor; [by split|constructor].
  - destruct (char_isspace c) eqn:Hc.
    + destruct word as [|d word]; [by apply IH|].
      constructor; [by split|by apply IH].
    + apply IH. apply Forall_app. split; [done|by repeat constructor].
Qed.

Lemma lstrip_no_space w :
  Forall (fun c => char_isspace c = false) w -> lstrip w = w.
Proof. destruct 1 as [|c w Hc _]; cbn [lstrip]; [done|by rewrite Hc]. Qed.

Lemma strip_no_space w :
  Forall (fun c => char_isspace c = false) w -> strip w = w.
Proof.
  intros Hw. unfold strip. rewrite (lstrip_no_space w Hw).
  rewrite lstrip_no_space; [apply rev_involutive|].
  apply Forall_forall. intros c Hc. rewrite Forall_forall in Hw. apply Hw.
  apply list_elem_of_In. apply (proj2 (in_rev _ _)). by apply list_elem_of_In.
Qed.

Lemma strip_not_nil s :
  Exists (fun c => char_isspace c = false) s -> strip s <> [].
Proof.
  intros Hex Hnil. apply strip_nil in Hnil.
  apply Exists_exists in Hex as (c & Hc & Hs).
  rewrite Forall_forall in Hnil. rewrite (Hnil c Hc) in Hs. discriminate.
Qed.

Lemma parse_input_blank (user_input : str) :
  Forall (fun c => char_isspace c = true) user_input ->
  Commands.parse_input user_input = inr ([], []).
Proof.
  intros Hs. unfold Commands.parse_input.
  rewrite (proj2 (strip_nil _) Hs). cbn [str_truthy negb]. by rewrite orb_true_r.
Qed.

Lemma parse_input_first_word (spaces word rest : str) :
  Forall (fun c => char_isspace c = true) spaces ->
  no_space word ->
  (rest = [] \/ exists c rest', rest = c :: rest' /\ char_isspace c = true) ->
  Commands.parse_input (spaces ++ word ++ rest)
  = inr (str_lower word, str_split rest).
Proof.
  intros Hsp [Hne Hw] Hrest.
  unfold Commands.parse_input.
  assert (Exists (fun c => char_isspace c = false) (spaces ++ word ++ rest))
    as Hex.
  { destruct word as [|c word]; [done|]. apply Forall_cons in Hw as [Hc _].
    apply Exists_app. right. by left. }
  pose proof (strip_not_nil _ Hex) as Hstrip.
  destruct (spaces ++ word ++ rest) as [|x xs] eqn:E.
  { by apply Exists_nil in Hex. }
  destruct (strip (x :: xs)) as [|y ys]; [done|].
  cbn [str_truthy negb orb]. rewrite <- E. unfold str_split.
  rewrite split_from_spaces by done.
  destruct Hrest as [->|(c & rest' & -> & Hc)].
  - rewrite app_nil_r, split_from_word by done. cbn [app].
    destruct word as [|c word]; [done|].
    rewrite strip_no_space by done. reflexivity.
  - rewrite split_from_app by done. cbn [app].
    destruct word as [|d word]; [done|].
    rewrite strip_no_space by done. cbn [split_from]. by rewrite Hc.
Qed.

Lemma split_from_nil (s word : str) :
  split_from word s = [] ->
  word = [] /\ Forall (fun c => char_isspace c = true) s.
Proof.
  revert word. induction s as [|c s IH]; intros word; cbn [split_from].
  - destruct word; [done|discriminate].
  - destruct (char_isspace c) eqn:Hc.
    + destruct word; [|discriminate]. intros Hs.
      destruct (IH _ Hs) as [_ ?]. split; [done|by constructor].
    + intros Hs. destruct (IH _ Hs) as [Hw _].
      by apply app_eq_nil in Hw as [_ ?].
Qed.

Lemma parse_input_args (user_input : str) :
  exists command args,
    Commands.parse_input user_input = inr (command, args)
    /\ Forall no_space args.
Proof.
  unfold Commands.parse_input.
  destruct (negb (str_truthy user_input)
            || negb (str_truthy (strip user_input))) eqn:E.
  { exists [], []. split; [done|constructor]. }
  pose proof (split_from_no_space user_input [] ltac:(constructor)) as Hall.
  unfold str_split. destruct (split_from [] user_input) as [|cmd args] eqn:Es.
  - exfalso. apply orb_false_iff in E as [_ E].
    apply negb_false_iff in E.
    destruct (split_from_nil _ _ Es) as [_ Hs].
    apply strip_nil in Hs. rewrite Hs in E. discriminate.
  - exists (str_lower (strip cmd)), args. split; [done|].
    by apply Forall_cons in Hall as [_ ?].
Qed.

(** X23: [parse_input] never raises.  A line that is empty or all white
    space gives the empty command and no arguments.  Any other line is
    white space, a first word, and the rest: the command is the first word
    in lower case, and the arguments are the words of the rest, none of
    them empty and none with white space in it. *)
Theorem parse_input_words (user_input : str) :
  (Forall (fun c => char_isspace c = true) user_input ->
   Commands.parse_input user_input = inr ([], []))
  /\ (forall spaces word rest,
        user_input = spaces ++ word ++ rest ->
        Forall (fun c => char_isspace c = true) spaces ->
        no_space word ->
        (rest = [] \/ exists c rest', rest = c :: rest' /\ char_isspace c = true) ->
        Commands.parse_input user_input
        = inr (str_lower word, str_split rest))
  /\ (exists command args,
        Commands.parse_input user_input = inr (command, args)
        /\ Forall no_space args).
Proof.
  split; [apply parse_input_blank|]. split; [|apply parse_input_args].
  intros spaces word rest -> Hsp Hw Hrest. by apply parse_input_first_word.
Qed.

Lemma parse_input_words_witness :
  Commands.parse_input (lit "  ADD  Ann   0501234567 ")
  = inr (lit "add", [lit "Ann"; lit "0501234567"])
  /\ Commands.parse_input (lit "   ") = inr ([], []).
Proof.
  destruct (parse_input_words (lit "  ADD  Ann   0501234567 ")) as (_ & H & _).
  rewrite (H (lit "  ") (lit "ADD") (lit "  Ann   0501234567 "));
    [|reflexivity|repeat constructor|split; [discriminate|repeat constructor]
     |right; eexists _, _; split; reflexivity].
  split; [vm_compute; reflexivity|].
  apply (proj1 (parse_input_words (lit "   "))). repeat constructor.
Defined.

Lemma char_lower_ascii c :
  (c < 128)%N -> char_lower c = [ascii_lower c] /\ c <> 931%N.
Proof.
  intros Hc.
  assert (ascii_lower_ok (Z.of_N c) = true) as Hok
    by (apply (forall_below_spec 128%nat ascii_lower_ok); [by vm_compute|lia]).
  unfold ascii_lower_ok in Hok. rewrite N2Z.id in Hok.
  apply andb_true_iff in Hok as [Hl Hs].
  apply bool_decide_eq_true in Hl. apply negb_true_iff, N.eqb_neq in Hs. done.
Qed.

Lemma do_lower_ascii s : forall before,
  Forall (fun c => (c < 128)%N) s -> do_lower before s = ascii_lower <$> s.
Proof.
  induction s as [|c s IH]; intros before Hs; cbn [do_lower fmap list_fmap];
    [done|].
  apply Forall_cons in Hs as [Hc Hs].
  destruct (char_lower_ascii c Hc) as [-> Hne].
  rewrite (proj2 (N.eqb_neq _ _) Hne), IH by done. reflexivity.
Qed.

(** X24: the command word is read without regard to the case of the ASCII
    letters: a first word of ASCII characters gives the command with
    [A] .. [Z] replaced by [a] .. [z]; so two lines whose first words
    differ in the case of ASCII letters only, and that go on alike, parse
    alike.  The arguments keep their case. *)
Theorem parse_input_command_case (word word' rest : str) :
  no_space word -> no_space word' ->
  Forall (fun c => (c < 128)%N) word -> Forall (fun c => (c < 128)%N) word' ->
  (rest = [] \/ exists c rest', rest = c :: rest' /\ char_isspace c = true) ->
  Commands.parse_input (word ++ rest)
  = inr (ascii_lower <$> word, str_split rest)
  /\ (ascii_lower <$> word = ascii_lower <$> word' ->
      Commands.parse_input (word ++ rest) = Commands.parse_input (word' ++ rest)).
Proof.
  intros Hw Hw' Ha Ha' Hrest.
  pose proof (parse_input_first_word [] word rest) as H.
  pose proof (parse_input_first_word [] word' rest) as H'.
  cbn [app] in H, H'. rewrite H, H' by (done || constructor).
  unfold str_lower. rewrite !do_lower_ascii by done.
  split; [done|]. by intros ->.
Qed.

Lemma parse_input_command_case_witness :
  Commands.parse_input (lit "Add-Birthday Ann 01.02.2000")
  = inr (lit "add-birthday", [lit "Ann"; lit "01.02.2000"])
  /\ Commands.parse_input (lit "ADD-BIRTHDAY Ann 01.02.2000")
     = Commands.parse_input (lit "Add-Birthday Ann 01.02.2000").
Proof.
  destruct (parse_input_command_case (lit "ADD-BIRTHDAY") (lit "Add-Birthday")
              (lit " Ann 01.02.2000")) as [_ Hsame];
    [split; [discriminate|repeat constructor]
    |split; [discriminate|repeat constructor]
    |repeat constructor|repeat constructor
    |right; eexists _, _; split; reflexivity|].
  destruct (parse_input_command_case (lit "Add-Birthday") (lit "Add-Birthday")
              (lit " Ann 01.02.2000")) as [Hparse _];
    [split; [discriminate|repeat constructor]
    |split; [discriminate|repeat constructor]
    |repeat constructor|repeat constructor
    |right; eexists _, _; split; reflexivity|].
  split; [exact Hparse|]. apply Hsame. reflexivity.
Defined.

(* ------------------------------------------------------------------ *)
(** The loop of [main] *)

Lemma input_error_is_Some func book :
  match (func book).1 with
  | inl (Commands.Raised e) => has_text e
  | _ => True
  end ->
  is_Some (Commands.input_error func book).1.
Proof.
  unfold Commands.input_error. destruct (func book) as [[[e|msg]|text] book'];
    cbn [fst]; [|intros _; by eexists..].
  destruct e; cbn [has_text]; intros H; first [by destruct H | by eexists].
Qed.

Lemma input_error_book func book :
  (Commands.input_error func book).2 = (func book).2.
Proof. unfold Commands.input_error. by destruct (func book). Qed.

Lemma run_op_has_text op record e :
  (run_op op record).1 = inl e -> has_text e.
Proof.
  destruct op as [phone|phone|old_phone new_phone|text]; cbn [run_op].
  - rewrite add_phone_spec. destruct (Phone_init phone) as [e'|p] eqn:E; [|done].
    intros [= <-]. by destruct (Phone_init_ValueError _ _ E) as [msg ->].
  - rewrite remove_phone_spec. destruct (list_find _ _) as [[i q]|]; [done|].
    by intros [= <-].
  - rewrite edit_phone_spec. destruct (list_find _ _) as [[i q]|].
    + destruct (Phone_init new_phone) as [e'|p] eqn:E; [|done].
      intros [= <-]. by destruct (Phone_init_ValueError _ _ E) as [msg ->].
    + by intros [= <-].
  - rewrite add_birthday_spec.
    destruct (Birthday_init text) as [e'|b] eqn:E; [|done].
    intros [= <-]. by rewrite (Birthday_init_inl _ _ E).
Qed.

Lemma call_method_has_text key record op book :
  match (Commands.call_method key record (run_op op) book).1 with
  | inl (Commands.Raised e) => has_text e
  | _ => True
  end.
Proof.
  unfold Commands.call_method.
  pose proof (run_op_has_text op record) as H.
  destruct (run_op op record) as [[e|x] record']; cbn [fst Commands.lift]; [|done].
  by apply H.
Qed.

Lemma call_method_reachable fs book key record op :
  reachable fs book -> find key book = Some record ->
  reachable fs (Commands.call_method key record (run_op op) book).2.
Proof.
  intros Hr Hfind. unfold Commands.call_method.
  destruct (run_op op record) as [r record'] eqn:E. cbn [snd].
  apply (reach_call fs book key op r); [done|].
  unfold call_on. by rewrite Hfind, E.
Qed.

Lemma Record_init_has_text text e : Record_init text = inl e -> has_text e.
Proof.
  unfold Record_init, Name_init. destruct (_ || _); [|discriminate].
  by intros [= <-].
Qed.

Lemma add_contact_ok fs args book :
  is_Some (Commands.add_contact args book).1
  /\ (reachable fs book -> reachable fs (Commands.add_contact args book).2).
Proof.
  unfold Commands.add_contact. rewrite input_error_book.
  split; [apply input_error_is_Some|intros Hr]; cbv beta;
    destruct args as [|contact_name [|phone rest]]; try done.
  - destruct (find contact_name book) as [record|] eqn:Hfind.
    + destruct (str_truthy phone); [|done].
      change (add_phone phone) with (run_op (OpAddPhone phone)).
      pose proof (call_method_has_text contact_name record (OpAddPhone phone) book) as H.
      destruct (Commands.call_method _ _ _ _) as [[[e|msg]|x] book']; done.
    + destruct (Record_init contact_name) as [e|record] eqn:Hn.
      { cbn [bind_exn fst]. by eapply Record_init_has_text. }
      cbn [bind_exn]. destruct (str_truthy phone); [|done].
      change (add_phone phone) with (run_op (OpAddPhone phone)).
      pose proof (call_method_has_text contact_name record (OpAddPhone phone)
                    (add_record record book)) as H.
      destruct (Commands.call_method _ _ _ _) as [[[e|msg]|x] book']; done.
  - destruct (find contact_name book) as [record|] eqn:Hfind.
    + destruct (str_truthy phone); [|done].
      change (add_phone phone) with (run_op (OpAddPhone phone)).
      pose proof (call_method_reachable fs book contact_name record
                    (OpAddPhone phone) Hr Hfind) as H.
      by destruct (Commands.call_method _ _ _ _) as [r book'].
    + destruct (Record_init contact_name) as [e|record] eqn:Hn; [done|].
      cbn [bind_exn].
      assert (reachable fs (add_record record book)) as Hr'.
      { apply reach_add_record; [done|]. by eapply built_init. }
      destruct (str_truthy phone); [|done].
      change (add_phone phone) with (run_op (OpAddPhone phone)).
      assert (find contact_name (add_record record book) = Some record) as Hf.
      { apply Record_init_inr in Hn as ->. unfold find, add_record.
        cbn [data name name_value]. apply dict_get_setitem_eq. }
      pose proof (call_method_reachable fs _ contact_name record
                    (OpAddPhone phone) Hr' Hf) as H.
      by destruct (Commands.call_method _ _ _ _) as [r book'].
Qed.

Lemma change_contact_ok fs args book :
  is_Some (Commands.change_contact args book).1
  /\ (reachable fs book -> reachable fs (Commands.change_contact args book).2).
Proof.
  unfold Commands.change_contact. rewrite input_error_book.
  split; [apply input_error_is_Some|intros Hr]; cbv beta;
    destruct args as [|contact_name [|old_phone [|new_phone rest]]]; try done;
    destruct (find contact_name book) as [record|] eqn:Hfind; try done;
    change (edit_phone old_phone new_phone)
      with (run_op (OpEditPhone old_phone new_phone)).
  - pose proof (call_method_has_text contact_name record
                  (OpEditPhone old_phone new_phone) book) as H.
    destruct (Commands.call_method _ _ _ _) as [[[e|msg]|x] book']; done.
  - pose proof (call_method_reachable fs book contact_name record
                  (OpEditPhone old_phone new_phone) Hr Hfind) as H.
    by destruct (Commands.call_method _ _ _ _) as [r book'].
Qed.

Lemma add_birthday_ok fs args book :
  is_Some (Commands.add_birthday args book).1
  /\ (reachable fs book -> reachable fs (Commands.add_birthday args book).2).
Proof.
  unfold Commands.add_birthday. rewrite input_error_book.
  split; [apply input_error_is_Some|intros Hr]; cbv beta;
    destruct args as [|contact_name [|text rest]]; try done;
    destruct (find contact_name book) as [record|] eqn:Hfind; try done;
    change (add_birthday text) with (run_op (OpAddBirthday text)).
  - pose proof (call_method_has_text contact_name record
                  (OpAddBirthday text) book) as H.
    destruct (Commands.call_method _ _ _ _) as [[[e|msg]|x] book']; done.
  - pose proof (call_method_reachable fs book contact_name record
                  (OpAddBirthday text) Hr Hfind) as H.
    by destruct (Commands.call_method _ _ _ _) as [r book'].
Qed.

Lemma show_phone_ok args book :
  is_Some (Commands.show_phone args book).1
  /\ (Commands.show_phone args book).2 = book.
Proof.
  unfold Commands.show_phone. rewrite input_error_book.
  split; [apply input_error_is_Some|]; cbv beta;
    destruct args as [|contact_name rest]; try done;
    destruct (find contact_name book) as [record|]; try done;
    by destruct (phones record).
Qed.

Lemma show_birthday_ok pad args book :
  is_Some (Commands.show_birthday pad args book).1
  /\ (Commands.show_birthday pad args book).2 = book.
Proof.
  unfold Commands.show_birthday. rewrite input_error_book.
  split; [apply input_error_is_Some|]; cbv beta;
    destruct args as [|contact_name rest]; try done;
    destruct (find contact_name book) as [record|]; try done;
    by destruct (birthday record).
Qed.

Lemma show_all_loop_has_text pad names book : forall acc e,
  Commands.show_all_loop pad names book acc = inl e -> has_text e.
Proof.
  induction names as [|k names IH]; intros acc e; cbn [Commands.show_all_loop];
    [discriminate|].
  destruct (dict_get k (data book)); [apply IH|by intros [= <-]].
Qed.

Lemma show_all_ok pad book :
  is_Some (Commands.show_all pad book).1
  /\ (Commands.show_all pad book).2 = book.
Proof.
  unfold Commands.show_all. rewrite input_error_book.
  split; [apply input_error_is_Some|]; cbv beta;
    destruct (data book) as [|kv d]; try done.
  cbn [fst].
  destruct (Commands.show_all_loop _ _ _ _) as [e|result] eqn:E; [|done].
  cbn [bind_exn Commands.lift]. by eapply show_all_loop_has_text.
Qed.

Lemma birthday_in_year_has_text birth y e :
  birthday_in_year birth y = inl e -> has_text e.
Proof.
  unfold birthday_in_year, replace_year, replace_year_day.
  destruct (make_date y (month birth) (day birth)) as [e1|d1] eqn:E1;
    [|discriminate].
  apply make_date_inl in E1 as [msg ->].
  destruct (make_date y (month birth) 28) as [e2|d2] eqn:E2; [|discriminate].
  apply make_date_inl in E2 as [msg2 ->]. by intros [= <-].
Qed.

Lemma upcoming_step_has_text today pad days r acc e :
  upcoming_step today pad days r acc = inl e -> has_text e.
Proof.
  unfold upcoming_step. destruct (birthday r) as [b|]; [|discriminate].
  unfold next_birthday.
  destruct (birthday_in_year _ (year today)) as [e1|d1] eqn:E1; cbn [bind_exn].
  { intros [= <-]. by eapply birthday_in_year_has_text. }
  destruct (match date_ltb d1 today with
            | true => birthday_in_year (datetime_date (birthday_value b))
                        (year today + 1)
            | false => inr d1
            end) as [e2|d2] eqn:E2; cbn [bind_exn].
  { intros [= <-]. destruct (date_ltb d1 today); [|discriminate].
    by eapply birthday_in_year_has_text. }
  destruct (_ && _); [|discriminate].
  unfold congratulation, date_add_days.
  repeat match goal with
         | |- context [if ?c then _ else _] => destruct c
         end; cbn [bind_exn]; try discriminate; by intros [= <-].
Qed.

Lemma upcoming_loop_has_text today pad days records : forall acc e,
  upcoming_loop today pad days records acc = inl e -> has_text e.
Proof.
  induction records as [|r records IH]; intros acc e; cbn [upcoming_loop];
    [discriminate|].
  destruct (upcoming_step today pad days r acc) as [e1|acc'] eqn:E;
    cbn [bind_exn]; [|apply IH].
  intros [= <-]. by eapply upcoming_step_has_text.
Qed.

Lemma birthdays_ok today pad args book :
  is_Some (Commands.birthdays today pad args book).1
  /\ (Commands.birthdays today pad args book).2 = book.
Proof.
  unfold Commands.birthdays. rewrite input_error_book.
  split; [apply input_error_is_Some|]; cbv beta.
  - destruct (get_upcoming_birthdays today pad 7 book) as [e|[|x l]] eqn:E;
      try done.
    cbn [fst]. by eapply upcoming_loop_has_text.
  - by destruct (get_upcoming_birthdays today pad 7 book) as [e|[|x l]].
Qed.

Lemma dispatch_ok fs today pad command args book :
  exists out book',
    Commands.dispatch today pad command args book = Some (out, book')
    /\ (reachable fs book -> reachable fs book').
Proof.
  unfold Commands.dispatch.
  repeat match goal with
         | |- context [bool_decide ?P] => destruct (bool_decide P)
         end; try by eexists _, _.
  - destruct (add_contact_ok fs args book) as [[t Ht] Hr].
    destruct (Commands.add_contact args book) as [o b]. cbn [fst snd] in *.
    subst o. by eexists _, _.
  - destruct (change_contact_ok fs args book) as [[t Ht] Hr].
    destruct (Commands.change_contact args book) as [o b]. cbn [fst snd] in *.
    subst o. by eexists _, _.
  - destruct (show_phone_ok args book) as [[t Ht] Hr].
    destruct (Commands.show_phone args book) as [o b]. cbn [fst snd] in *.
    subst o b. by eexists _, _.
  - destruct (show_all_ok pad book) as [[t Ht] Hr].
    destruct (Commands.show_all pad book) as [o b]. cbn [fst snd] in *.
    subst o b. by eexists _, _.
  - destruct (add_birthday_ok fs args book) as [[t Ht] Hr].
    destruct (Commands.add_birthday args book) as [o b]. cbn [fst snd] in *.
    subst o. by eexists _, _.
  - destruct (show_birthday_ok pad args book) as [[t Ht] Hr].
    destruct (Commands.show_birthday pad args book) as [o b]. cbn [fst snd] in *.
    subst o b. by eexists _, _.
  - destruct (birthdays_ok today pad args book) as [[t Ht] Hr].
    destruct (Commands.birthdays today pad args book) as [o b]. cbn [fst snd] in *.
    subst o b. by eexists _, _.
Qed.

Lemma parse_input_returns user_input :
  exists command args, Commands.parse_input user_input = inr (command, args).
Proof.
  destruct (parse_input_args user_input) as (c & a & H & _).
  by exists c, a.
Qed.

Lemma main_loop_exit pad today line inputs book fs :
  exits line = true ->
  Commands.main_loop pad ((today, line) :: inputs) book fs
  = Some (Commands.mkRun [lit "Good bye!"]
            (save_data book default_filename fs) Commands.Returned).
Proof.
  unfold exits. cbn [Commands.main_loop].
  destruct (Commands.parse_input line) as [e|[command args]]; [discriminate|].
  by intros ->.
Qed.

(** X25: the loop of [main] does not die of a command: whatever the lines,
    it ends at the first [close] or [exit], or at the end of the input,
    where [input] raises [EOFError].  In the first case it prints ["Good
    bye!"] last, writes the file once, and reads no line after; in the
    second no file is written: what the commands changed is lost. *)
Theorem main_loop_ends
    (pad_year : bool) (inputs : list (date * str)) (book : AddressBook)
    (fs : gmap (list N) (list opcode)) :
  exists r,
    Commands.main_loop pad_year inputs book fs = Some r
    /\ (Forall (fun i => exits i.2 = false) inputs ->
        Commands.ended r = Commands.Uncaught EOFError
        /\ Commands.files_after r = fs)
    /\ (forall before line after,
          inputs = before ++ line :: after ->
          Forall (fun i => exits i.2 = false) before -> exits line.2 = true ->
          Commands.ended r = Commands.Returned
          /\ last (Commands.printed r) = Some (lit "Good bye!")
          /\ (exists book',
                Commands.files_after r = save_data book' default_filename fs)
          /\ Commands.main_loop pad_year (before ++ [line]) book fs = Some r).
Proof.
  revert book. induction inputs as [|[today line] inputs IH]; intros book.
  - eexists. split; [reflexivity|]. split; [done|].
    intros before line after H. by destruct before.
  - destruct (exits line) eqn:Hexit.
    + rewrite (main_loop_exit _ _ _ _ _ _ Hexit). eexists.
      split; [reflexivity|]. split.
      * intros [H _]%Forall_cons. cbn [snd] in H. congruence.
      * intros before l after Heq Hbefore Hl.
        destruct before as [|b before].
        -- cbn [app] in *. injection Heq as <- <-.
           split; [done|]. split; [done|]. split; [by eexists|].
           by rewrite (main_loop_exit _ _ _ _ _ _ Hexit).
        -- cbn [app] in Heq. injection Heq as <- _.
           apply Forall_cons in Hbefore as [H _]. cbn [snd] in H. congruence.
    + unfold exits in Hexit.
      destruct (parse_input_returns line) as (command & args & Hp).
      rewrite Hp in Hexit.
      destruct (dispatch_ok ∅ today pad_year command args book)
        as (out & book' & Hd & _).
      destruct (IH book') as (r & Hr & Hnone & Hsome).
      assert (Hstep : forall rest r',
                Commands.main_loop pad_year rest book' fs = Some r' ->
                Commands.main_loop pad_year ((today, line) :: rest) book fs
                = Some (Commands.mkRun (out ++ Commands.printed r')
                          (Commands.files_after r') (Commands.ended r'))).
      { intros rest r' Hrest. cbn [Commands.main_loop].
        rewrite Hp, Hexit, Hd. cbn [mbind option_bind snd fst].
        by rewrite Hrest. }
      rewrite (Hstep _ _ Hr). eexists. split; [reflexivity|].
      cbn [Commands.ended Commands.files_after Commands.printed]. split.
      * intros [_ H]%Forall_cons. by apply Hnone.
      * intros before l after Heq Hbefore Hl.
        destruct before as [|b before].
        { cbn [app] in Heq. injection Heq as <- _. cbn [snd] in Hl.
          unfold exits in Hl. rewrite Hp in Hl. congruence. }
        cbn [app] in Heq. injection Heq as <- Heq.
        apply Forall_cons in Hbefore as [_ Hbefore].
        destruct (Hsome before l after Heq Hbefore Hl)
          as (Hend & Hlast & Hfiles & Hcut).
        split; [done|]. split; [by rewrite last_app, Hlast|].
        split; [done|]. cbn [app]. by apply Hstep.
Qed.

Lemma main_loop_ends_witness :
  exists r,
    Commands.main_loop false
      [(mkdate 2024 6 10, lit "add Dan 0123456789");
       (mkdate 2024 6 10, lit "phone Dan")] sample_book ∅ = Some r
    /\ Commands.printed r
       = [lit "Contact added."; lit "Phone numbers for Dan: 0123456789"]
    /\ Commands.ended r = Commands.Uncaught EOFError
    /\ Commands.files_after r = ∅.
Proof.
  destruct (main_loop_ends false
              [(mkdate 2024 6 10, lit "add Dan 0123456789");
               (mkdate 2024 6 10, lit "phone Dan")] sample_book ∅)
    as (r & Hr & Hnone & _).
  exists r. split; [exact Hr|].
  destruct Hnone as [Hend Hfiles].
  { repeat constructor. }
  split; [|split; [exact Hend|exact Hfiles]].
  vm_compute in Hr. injection Hr as <-. reflexivity.
Defined.

(** X26: what [close] or [exit] saves, the next run finds.  From a book the
    program has built, a run that ends by [close] or [exit] leaves in
    ["addressbook.pkl"] a book the program has built; [load_data] gives it
    back as it was, and [main], run again, goes on with it. *)
Theorem main_exit_persists
    (pad_year : bool) (inputs : list (date * str)) (book : AddressBook)
    (fs : gmap (list N) (list opcode)) (r : Commands.run) :
  reachable fs book ->
  Commands.main_loop pad_year inputs book fs = Some r ->
  Commands.ended r = Commands.Returned ->
  exists book',
    reachable fs book'
    /\ Commands.files_after r = save_data book' default_filename fs
    /\ load_data default_filename (Commands.files_after r)
       = inr (obj_of_AddressBook book')
    /\ forall inputs',
         Commands.main pad_year inputs' (Commands.files_after r)
         = (r' ← Commands.main_loop pad_year inputs' book'
                   (Commands.files_after r);
            Some (Commands.mkRun
                    (lit "Welcome to the assistant bot!" :: Commands.printed r')
                    (Commands.files_after r') (Commands.ended r'))).
Proof.
  revert book r. induction inputs as [|[today line] inputs IH];
    intros book r Hreach Hmain Hend.
  - cbn [Commands.main_loop] in Hmain. injection Hmain as <-. discriminate.
  - destruct (exits line) eqn:Hexit.
    + rewrite (main_loop_exit _ _ _ _ _ _ Hexit) in Hmain.
      injection Hmain as <-. cbn [Commands.files_after].
      apply reachable_inv in Hreach as Hinv. destruct Hinv as (_ & _ & Hwf).
      exists book. split; [done|]. split; [done|].
      split; [by apply load_save|].
      intros inputs'. unfold Commands.main.
      rewrite (load_save _ _ _ Hwf), AddressBook_of_obj_of. reflexivity.
    + unfold exits in Hexit.
      destruct (parse_input_returns line) as (command & args & Hp).
      rewrite Hp in Hexit.
      destruct (dispatch_ok fs today pad_year command args book)
        as (out & book1 & Hd & Hreach1).
      cbn [Commands.main_loop] in Hmain.
      rewrite Hp, Hexit, Hd in Hmain. cbn [mbind option_bind snd fst] in Hmain.
      destruct (Commands.main_loop pad_year inputs book1 fs) as [r0|] eqn:Hr0;
        [|discriminate].
      injection Hmain as <-.
      cbn [Commands.ended Commands.files_after] in *.
      by apply (IH book1 r0 (Hreach1 Hreach)).
Qed.

Lemma main_exit_persists_witness :
  exists r book',
    Commands.main_loop false
      [(mkdate 2024 6 10, lit "add Dan 0123456789");
       (mkdate 2024 6 10, lit "exit")] AddressBook_init ∅ = Some r
    /\ load_data default_filename (Commands.files_after r)
       = inr (obj_of_AddressBook book')
    /\ book' = mkAddressBook
                 [(lit "Dan", mkRecord (mkName (lit "Dan"))
                                [mkPhone (lit "0123456789")] None)].
Proof.
  assert (Commands.main_loop false
            [(mkdate 2024 6 10, lit "add Dan 0123456789");
             (mkdate 2024 6 10, lit "exit")] AddressBook_init ∅
          = Some (Commands.mkRun [lit "Contact added."; lit "Good bye!"]
                    (save_data
                       (mkAddressBook
                          [(lit "Dan", mkRecord (mkName (lit "Dan"))
                                         [mkPhone (lit "0123456789")] None)])
                       default_filename ∅)
                    Commands.Returned)) as Hr
    by (vm_compute; reflexivity).
  destruct (main_exit_persists false _ _ _ _ reach_start Hr eq_refl)
    as (book' & _ & _ & Hload & _).
  eexists _, book'. split; [exact Hr|]. split; [exact Hload|].
  cbn [Commands.files_after] in Hload.
  rewrite load_save in Hload.
  - symmetry. apply obj_of_AddressBook_inj. congruence.
  - split; [apply NoDup_decide; vm_compute; reflexivity|].
    apply Forall_cons. split; [|apply Forall_nil_2]. intros bd Hbd. discriminate Hbd.
Defined.

Lemma birthday_in_year_10000 birth :
  exists msg, birthday_in_year birth (MAXYEAR + 1) = inl (ValueError msg).
Proof.
  unfold birthday_in_year, replace_year, replace_year_day, make_date.
  cbn. eauto.
Qed.

Lemma upcoming_step_last_year today pad days r acc :
  valid_date today -> year today = MAXYEAR -> birthday_valid r ->
  (exists acc', upcoming_step today pad days r acc = inr acc'
                /\ forall b d,
                     birthday r = Some b ->
                     birthday_in_year (datetime_date (birthday_value b))
                       (year today) = inr d ->
                     date_ltb d today = false)
  \/ (exists msg, upcoming_step today pad days r acc = inl (ValueError msg)).
Proof.
  intros Ht Hy Hr. unfold upcoming_step.
  destruct (birthday r) as [b|] eqn:Eb.
  2: { left. eexists. split; [done|]. by intros. }
  destruct (Hr b Eb) as [Hvb _]. unfold MAXYEAR in Hy.
  destruct (birthday_in_year_spec (datetime_date (birthday_value b))
              (year today) Hvb ltac:(lia)) as [Hin Hvin].
  unfold next_birthday. rewrite Hin. cbn [bind_exn].
  destruct (date_ltb _ today) eqn:Hlt.
  - right. rewrite Hy.
    destruct (birthday_in_year_10000 (datetime_date (birthday_value b)))
      as [msg Hmsg].
    unfold MAXYEAR in Hmsg. rewrite Hmsg. cbn [bind_exn]. by exists msg.
  - left. cbn [bind_exn].
    destruct (_ && _).
    + destruct (congratulation_spec _ Hvin) as (cd & -> & _).
      cbn [bind_exn]. eexists. split; [done|].
      intros b' d [= <-]. rewrite Hin. by intros [= <-].
    + eexists. split; [done|].
      intros b' d [= <-]. rewrite Hin. by intros [= <-].
Qed.

(** X27: in the year 9999 a birthday that has passed cannot be placed in
    the next year: when a record of the book has its birthday, placed in
    the current year, before today, [get_upcoming_birthdays] raises
    [ValueError], whatever the other records. *)
Theorem upcoming_last_year
    (today : date) (pad_year : bool) (days : Z) (book : AddressBook)
    (r : ContactRecord) (b : Birthday) (d : date) :
  valid_date today -> year today = MAXYEAR ->
  Forall birthday_valid (dict_values (data book)) ->
  r ∈ dict_values (data book) -> birthday r = Some b ->
  birthday_in_year (datetime_date (birthday_value b)) (year today) = inr d ->
  date_ltb d today = true ->
  exists msg,
    get_upcoming_birthdays today pad_year days book = inl (ValueError msg).
Proof.
  intros Ht Hy Hbook Hr Hb Hd Hlt. unfold get_upcoming_birthdays.
  generalize (@nil upcoming) as acc.
  induction Hbook as [|r0 records Hr0 _ IH]; intros acc.
  { by apply elem_of_nil in Hr. }
  cbn [upcoming_loop].
  destruct (upcoming_step_last_year today pad_year days r0 acc Ht Hy Hr0)
    as [(acc' & -> & Hnot)|[msg ->]]; cbn [bind_exn]; [|by exists msg].
  apply elem_of_cons in Hr as [->|Hr]; [|by apply IH].
  rewrite (Hnot b d Hb Hd) in Hlt. discriminate.
Qed.

Lemma upcoming_last_year_witness :
  exists msg,
    get_upcoming_birthdays (mkdate 9999 6 10) false 7 sample_book
    = inl (ValueError msg).
Proof.
  apply (upcoming_last_year (mkdate 9999 6 10) false 7 sample_book
           (mkRecord (mkName (lit "Bob")) [] (sample_birthday 2000 2 29))
           (mkBirthday (mkdatetime (mkdate 2000 2 29) 0 0 0 0 0))
           (mkdate 9999 2 28)).
  - vm_compute. reflexivity.
  - reflexivity.
  - exact sample_book_birthdays.
  - right. left.
  - reflexivity.
  - vm_compute. reflexivity.
  - vm_compute. reflexivity.
Defined.
